(** * Azure DevOps impact metrics: the aggregation and percentile engine

    A shallow embedding of [static/main.js] (class
    [AzureDevOpsMetricsAnalyzer]) and the properties its specification
    states about it.

    - JavaScript numbers that hold counts are integers ([Z]); the two places
      where the program leaves the integers ([count / length * 100] and the
      products of [Math.random()]) use a model of IEEE-754 binary64
      arithmetic on the rationals ([round64]).
    - The objects the program counts in ([userCounts]) are plain objects:
      they answer for the names of [Object.prototype] without holding
      them, and list their array-index keys first ([increment],
      [Object_values]); a value of such an object is a [Count].
    - [async] methods run sequentially (every call is awaited), so they are
      computations in a state-and-exception monad over the observable
      world: the number of [fetch] calls made, the number of
      [Math.random()] draws made, and the console.
    - What the program cannot decide itself (the remote API, the random
      source, the clock and a few platform string functions, two of which
      can raise) is the environment [Env]. *)

From Stdlib Require Import QArith Qround Qpower Lqa ZArith Lia Ascii String.
From stdpp Require Import gmap strings list sorting pretty.

Local Open Scope Z_scope.

(** ** JavaScript numbers: binary64 on the rationals *)

Definition pow2 (e : Z) : Q := (2 ^ e)%Q.

(** [ilog2 x] is the binary exponent of a positive rational:
    [2^(ilog2 x) <= x < 2^(ilog2 x + 1)]. *)
Definition ilog2 (x : Q) : Z :=
  let l := Z.log2 (Qnum x) - Z.log2 (Zpos (Qden x)) in
  if Qle_bool (pow2 l) x then l else l - 1.

(** Round to the nearest integer, ties to the even one. *)
Definition rne (y : Q) : Z :=
  let f := Qfloor y in
  match Qcompare (y - inject_Z f) (1 # 2) with
  | Lt => f
  | Gt => f + 1
  | Eq => if Z.even f then f else f + 1
  end.

(** The binary64 number nearest to a positive rational: 53 significant
    bits, exponent at least -1022 (below that the spacing stays 2^-1074).
    Overflow to [Infinity] is outside the model; no operand of this program
    comes near 2^1024. *)
Definition round64_pos (x : Q) : Q :=
  let e := Z.max (ilog2 x) (-1022) in
  (inject_Z (rne (x * pow2 (52 - e))) * pow2 (e - 52))%Q.

Definition round64 (x : Q) : Q :=
  match Qcompare x 0 with
  | Eq => 0%Q
  | Gt => round64_pos x
  | Lt => (- round64_pos (- x))%Q
  end.

(** [a * b] and [a / b] on numbers. *)
Definition num_mul (a b : Q) : Q := round64 (a * b).
Definition num_div (a b : Q) : Q := round64 (a / b).

Definition Math_floor (x : Q) : Z := Qfloor x.

(** [Math.round]: the integer nearest to [x], a tie going up. It is exact
    (not a floating-point addition of one half). *)
Definition Math_round (x : Q) : Z := Qfloor (x + (1 # 2)).

(** ** Strings *)

(** [s.endsWith('/')] *)
Fixpoint endsWithSlash (s : string) : bool :=
  match s with
  | EmptyString => false
  | String c EmptyString => Ascii.eqb c "/"%char
  | String _ rest => endsWithSlash rest
  end.

(** [s.slice(0, -1)] *)
Fixpoint slice_0_minus1 (s : string) : string :=
  match s with
  | EmptyString => EmptyString
  | String _ EmptyString => EmptyString
  | String c rest => String c (slice_0_minus1 rest)
  end.

(** [s.split('T')[0]] *)
Fixpoint split_T_0 (s : string) : string :=
  match s with
  | EmptyString => EmptyString
  | String c rest => if Ascii.eqb c "T"%char then EmptyString else String c (split_T_0 rest)
  end.

(** A string is truthy when it is present and not empty. *)
Definition truthy (s : option string) : bool :=
  match s with
  | Some s => negb (String.eqb s EmptyString)
  | None => false
  end.

(** ** Data model *)

Record Project := { project_id : string; project_name : string }.
Record Repository := { repo_id : string; repo_name : string }.
Record Author := { author_email : option string }.
Record Commit := { commit_author : option Author }.
Record Identity := { uniqueName : option string }.
Record PullRequest := { pr_createdBy : option Identity }.
Record WorkItem := { workItem_id : Z }.

Record RepoStat := {
  rs_commits : Z;
  rs_prs : Z;
  rs_projectId : string;
  rs_repoId : string
}.

Record ProjectMetrics := {
  pm_commits : Z;
  pm_prs : Z;
  pm_workItems : Z;
  pm_repoStats : gmap string RepoStat
}.

(** A value of a counting object, and so an element of a distribution: a
    number, or the text that [+ 1] makes of a function inherited from
    [Object.prototype], that is [function name() { [native code] }]
    followed by as many [1] as were added. Such a text is never empty and
    is no numeral: it is truthy, and as a number it is [NaN]. *)
Inductive Count :=
| Num (n : Z)
| NativeText (name : string) (ones : nat).

Record OrgStats := {
  os_commits : list Count;
  os_prs : list Count;
  os_workItems : list Count
}.

Record OrgWide := {
  allCommits : list Count;
  allPRs : list Count;
  allWorkItems : list Count
}.

Record Percentiles := {
  pc_commits : Z;
  pc_prs : Z;
  pc_workItems : Z
}.

(** An element of [metrics.projects]: [{name: project.name, ...projectMetrics}]. *)
Record ProjectEntry := { pe_name : string; pe_metrics : ProjectMetrics }.

Record Metrics := {
  totalCommits : Z;
  totalPRs : Z;
  totalWorkItems : Z;
  activeRepos : Z;
  repoStats : gmap string RepoStat;
  timeline : gmap string Z;
  projects : list ProjectEntry;
  orgStats : OrgWide;
  percentiles : option Percentiles
}.

(** [this]: the fields of the analyzer the core reads. *)
Record Analyzer := { organization : string; baseUrl : string }.

(** ** The remote API and the platform *)

Inductive Error := MkError (message : string).

Inductive Method := GET | POST.

Record Request := {
  req_method : Method;
  req_url : string;
  req_headers : list (string * string);
  req_body : option string
}.

(** What [response.json()] gives: a rejection (the body is not JSON, or is
    not an object), or the list found under the field the caller reads
    ([value], or [workItems] for a work-item query); [None] when the field
    is missing or falsy. *)
Inductive Body (T : Type) :=
| Malformed (e : Error)
| Parsed (field : option (list T)).
Arguments Malformed {T} e.
Arguments Parsed {T} field.

Record Response (T : Type) := {
  resp_ok : bool;
  resp_statusText : string;
  resp_body : Body T
}.
Arguments resp_ok {T} r.
Arguments resp_statusText {T} r.
Arguments resp_body {T} r.

(** What [fetch] gives: a rejection (network error) or a response. *)
Inductive FetchOutcome (T : Type) :=
| NetworkError (e : Error)
| Responded (r : Response T).
Arguments NetworkError {T} e.
Arguments Responded {T} r.

(** What a call gives: a value, or an exception. *)
Inductive Result (A : Type) :=
| Returned (a : A)
| Thrown (e : Error).
Arguments Returned {A} a.
Arguments Thrown {A} e.

(** The environment of a run. The remote answers may depend on the request
    and on how many calls came before (first argument); [Math_random n] is
    the n-th draw of the random source, a binary64 number in [0,1).
    [btoa] raises ([InvalidCharacterError]) on a text with a character
    above U+00FF. [sinceDate_toISOString daysBack] is what
    [sinceDate.toISOString()] gives for the current date moved back by
    [daysBack] days: the ISO-8601 text, or a [RangeError] when the days
    lead out of the range of dates (the advance of the clock during a run
    is not modelled). *)
Record Env := {
  btoa : string → Result string;
  toLowerCase : string → string;
  JSON_stringify_query : string → string;
  sinceDate_toISOString : Z → Result string;
  Math_random : nat → Q;
  remote_projects : nat → Request → FetchOutcome Project;
  remote_repositories : nat → Request → FetchOutcome Repository;
  remote_commits : nat → Request → FetchOutcome Commit;
  remote_pullrequests : nat → Request → FetchOutcome PullRequest;
  remote_wiql : nat → Request → FetchOutcome WorkItem
}.

Inductive LogEntry :=
| Log (text : string)
| Warn (text : string) (error : Error).

Record World := {
  fetches : nat;
  draws : nat;
  console : list LogEntry
}.

(** ** Computations: state and exceptions *)

Definition M (St A : Type) : Type := St → Result A * St.

Definition ret {St A} (a : A) : M St A := λ s, (Returned a, s).

Definition bind {St A B} (c : M St A) (k : A → M St B) : M St B :=
  λ s, match c s with
       | (Returned a, s') => k a s'
       | (Thrown e, s') => (Thrown e, s')
       end.

Notation "'let*' x ':=' c 'in' k" := (bind c (λ x, k))
  (at level 10, x pattern, c at level 100, k at level 200).

Definition throw {St A} (e : Error) : M St A := λ s, (Thrown e, s).

(** [try { body } catch (error) { handler }]: the state reached when the
    exception was raised is kept. *)
Definition try_catch {St A} (body : M St A) (handler : Error → M St A) : M St A :=
  λ s, match body s with
       | (Thrown e, s') => handler e s'
       | r => r
       end.

(** [for (const x of l) { f x }] *)
Fixpoint forEach {St A} (l : list A) (f : A → M St ()) : M St () :=
  match l with
  | [] => ret ()
  | x :: rest => let* _ := f x in forEach rest f
  end.

(** A local object that the body mutates: the body runs over the pair of
    the object and the world. *)
Definition lift {L A} (c : M World A) : M (L * World) A :=
  λ s, let (r, w') := c s.2 in (r, (s.1, w')).

Definition update {L} (f : L → L) : M (L * World) () :=
  λ s, (Returned (), (f s.1, s.2)).

(** [const obj = init; c; return obj;] *)
Definition with_local {L} (init : L) (c : M (L * World) ()) : M World L :=
  λ w, match c (init, w) with
       | (Returned _, s') => (Returned s'.1, s'.2)
       | (Thrown e, s') => (Thrown e, s'.2)
       end.

Definition console_log (text : string) : M World () :=
  λ w, (Returned (), {| fetches := fetches w; draws := draws w;
                        console := console w ++ [Log text] |}).

Definition console_warn (text : string) (error : Error) : M World () :=
  λ w, (Returned (), {| fetches := fetches w; draws := draws w;
                        console := console w ++ [Warn text error] |}).

(** [await fetch(url, options)] against one endpoint of the remote API. *)
Definition fetch {T} (remote : nat → Request → FetchOutcome T) (req : Request)
  : M World (Response T) :=
  λ w, let w' := {| fetches := S (fetches w); draws := draws w; console := console w |} in
       match remote (fetches w) req with
       | NetworkError e => (Thrown e, w')
       | Responded r => (Returned r, w')
       end.

(** [await response.json()] *)
Definition response_json {T} (response : Response T) : M World (option (list T)) :=
  match resp_body response with
  | Malformed e => throw e
  | Parsed field => ret field
  end.

(** [field || []] *)
Definition or_empty {T} (field : option (list T)) : list T := default [] field.

(** A call of a platform function that can raise. *)
Definition platform {A} (result : Result A) : M World A := λ w, (result, w).

(** What a fetcher makes of the outcome of its call: nothing for a status
    outside 2xx, the list under the field it reads (or nothing), or the
    rejection of [fetch] or of [response.json()]. *)
Definition fetched {T} (outcome : FetchOutcome T) : Result (list T) :=
  match outcome with
  | NetworkError e => Thrown e
  | Responded r =>
      if negb (resp_ok r) then Returned []
      else match resp_body r with
           | Malformed e => Thrown e
           | Parsed field => Returned (or_empty field)
           end
  end.

(** [Math.random()] *)
Definition random (env : Env) : M World Q :=
  λ w, (Returned (Math_random env (draws w)),
        {| fetches := fetches w; draws := S (draws w); console := console w |}).

(** ** The analyzer *)

Definition newline : string := String (ascii_of_nat 10) EmptyString.

Definition http_get (url : string) (headers : list (string * string)) : Request :=
  {| req_method := GET; req_url := url; req_headers := headers; req_body := None |}.

Definition http_post (url : string) (headers : list (string * string)) (body : string)
  : Request :=
  {| req_method := POST; req_url := url; req_headers := headers; req_body := Some body |}.

Definition emptyProjectMetrics : ProjectMetrics :=
  {| pm_commits := 0; pm_prs := 0; pm_workItems := 0; pm_repoStats := ∅ |}.

Definition emptyOrgStats : OrgStats :=
  {| os_commits := []; os_prs := []; os_workItems := [] |}.

Definition emptyMetrics : Metrics :=
  {| totalCommits := 0; totalPRs := 0; totalWorkItems := 0; activeRepos := 0;
     repoStats := ∅; timeline := ∅; projects := [];
     orgStats := {| allCommits := []; allPRs := []; allWorkItems := [] |};
     percentiles := None |}.

(** [filterCommitsByUser]: the predicate of the [filter] call. *)
Definition authoredBy (lower : string → string) (userEmail : string) (commit : Commit)
  : bool :=
  let author := default {| author_email := None |} (commit_author commit) in
  match author_email author with
  | Some email => negb (String.eqb email EmptyString) && String.eqb (lower email) (lower userEmail)
  | None => false
  end.

(** *** Counting objects

    [userCounts] starts as [{}]: an object without properties of its own
    that inherits those of [Object.prototype]. Its own properties are kept
    here in the order they were created. *)

(** The functions [Object.prototype] holds, by property name. *)
Definition native_functions : list string :=
  ["constructor"; "hasOwnProperty"; "isPrototypeOf";
   "propertyIsEnumerable"; "toLocaleString"; "toString"; "valueOf";
   "__defineGetter__"; "__defineSetter__"; "__lookupGetter__"; "__lookupSetter__"].

(** What the object answers under a name it does not hold: nothing, one of
    these functions (under [constructor] the function named [Object]), or,
    under [__proto__], the accessor that reads [Object.prototype] itself and
    ignores the assignment of anything that is not an object. *)
Inductive Inherited :=
| PrototypeAccessor
| NativeFunction (name : string).

Definition Object_prototype (key : string) : option Inherited :=
  if String.eqb key "__proto__" then Some PrototypeAccessor
  else if bool_decide (key ∈ native_functions)
       then Some (NativeFunction (if String.eqb key "constructor" then "Object" else key))
       else None.

(** [(value || 0) + 1] for a value the object holds: one more for a number
    (also for 0, which is falsy), one more [1] at the end of a text. *)
Definition plus_one (value : Count) : Count :=
  match value with
  | Num n => Num (n + 1)
  | NativeText name ones => NativeText name (S ones)
  end.

(** [userCounts[email] = (userCounts[email] || 0) + 1]. A property of the
    object's own is read and overwritten. Under any other key the object
    answers what it inherits: nothing, and the count starts at [0 + 1]; a
    function, and the text of the function followed by [1] is written as a
    new property; the prototype, and the assignment is ignored. *)
Fixpoint increment (email : string) (userCounts : list (string * Count))
  : list (string * Count) :=
  match userCounts with
  | [] =>
      match Object_prototype email with
      | None => [(email, Num (0 + 1))]
      | Some (NativeFunction name) => [(email, NativeText name 1)]
      | Some PrototypeAccessor => []
      end
  | (key, value) :: rest =>
      if String.eqb key email then (key, plus_one value) :: rest
      else (key, value) :: increment email rest
  end.

(** A property name that is an array index: the decimal numeral, without
    superfluous zeros, of a number below 2^32 - 1. *)
Definition digit (c : ascii) : option N :=
  let code := N_of_ascii c in
  if ((48 <=? code) && (code <=? 57))%N then Some (code - 48)%N else None.

Fixpoint numeral (s : string) (value : N) : option N :=
  match s with
  | EmptyString => Some value
  | String c rest =>
      match digit c with
      | Some d => numeral rest (10 * value + d)%N
      | None => None
      end
  end.

Definition arrayIndex (key : string) : option N :=
  match key with
  | EmptyString => None
  | String c rest =>
      if Ascii.eqb c "0"%char && negb (String.eqb rest EmptyString) then None
      else match numeral key 0 with
           | Some index => if (index <? 4294967295)%N then Some index else None
           | None => None
           end
  end.

Definition byIndex : relation (N * Count) := λ a b, (a.1 ≤ b.1)%N.

#[global] Instance byIndex_dec (a b : N * Count) : Decision (byIndex a b).
Proof. unfold byIndex. apply _. Defined.

(** [Object.values(userCounts)]: the values under the array-index keys by
    ascending index, then the other values in the order their properties
    were created. *)
Definition Object_values (userCounts : list (string * Count)) : list Count :=
  let indexed := omap (λ entry, (λ index : N, (index, entry.2)) <$> arrayIndex entry.1)
                      userCounts in
  let named := List.filter (λ entry, match arrayIndex entry.1 with
                                     | None => true
                                     | Some _ => false
                                     end) userCounts in
  (merge_sort byIndex indexed).*2 ++ named.*2.

Definition groupCommitsByUser (commits : list Commit) : list (string * Count) :=
  fold_left (λ userCounts commit,
      let email :=
        match commit_author commit with
        | Some author => if truthy (author_email author)
                         then default "unknown" (author_email author) else "unknown"
        | None => "unknown"
        end in
      increment email userCounts) commits [].

Definition groupPRsByUser (prs : list PullRequest) : list (string * Count) :=
  fold_left (λ userCounts pr,
      let email :=
        match pr_createdBy pr with
        | Some creator => if truthy (uniqueName creator)
                          then default "unknown" (uniqueName creator) else "unknown"
        | None => "unknown"
        end in
      increment email userCounts) prs [].

(** [getPercentile]: the loop over the sorted values, leaving at the first
    value that is not below [userValue]. *)
Fixpoint countLoop (sorted : list Z) (userValue : Z) (count : Z) : Z :=
  match sorted with
  | [] => count
  | value :: rest =>
      if value <? userValue then countLoop rest userValue (count + 1) else count
  end.

(** [values.sort((a, b) => a - b)] is the ascending arrangement of the
    values, whatever algorithm the engine uses; here a merge sort. *)
Definition getPercentile (values : list Z) (userValue : Z) : Z :=
  if (length values =? 0)%nat || (userValue =? 0) then 0
  else
    let sorted := merge_sort Z.le values in
    let count := countLoop sorted userValue 0 in
    Math_round (num_mul (num_div (inject_Z count) (inject_Z (Z.of_nat (length sorted))))
                        100).

(** [distribution.filter(count => count > 0)]: the numbers above 0 (a text
    is [NaN] as a number, and [NaN > 0] is false). *)
Definition positiveCount (count : Count) : option Z :=
  match count with
  | Num n => if 0 <? n then Some n else None
  | NativeText _ _ => None
  end.

(** What [calculatePercentiles] does for each of the three metrics: drop
    the entries that are not positive, then rank the user's total. *)
Definition percentile (distribution : list Count) (userValue : Z) : Z :=
  getPercentile (omap positiveCount distribution) userValue.

Definition calculatePercentiles (metrics : Metrics) (userEmail : option string)
  : Percentiles :=
  {| pc_commits := percentile (allCommits (orgStats metrics)) (totalCommits metrics);
     pc_prs := percentile (allPRs (orgStats metrics)) (totalPRs metrics);
     pc_workItems := percentile (allWorkItems (orgStats metrics)) (totalWorkItems metrics) |}.

(** The body of [analyzeProject]'s loop after both fetches: add to the
    project's totals and write the repository's entry. The key holds a
    [/]: it is no name that the table inherits and no array index, so the
    table is a finite map. *)
Definition recordRepo (project : Project) (repo : Repository) (commitCount prCount : Z)
    (projectMetrics : ProjectMetrics) : ProjectMetrics :=
  let repoKey := project_name project +:+ "/" +:+ repo_name repo in
  {| pm_commits := pm_commits projectMetrics + commitCount;
     pm_prs := pm_prs projectMetrics + prCount;
     pm_workItems := pm_workItems projectMetrics;
     pm_repoStats :=
       <[repoKey := {| rs_commits := commitCount; rs_prs := prCount;
                       rs_projectId := project_id project;
                       rs_repoId := repo_id repo |}]> (pm_repoStats projectMetrics) |}.

Definition setWorkItems (n : Z) (projectMetrics : ProjectMetrics) : ProjectMetrics :=
  {| pm_commits := pm_commits projectMetrics; pm_prs := pm_prs projectMetrics;
     pm_workItems := n; pm_repoStats := pm_repoStats projectMetrics |}.

Definition pushCommits (counts : list Count) (o : OrgStats) : OrgStats :=
  {| os_commits := os_commits o ++ counts; os_prs := os_prs o;
     os_workItems := os_workItems o |}.
Definition pushPRs (counts : list Count) (o : OrgStats) : OrgStats :=
  {| os_commits := os_commits o; os_prs := os_prs o ++ counts;
     os_workItems := os_workItems o |}.
Definition pushWorkItems (counts : list Count) (o : OrgStats) : OrgStats :=
  {| os_commits := os_commits o; os_prs := os_prs o;
     os_workItems := os_workItems o ++ counts |}.
Definition assignCommits (counts : list Count) (o : OrgStats) : OrgStats :=
  {| os_commits := counts; os_prs := os_prs o; os_workItems := os_workItems o |}.
Definition assignPRs (counts : list Count) (o : OrgStats) : OrgStats :=
  {| os_commits := os_commits o; os_prs := counts; os_workItems := os_workItems o |}.
Definition assignWorkItems (counts : list Count) (o : OrgStats) : OrgStats :=
  {| os_commits := os_commits o; os_prs := os_prs o; os_workItems := counts |}.

Definition isActive (stats : RepoStat) : bool :=
  (0 <? rs_commits stats) || (0 <? rs_prs stats).

(** [fetchAllMetrics], "Merge repo stats": one step of the [forEach] over
    the keys of [projectMetrics.repoStats], on the pair
    ([metrics.activeRepos], [metrics.repoStats]). *)
Definition mergeRepo (repo : string) (stats : RepoStat)
    (acc : Z * gmap string RepoStat) : Z * gmap string RepoStat :=
  if isActive stats then (acc.1 + 1, <[repo := stats]> acc.2) else acc.

(** [fetchAllMetrics]: everything the loop body does with the two results
    of a project. *)
Definition mergeProject (project : Project) (projectMetrics : ProjectMetrics)
    (orgProjectStats : OrgStats) (metrics : Metrics) : Metrics :=
  let merged := map_fold mergeRepo (activeRepos metrics, repoStats metrics)
                         (pm_repoStats projectMetrics) in
  {| totalCommits := totalCommits metrics + pm_commits projectMetrics;
     totalPRs := totalPRs metrics + pm_prs projectMetrics;
     totalWorkItems := totalWorkItems metrics + pm_workItems projectMetrics;
     activeRepos := merged.1;
     repoStats := merged.2;
     timeline := timeline metrics;
     projects := projects metrics ++
                 [{| pe_name := project_name project; pe_metrics := projectMetrics |}];
     orgStats :=
       {| allCommits := allCommits (orgStats metrics) ++ os_commits orgProjectStats;
          allPRs := allPRs (orgStats metrics) ++ os_prs orgProjectStats;
          allWorkItems := allWorkItems (orgStats metrics) ++ os_workItems orgProjectStats |};
     percentiles := percentiles metrics |}.

Definition setPercentiles (p : Percentiles) (metrics : Metrics) : Metrics :=
  {| totalCommits := totalCommits metrics; totalPRs := totalPRs metrics;
     totalWorkItems := totalWorkItems metrics; activeRepos := activeRepos metrics;
     repoStats := repoStats metrics; timeline := timeline metrics;
     projects := projects metrics; orgStats := orgStats metrics;
     percentiles := Some p |}.

Section Analyzer.
Context (env : Env) (this : Analyzer).

Definition projectsUrl : string :=
  let baseUrl := if endsWithSlash (baseUrl this)
                 then slice_0_minus1 (baseUrl this) else baseUrl this in
  baseUrl +:+ "/_apis/projects?api-version=6.0".

Definition getProjects (headers : list (string * string)) : M World (list Project) :=
  let url := projectsUrl in
  let* _ := console_log ("Fetching projects from: " +:+ url) in
  let* response := fetch (remote_projects env) (http_get url headers) in
  if negb (resp_ok response)
  then throw (MkError ("Failed to fetch projects: " +:+ resp_statusText response))
  else
    let* data := response_json response in
    ret (or_empty data).

Definition repositoriesRequest (projectId : string) (headers : list (string * string))
  : Request :=
  http_get (baseUrl this +:+ "/" +:+ projectId
            +:+ "/_apis/git/repositories?api-version=6.0") headers.

Definition getRepositories (projectId : string) (headers : list (string * string))
  : M World (list Repository) :=
  let* response := fetch (remote_repositories env)
                         (repositoriesRequest projectId headers) in
  if negb (resp_ok response) then ret []
  else
    let* data := response_json response in
    ret (or_empty data).

(** The request of [getCommits]; [since] is the text of
    [sinceDate.toISOString()]. *)
Definition commitsRequest (projectId repoId : string) (since : string)
    (headers : list (string * string)) : Request :=
  http_get (baseUrl this +:+ "/" +:+ projectId +:+ "/_apis/git/repositories/"
            +:+ repoId
            +:+ "/commits?api-version=6.0&$top=1000&searchCriteria.fromDate="
            +:+ since) headers.

Definition getCommits (projectId repoId : string) (userEmail : option string)
    (daysBack : Z) (headers : list (string * string)) : M World (list Commit) :=
  let* since := platform (sinceDate_toISOString env daysBack) in
  let* response := fetch (remote_commits env)
                         (commitsRequest projectId repoId since headers) in
  if negb (resp_ok response) then ret []
  else
    let* data := response_json response in
    ret (or_empty data).

Definition pullRequestsRequest (projectId repoId : string)
    (headers : list (string * string)) : Request :=
  http_get (baseUrl this +:+ "/" +:+ projectId +:+ "/_apis/git/repositories/"
            +:+ repoId
            +:+ "/pullrequests?api-version=6.0&searchCriteria.status=all&$top=1000")
           headers.

Definition getPullRequests (projectId repoId : string) (daysBack : Z)
    (headers : list (string * string)) : M World (list PullRequest) :=
  let* response := fetch (remote_pullrequests env)
                         (pullRequestsRequest projectId repoId headers) in
  if negb (resp_ok response) then ret []
  else
    let* data := response_json response in
    ret (or_empty data).

(** The request of [getWorkItems]; [since] is the text of
    [sinceDate.toISOString()]. *)
Definition wiqlRequest (projectId userEmail : string) (since : string)
    (headers : list (string * string)) : Request :=
  let indent := "                   " in
  let query :=
    "SELECT [System.Id], [System.Title], [System.State], [System.WorkItemType], [System.CreatedDate] "
    +:+ newline +:+ indent +:+ "FROM WorkItems "
    +:+ newline +:+ indent +:+ "WHERE [System.AssignedTo] = '" +:+ userEmail +:+ "' "
    +:+ newline +:+ indent +:+ "AND [System.CreatedDate] >= '"
    +:+ split_T_0 since +:+ "' "
    +:+ newline +:+ indent +:+ "ORDER BY [System.CreatedDate] DESC" in
  http_post (baseUrl this +:+ "/" +:+ projectId +:+ "/_apis/wit/wiql?api-version=6.0")
            headers (JSON_stringify_query env query).

Definition getWorkItems (projectId userEmail : string) (daysBack : Z)
    (headers : list (string * string)) : M World (list WorkItem) :=
  let* since := platform (sinceDate_toISOString env daysBack) in
  let* response := fetch (remote_wiql env)
                         (wiqlRequest projectId userEmail since headers) in
  if negb (resp_ok response) then ret []
  else
    let* data := response_json response in
    ret (or_empty data).

Definition filterCommitsByUser (commits : list Commit) (userEmail : option string)
  : list Commit :=
  if negb (truthy userEmail) then commits
  else List.filter (authoredBy (toLowerCase env) (default EmptyString userEmail)) commits.

(** The loop of the three generators, which differ in the two constants:
    [stats.push(Math.floor(Math.random() * a)
                + Math.floor(Math.random() * Math.random() * b))]. *)
Fixpoint mockStatsLoop (a b : Z) (iterations : nat) (stats : list Z)
  : M World (list Z) :=
  match iterations with
  | O => ret stats
  | S remaining =>
      let* u1 := random env in
      let* u2 := random env in
      let* u3 := random env in
      mockStatsLoop a b remaining
        (stats ++ [Math_floor (num_mul u1 (inject_Z a))
                   + Math_floor (num_mul (num_mul u2 u3) (inject_Z b))])
  end.

Definition generateMockCommitStats : M World (list Z) := mockStatsLoop 20 50 50 [].
Definition generateMockPRStats : M World (list Z) := mockStatsLoop 10 25 50 [].
Definition generateMockWorkItemStats : M World (list Z) := mockStatsLoop 15 30 50 [].

(** The body of the loop over the repositories in [analyzeProject]. *)
Definition analyzeRepo (project : Project) (daysBack : Z)
    (userEmail : option string) (headers : list (string * string))
    (repo : Repository) : M (ProjectMetrics * World) () :=
  let* commits := lift (getCommits (project_id project) (repo_id repo)
                                   userEmail daysBack headers) in
  let commitCount := Z.of_nat (length (filterCommitsByUser commits userEmail)) in
  let* prs := lift (getPullRequests (project_id project) (repo_id repo)
                                    daysBack headers) in
  let prCount := Z.of_nat (length prs) in
  update (recordRepo project repo commitCount prCount).

(** The [try] block of [analyzeProject]. *)
Definition analyzeProject_try (project : Project) (daysBack : Z)
    (userEmail : option string) (headers : list (string * string))
  : M (ProjectMetrics * World) () :=
  let* repos := lift (getRepositories (project_id project) headers) in
  let* _ := forEach repos (analyzeRepo project daysBack userEmail headers) in
  if truthy userEmail then
    let* workItems := lift (getWorkItems (project_id project) (default EmptyString userEmail)
                                         daysBack headers) in
    update (setWorkItems (Z.of_nat (length workItems)))
  else ret ().

Definition analyzeProject (project : Project) (daysBack : Z)
    (userEmail : option string) (headers : list (string * string))
  : M World ProjectMetrics :=
  with_local emptyProjectMetrics
    (try_catch (analyzeProject_try project daysBack userEmail headers)
       (λ error, lift (console_warn
                   ("Error analyzing project " +:+ project_name project +:+ ":") error))).

(** The body of the loop over the sampled repositories in
    [getProjectOrgStats]. *)
Definition sampleRepo (project : Project) (daysBack : Z)
    (headers : list (string * string)) (repo : Repository)
  : M (OrgStats * World) () :=
  let* commits := lift (getCommits (project_id project) (repo_id repo)
                                   None daysBack headers) in
  let userCommitCounts := groupCommitsByUser commits in
  let* _ := update (pushCommits (Object_values userCommitCounts)) in
  let* prs := lift (getPullRequests (project_id project) (repo_id repo)
                                    daysBack headers) in
  let userPRCounts := groupPRsByUser prs in
  update (pushPRs (Object_values userPRCounts)).

(** The [try] block of [getProjectOrgStats]; [repos.slice(0, 5)] is
    [take 5 repos]. *)
Definition getProjectOrgStats_try (project : Project) (daysBack : Z)
    (headers : list (string * string)) : M (OrgStats * World) () :=
  let* repos := lift (getRepositories (project_id project) headers) in
  let* _ := forEach (take 5 repos) (sampleRepo project daysBack headers) in
  let* mockWorkItemCounts := lift generateMockWorkItemStats in
  update (pushWorkItems (Num <$> mockWorkItemCounts)).

(** The [catch] block of [getProjectOrgStats]. *)
Definition getProjectOrgStats_catch (project : Project) (error : Error)
  : M (OrgStats * World) () :=
  let* _ := lift (console_warn
              ("Error getting org stats for project " +:+ project_name project +:+ ":")
              error) in
  let* commits := lift generateMockCommitStats in
  let* _ := update (assignCommits (Num <$> commits)) in
  let* prs := lift generateMockPRStats in
  let* _ := update (assignPRs (Num <$> prs)) in
  let* workItems := lift generateMockWorkItemStats in
  update (assignWorkItems (Num <$> workItems)).

Definition getProjectOrgStats (project : Project) (daysBack : Z)
    (headers : list (string * string)) : M World OrgStats :=
  with_local emptyOrgStats
    (try_catch (getProjectOrgStats_try project daysBack headers)
               (getProjectOrgStats_catch project)).

(** The body of the loop over the projects in [fetchAllMetrics]. *)
Definition fetchAllMetrics_step (daysBack : Z) (userEmail : option string)
    (headers : list (string * string)) (project : Project) : M (Metrics * World) () :=
  let* projectMetrics := lift (analyzeProject project daysBack userEmail headers) in
  let* orgProjectStats := lift (getProjectOrgStats project daysBack headers) in
  update (mergeProject project projectMetrics orgProjectStats).

(** The [headers] object built by [fetchAllMetrics]; [encoded] is what
    [btoa(':' + token)] returned. *)
Definition requestHeaders (encoded : string) : list (string * string) :=
  [("Authorization", "Basic " +:+ encoded);
   ("Content-Type", "application/json")].

Definition fetchAllMetrics (daysBack : Z) (userEmail : option string) (token : string)
  : M World Metrics :=
  let* _ := console_log ("Using organization: " +:+ organization this) in
  let* _ := console_log "Current project:" in
  let* _ := console_log ("Base URL: " +:+ baseUrl this) in
  let* encoded := platform (btoa env (":" +:+ token)) in
  let headers := requestHeaders encoded in
  let* projects := getProjects headers in
  let* metrics := with_local emptyMetrics
                    (forEach projects (fetchAllMetrics_step daysBack userEmail headers)) in
  ret (setPercentiles (calculatePercentiles metrics userEmail) metrics).

End Analyzer.

(** ** The properties under study, in the specification's words *)

(** Rounding to the nearest integer, a tie going away from zero. *)
Definition round_half_away (q : Q) : Z :=
  if Qle_bool 0 q then Qfloor (q + (1 # 2)) else - Qfloor (- q + (1 # 2)).

(** The distribution without its zero entries. *)
Definition remaining (distribution : list Z) : list Z :=
  List.filter (λ v, negb (v =? 0)) distribution.

(** The number of remaining values strictly below the user value, divided
    by the number of remaining values, times 100: a rational number. *)
Definition rank (distribution : list Z) (userValue : Z) : Q :=
  (inject_Z (Z.of_nat (length (List.filter (λ v, v <? userValue) (remaining distribution))))
   / inject_Z (Z.of_nat (length (remaining distribution))) * 100)%Q.

(** The percentile rank as the specification words it: 0 for an empty
    remainder or a zero user value, otherwise the rank rounded to the
    nearest integer, a tie going away from zero. *)
Definition percentile_exact (distribution : list Z) (userValue : Z) : Z :=
  if (length (remaining distribution) =? 0)%nat || (userValue =? 0) then 0
  else round_half_away (rank distribution userValue).

(** A rank exactly halfway between two integers. *)
Definition tie (q : Q) : Prop := (q - inject_Z (Qfloor q) == 1 # 2)%Q.

(** [p] is the percentile rank of the user value among the values, or one
    less at a tie. *)
Definition ranks (p : Z) (values : list Z) (userValue : Z) : Prop :=
  p = percentile_exact values userValue
  ∨ (tie (rank values userValue) ∧ p = percentile_exact values userValue - 1).

(** A commit whose author email, lower-cased, equals the lower-cased
    identity. *)
Definition email_matches (lower : string → string) (identity : string) (commit : Commit)
  : bool :=
  match commit_author commit with
  | Some author =>
      match author_email author with
      | Some email => String.eqb (lower email) (lower identity)
      | None => false
      end
  | None => false
  end.

Definition has_author_email (commit : Commit) : Prop :=
  ∃ author email, commit_author commit = Some author ∧ author_email author = Some email.

(** One synthetic value: [floor(U1 * A) + floor(U2 * U3 * B)]. *)
Definition synthetic_value (a b : Z) (u1 u2 u3 : Q) : Z :=
  Math_floor (num_mul u1 (inject_Z a)) + Math_floor (num_mul (num_mul u2 u3) (inject_Z b)).

(** Fifty synthetic values, the i-th from the three draws that follow the
    first [start + 3 i] draws of the random source. *)
Definition synthetic_distribution (env : Env) (a b : Z) (start : nat) : list Z :=
  map (λ i, synthetic_value a b (Math_random env (start + 3 * i))
                                (Math_random env (start + 3 * i + 1))
                                (Math_random env (start + 3 * i + 2)))
      (seq 0 50).

(** A project's contribution when it is synthetic throughout: 50 commit
    values, 50 pull-request values and 50 work-item values from the 450
    draws that follow the first [start] draws. *)
Definition synthetic_stats (env : Env) (start : nat) : OrgStats :=
  {| os_commits := Num <$> synthetic_distribution env 20 50 start;
     os_prs := Num <$> synthetic_distribution env 10 25 (start + 150);
     os_workItems := Num <$> synthetic_distribution env 15 30 (start + 300) |}.

(** A call that raised, and the records of a call (none when it raised). *)
Definition raises {A} (result : Result A) : Prop := ∃ e, result = Thrown e.

Definition records {T} (result : Result (list T)) : list T :=
  match result with
  | Returned items => items
  | Thrown _ => []
  end.

(** What the two calls for the i-th sampled repository of a project give,
    when [first] calls were made before the sampling of the repositories
    began and every call in between was made: the commit call is call
    number [2 i + first], the pull-request call the one after it. *)
Definition commitsAnswer (env : Env) (this : Analyzer) (project : Project)
    (since : string) (headers : list (string * string)) (first i : nat)
    (repo : Repository) : Result (list Commit) :=
  fetched (remote_commits env (2 * i + first)
             (commitsRequest this (project_id project) (repo_id repo) since headers)).

Definition pullRequestsAnswer (env : Env) (this : Analyzer) (project : Project)
    (headers : list (string * string)) (first i : nat) (repo : Repository)
  : Result (list PullRequest) :=
  fetched (remote_pullrequests env (2 * i + 1 + first)
             (pullRequestsRequest this (project_id project) (repo_id repo) headers)).

(** The live counts of the sampled repositories: for each repository in
    turn, the commit counts by author and the pull-request counts by
    creator of the records its two calls gave. *)
Definition liveCommitCounts (env : Env) (this : Analyzer) (project : Project)
    (since : string) (headers : list (string * string)) (first : nat)
    (repos : list Repository) : list Count :=
  concat (imap (λ i repo,
            Object_values (groupCommitsByUser
              (records (commitsAnswer env this project since headers first i repo))))
          repos).

Definition livePRCounts (env : Env) (this : Analyzer) (project : Project)
    (headers : list (string * string)) (first : nat) (repos : list Repository)
  : list Count :=
  concat (imap (λ i repo,
            Object_values (groupPRsByUser
              (records (pullRequestsAnswer env this project headers first i repo))))
          repos).

(** The number of entries of a repository table with commits or pull
    requests. *)
Definition countActiveEntries (stats : gmap string RepoStat) : Z :=
  Z.of_nat (size (filter (λ entry, 0 < rs_commits entry.2 ∨ 0 < rs_prs entry.2) stats)).

(** The repository keys a project recorded, and: no key is recorded by two
    projects of a snapshot. *)
Definition repoKeys (entry : ProjectEntry) : list string :=
  (map_to_list (pm_repoStats (pe_metrics entry))).*1.

Definition keys_unique (entries : list ProjectEntry) : Prop :=
  NoDup (concat (map repoKeys entries)).

(** The world after [n] more draws, after one more call, after a log line
    and after a warning. *)
Definition after_draws (n : nat) (w : World) : World :=
  {| fetches := fetches w; draws := (draws w + n)%nat; console := console w |}.

Definition after_fetch (w : World) : World :=
  {| fetches := S (fetches w); draws := draws w; console := console w |}.

Definition after_log (text : string) (w : World) : World :=
  {| fetches := fetches w; draws := draws w; console := console w ++ [Log text] |}.

Definition after_warn (text : string) (error : Error) (w : World) : World :=
  {| fetches := fetches w; draws := draws w;
     console := console w ++ [Warn text error] |}.

(** The world in which [fetchAllMetrics] calls [getProjects]. *)
Definition before_projects (this : Analyzer) (w : World) : World :=
  after_log ("Base URL: " +:+ baseUrl this)
    (after_log "Current project:"
       (after_log ("Using organization: " +:+ organization this) w)).

(** What the loop of [fetchAllMetrics] keeps true of the snapshot under
    construction when no repository key is recorded twice: the counter is
    the size of the table, every entry of the table is active, every key of
    the table was recorded by a project, and every active entry a project
    recorded is in the table. *)
Definition snapshot_inv (metrics : Metrics) : Prop :=
  activeRepos metrics = Z.of_nat (size (repoStats metrics))
  ∧ map_Forall (λ _ stats, isActive stats = true) (repoStats metrics)
  ∧ (∀ key, is_Some (repoStats metrics !! key) →
            key ∈ concat (map repoKeys (projects metrics)))
  ∧ (∀ entry key stats,
        entry ∈ projects metrics →
        pm_repoStats (pe_metrics entry) !! key = Some stats →
        isActive stats = true →
        repoStats metrics !! key = Some stats).

(** A name without the separator of the repository keys. *)
Fixpoint no_slash (s : string) : bool :=
  match s with
  | EmptyString => true
  | String c rest => negb (Ascii.eqb c "/"%char) && no_slash rest
  end.

(** The keys a project records start with its name and the separator. *)
Definition keys_of_project (name : string) (pm : ProjectMetrics) : Prop :=
  ∀ key stats, pm_repoStats pm !! key = Some stats → ∃ repo, key = name +:+ "/" +:+ repo.

(** A remote call that failed with a status outside 2xx, and one that made
    the caller's [await] raise. *)
Definition non_2xx {T} (outcome : FetchOutcome T) : Prop :=
  ∃ r, outcome = Responded r ∧ resp_ok r = false.

Definition rejects {T} (outcome : FetchOutcome T) (e : Error) : Prop :=
  outcome = NetworkError e
  ∨ ∃ r, outcome = Responded r ∧ resp_ok r = true ∧ resp_body r = Malformed e.

(** ** Sample runs *)

Module Sample.

Definition ascii_lower (c : ascii) : ascii :=
  let n := nat_of_ascii c in
  if (65 <=? n)%nat && (n <=? 90)%nat then ascii_of_nat (n + 32) else c.

Fixpoint lower (s : string) : string :=
  match s with
  | EmptyString => EmptyString
  | String c rest => String (ascii_lower c) (lower rest)
  end.

Definition ok_with {T} (items : list T) : FetchOutcome T :=
  Responded {| resp_ok := true; resp_statusText := "OK"; resp_body := Parsed (Some items) |}.

Definition status {T} (text : string) : FetchOutcome T :=
  Responded {| resp_ok := false; resp_statusText := text; resp_body := Parsed None |}.

Definition offline {T} : FetchOutcome T := NetworkError (MkError "Failed to fetch").

Definition this : Analyzer :=
  {| organization := "org"; baseUrl := "https://dev.azure.com/org/" |}.

Definition world0 : World := {| fetches := 0; draws := 0; console := [] |}.

(** Texts are held in UTF-8, where a character above U+00FF shows as a
    byte from 196 on. *)
Fixpoint latin1 (s : string) : bool :=
  match s with
  | EmptyString => true
  | String c rest => (nat_of_ascii c <? 196)%nat && latin1 rest
  end.

(** An organization that answers every call with an empty list; the
    random source gives 1/2, 1/4, 3/4, 1/2, ...; lookbacks of more than
    100000000 days lead out of the range of dates. *)
Definition quiet : Env :=
  {| btoa := λ s, if latin1 s then Returned s
                  else Thrown (MkError "Invalid character");
     toLowerCase := lower;
     JSON_stringify_query := λ q, q;
     sinceDate_toISOString := λ daysBack,
       if 100000000 <? Z.abs daysBack then Thrown (MkError "Invalid time value")
       else if daysBack =? 30 then Returned "2025-06-01T00:00:00.000Z"
            else Returned "2025-04-02T00:00:00.000Z";
     Math_random := λ n, match (n mod 3)%nat with
                         | O => (1 # 2)%Q | 1%nat => (1 # 4)%Q | _ => (3 # 4)%Q end;
     remote_projects := λ _ _, ok_with [];
     remote_repositories := λ _ _, ok_with [];
     remote_commits := λ _ _, ok_with [];
     remote_pullrequests := λ _ _, ok_with [];
     remote_wiql := λ _ _, ok_with [] |}.

Definition with_remote (projects : nat → FetchOutcome Project)
    (repositories : nat → FetchOutcome Repository)
    (commits : nat → FetchOutcome Commit)
    (pullrequests : nat → FetchOutcome PullRequest)
    (wiql : nat → FetchOutcome WorkItem) : Env :=
  {| btoa := btoa quiet; toLowerCase := toLowerCase quiet;
     JSON_stringify_query := JSON_stringify_query quiet;
     sinceDate_toISOString := sinceDate_toISOString quiet;
     Math_random := Math_random quiet;
     remote_projects := λ n _, projects n;
     remote_repositories := λ n _, repositories n;
     remote_commits := λ n _, commits n;
     remote_pullrequests := λ n _, pullrequests n;
     remote_wiql := λ n _, wiql n |}.

Definition proj : Project := {| project_id := "p1"; project_name := "Proj" |}.
Definition repoA : Repository := {| repo_id := "r1"; repo_name := "A" |}.
Definition repoB : Repository := {| repo_id := "r2"; repo_name := "B" |}.

Definition commit_by (email : string) : Commit :=
  {| commit_author := Some {| author_email := Some email |} |}.
Definition pr_by (name : string) : PullRequest :=
  {| pr_createdBy := Some {| uniqueName := Some name |} |}.

Definition user : option string := Some "user@x.com".

(** One project with repositories A and B. A has two commits by the user
    and one pull request; the commit call for B (the fourth call) fails
    with a network error. *)
Definition second_repo_offline : Env :=
  with_remote (λ _, ok_with [proj]) (λ _, ok_with [repoA; repoB])
    (λ n, if (n =? 1)%nat then ok_with [commit_by "User@X.com"; commit_by "user@x.com"]
          else offline)
    (λ _, ok_with [pr_by "user@x.com"])
    (λ _, ok_with []).

(** One project with repository A; the commit call answers 500, the
    pull-request call gives two pull requests of one creator. *)
Definition commits_unavailable : Env :=
  with_remote (λ _, ok_with [proj]) (λ _, ok_with [repoA])
    (λ _, status "Internal Server Error")
    (λ _, ok_with [pr_by "a@x.com"; pr_by "a@x.com"])
    (λ _, ok_with []).

(** The project-list call answers 401. *)
Definition unauthorized : Env :=
  with_remote (λ _, status "Unauthorized") (λ _, ok_with []) (λ _, ok_with [])
    (λ _, ok_with []) (λ _, ok_with []).

(** The end-to-end scenario of the specification: one project, two
    repositories; A has three commits by the user, two by others and one
    pull request; B has no activity. *)
Definition scenario : Env :=
  with_remote (λ _, ok_with [proj]) (λ _, ok_with [repoA; repoB])
    (λ n, if (n =? 2)%nat || (n =? 8)%nat
          then ok_with [commit_by "user@x.com"; commit_by "other@x.com";
                        commit_by "user@x.com"; commit_by "third@x.com";
                        commit_by "USER@x.com"]
          else ok_with [])
    (λ n, if (n =? 3)%nat || (n =? 9)%nat then ok_with [pr_by "user@x.com"]
          else ok_with [])
    (λ _, ok_with []).

(** Two projects of one name, each with a repository A that has one
    commit. *)
Definition namesakes : Env :=
  with_remote (λ _, ok_with [proj; {| project_id := "p2"; project_name := "Proj" |}])
    (λ _, ok_with [repoA])
    (λ _, ok_with [commit_by "user@x.com"])
    (λ _, ok_with [])
    (λ _, ok_with []).

Definition three_commits : list Commit :=
  [commit_by "User@X.com"; {| commit_author := None |}; commit_by "other@x.com"].

Definition scenario_run : Result Metrics * World :=
  fetchAllMetrics scenario this 90 user "token" world0.

Definition scenario_snapshot : Metrics :=
  match scenario_run.1 with
  | Returned metrics => metrics
  | Thrown _ => emptyMetrics
  end.

(** No call gets through. *)
Definition no_network : Env :=
  with_remote (λ _, offline) (λ _, offline) (λ _, offline) (λ _, offline) (λ _, offline).

(** The project-list call answers 200 with a body that has no [value]. *)
Definition no_value : Env :=
  with_remote (λ _, Responded {| resp_ok := true; resp_statusText := "OK";
                                 resp_body := Parsed None |})
    (λ _, ok_with []) (λ _, ok_with []) (λ _, ok_with []) (λ _, ok_with []).

(** The quiet organization, asked later on the same day. *)
Definition evening : Env :=
  {| btoa := btoa quiet; toLowerCase := toLowerCase quiet;
     JSON_stringify_query := JSON_stringify_query quiet;
     sinceDate_toISOString := λ daysBack,
       if 100000000 <? Z.abs daysBack then Thrown (MkError "Invalid time value")
       else if daysBack =? 30 then Returned "2025-06-01T17:30:00.000Z"
            else Returned "2025-04-02T17:30:00.000Z";
     Math_random := Math_random quiet;
     remote_projects := remote_projects quiet;
     remote_repositories := remote_repositories quiet;
     remote_commits := remote_commits quiet;
     remote_pullrequests := remote_pullrequests quiet;
     remote_wiql := remote_wiql quiet |}.

Definition one_to_ten : list Z := [1; 2; 3; 4; 5; 6; 7; 8; 9; 10].


End Sample.

(** ** Further definitions: grouping, totals, environments *)

(** The key under which [groupCommitsByUser] counts a commit:
    [commit.author?.email || 'unknown']. *)
Definition authorKey (commit : Commit) : string :=
  match commit_author commit with
  | Some author => if truthy (author_email author)
                   then default "unknown" (author_email author) else "unknown"
  | None => "unknown"
  end.

(** The key under which [groupPRsByUser] counts a pull request:
    [pr.createdBy?.uniqueName || 'unknown']. *)
Definition creatorKey (pr : PullRequest) : string :=
  match pr_createdBy pr with
  | Some creator => if truthy (uniqueName creator)
                    then default "unknown" (uniqueName creator) else "unknown"
  | None => "unknown"
  end.

(** The value the object holds itself under a key, if any. *)
Fixpoint countOf (email : string) (userCounts : list (string * Count)) : option Count :=
  match userCounts with
  | [] => None
  | (key, value) :: rest => if String.eqb key email then Some value else countOf email rest
  end.

(** The names every object answers for without holding them itself; a
    counting object counts only under other keys. *)
Definition inherited_property_names : list string := "__proto__" :: native_functions.

Definition plain_key (key : string) : Prop := key ∉ inherited_property_names.

Definition sum_counts (counts : list Z) : Z := foldr Z.add 0 counts.

(** How many of the keys are a given one. *)
Definition occurrences (key : string) (keys : list string) : Z :=
  Z.of_nat (length (List.filter (String.eqb key) keys)).

(** An environment with another work-item endpoint. *)
Definition with_wiql (env : Env) (wiql : nat → Request → FetchOutcome WorkItem) : Env :=
  {| btoa := btoa env; toLowerCase := toLowerCase env;
     JSON_stringify_query := JSON_stringify_query env;
     sinceDate_toISOString := sinceDate_toISOString env;
     Math_random := Math_random env;
     remote_projects := remote_projects env;
     remote_repositories := remote_repositories env;
     remote_commits := remote_commits env;
     remote_pullrequests := remote_pullrequests env;
     remote_wiql := wiql |}.

(** Two project results that agree on the pull requests: the same total
    and the same pull-request count under every repository key. *)
Definition same_prs (pm1 pm2 : ProjectMetrics) : Prop :=
  pm_prs pm1 = pm_prs pm2
  ∧ rs_prs <$> pm_repoStats pm1 = rs_prs <$> pm_repoStats pm2.

(** A text without the letter that ends the date part of a timestamp. *)
Fixpoint no_T (s : string) : bool :=
  match s with
  | EmptyString => true
  | String c rest => negb (Ascii.eqb c "T"%char) && no_T rest
  end.

(** The largest binary64 number below 1. *)
Definition below_one : Q := (1 - pow2 (-53))%Q.

(** ** The page: display, export and the analysis entry point *)

(** The elements of the page the program reads and writes: the three form
    fields, the [style.display] of the three sections and of the export
    button, and the texts it fills in. *)
Record Page := {
  daysBack_value : string;
  userFilter_value : string;
  patToken_value : string;
  loadingSection_display : string;
  resultsSection_display : string;
  errorSection_display : string;
  exportBtn_display : string;
  errorMessage_text : string;
  totalCommits_html : string;
  totalPRs_html : string;
  totalWorkItems_html : string;
  activeRepos_text : string;
  detailsTable_html : string;
  timestamp_text : string
}.

Record Summary := {
  summary_totalCommits : Z;
  summary_totalPRs : Z;
  summary_totalWorkItems : Z;
  summary_activeRepos : Z
}.

(** The object [exportData] serializes. *)
Record ExportData := {
  export_generatedOn : string;
  export_organization : string;
  export_metrics : Metrics;
  export_summary : Summary
}.

(** A file handed to the user: the [download] name of the link and the
    text of the blob. *)
Record Download := { download_name : string; download_text : string }.

(** What the browser provides. [parseInt] of a field that does not start
    with an integer ([NaN]) is outside the model. The clock is read by
    [new Date()]; the n-th reading gives [Date_toISOString n] and
    [Date_toLocaleString n]. [Object_entries] is the enumeration of a
    repository table in the order its keys were first written. *)
Record Browser := {
  trim : string → string;
  parseInt : string → Z;
  Number_toLocaleString : Z → string;
  Date_toISOString : nat → string;
  Date_toLocaleString : nat → string;
  JSON_stringify_export : ExportData → string;
  Object_entries : gmap string RepoStat → list (string * RepoStat)
}.

(** The state of the page and of the analyzer between two events. *)
Record Session := {
  page : Page;
  metricsData : option Metrics;
  clock : nat;
  console_errors : list (string * Error);
  downloads : list Download
}.

Definition Error_message (error : Error) : string :=
  match error with MkError message => message end.

Definition dquote : string := String (ascii_of_nat 34) EmptyString.

Definition setPage (f : Page → Page) (session : Session) : Session :=
  {| page := f (page session); metricsData := metricsData session;
     clock := clock session; console_errors := console_errors session;
     downloads := downloads session |}.

Definition setMetricsData (metrics : Metrics) (session : Session) : Session :=
  {| page := page session; metricsData := Some metrics;
     clock := clock session; console_errors := console_errors session;
     downloads := downloads session |}.

Definition tick (session : Session) : Session :=
  {| page := page session; metricsData := metricsData session;
     clock := S (clock session); console_errors := console_errors session;
     downloads := downloads session |}.

Definition console_error (text : string) (error : Error) (session : Session) : Session :=
  {| page := page session; metricsData := metricsData session;
     clock := clock session;
     console_errors := console_errors session ++ [(text, error)];
     downloads := downloads session |}.

Definition addDownload (file : Download) (session : Session) : Session :=
  {| page := page session; metricsData := metricsData session;
     clock := clock session; console_errors := console_errors session;
     downloads := downloads session ++ [file] |}.

Definition showLoading (p : Page) : Page :=
  {| daysBack_value := daysBack_value p; userFilter_value := userFilter_value p;
     patToken_value := patToken_value p;
     loadingSection_display := "block";
     resultsSection_display := "none";
     errorSection_display := "none";
     exportBtn_display := "none";
     errorMessage_text := errorMessage_text p;
     totalCommits_html := totalCommits_html p; totalPRs_html := totalPRs_html p;
     totalWorkItems_html := totalWorkItems_html p; activeRepos_text := activeRepos_text p;
     detailsTable_html := detailsTable_html p; timestamp_text := timestamp_text p |}.

Definition showError (message : string) (p : Page) : Page :=
  {| daysBack_value := daysBack_value p; userFilter_value := userFilter_value p;
     patToken_value := patToken_value p;
     loadingSection_display := "none";
     resultsSection_display := "none";
     errorSection_display := "block";
     exportBtn_display := exportBtn_display p;
     errorMessage_text := message;
     totalCommits_html := totalCommits_html p; totalPRs_html := totalPRs_html p;
     totalWorkItems_html := totalWorkItems_html p; activeRepos_text := activeRepos_text p;
     detailsTable_html := detailsTable_html p; timestamp_text := timestamp_text p |}.

Definition activity (stats : RepoStat) : Z := rs_commits stats + rs_prs stats.

(** [entries.sort(([,a], [,b]) => (b.commits + b.prs) - (a.commits + a.prs))]:
    the entries by decreasing activity, entries of equal activity staying
    in their order (the sort of an array is stable). *)
Fixpoint insertByActivity (entry : string * RepoStat) (sorted : list (string * RepoStat))
  : list (string * RepoStat) :=
  match sorted with
  | [] => [entry]
  | other :: rest =>
      if activity entry.2 <? activity other.2
      then other :: insertByActivity entry rest
      else entry :: other :: rest
  end.

Definition sortByActivity (entries : list (string * RepoStat))
  : list (string * RepoStat) :=
  foldr insertByActivity [] entries.

(** [displayRepoBreakdown]: the entries that get an item in the table. *)
Definition shownRepos (entries : list (string * RepoStat)) : list (string * RepoStat) :=
  List.filter (λ entry, (0 <? rs_commits entry.2) || (0 <? rs_prs entry.2))
              (take 20 (sortByActivity entries)).

Definition repoItemHtml (entry : string * RepoStat) : string :=
  newline +:+ "                <div class=" +:+ dquote +:+ "repo-item" +:+ dquote +:+ ">"
  +:+ newline +:+ "                    <div class=" +:+ dquote +:+ "repo-name" +:+ dquote
  +:+ ">" +:+ entry.1 +:+ "</div>"
  +:+ newline +:+ "                    <div class=" +:+ dquote +:+ "repo-stats" +:+ dquote
  +:+ ">" +:+ pretty (rs_commits entry.2) +:+ " commits, " +:+ pretty (rs_prs entry.2)
  +:+ " PRs</div>"
  +:+ newline +:+ "                </div>"
  +:+ newline +:+ "            ".

Definition metricCardHtml (total : string) (percentileShown : Z) : string :=
  newline +:+ "            " +:+ total
  +:+ newline +:+ "            <div class=" +:+ dquote +:+ "percentile" +:+ dquote +:+ ">"
  +:+ pretty percentileShown +:+ "th percentile</div>"
  +:+ newline +:+ "        ".

Section Page.
Context (browser : Browser).

Definition displayRepoBreakdown (table : gmap string RepoStat) (p : Page) : Page :=
  {| daysBack_value := daysBack_value p; userFilter_value := userFilter_value p;
     patToken_value := patToken_value p;
     loadingSection_display := loadingSection_display p;
     resultsSection_display := resultsSection_display p;
     errorSection_display := errorSection_display p;
     exportBtn_display := exportBtn_display p;
     errorMessage_text := errorMessage_text p;
     totalCommits_html := totalCommits_html p; totalPRs_html := totalPRs_html p;
     totalWorkItems_html := totalWorkItems_html p; activeRepos_text := activeRepos_text p;
     detailsTable_html :=
       String.concat EmptyString
         (map repoItemHtml (shownRepos (Object_entries browser table)));
     timestamp_text := timestamp_text p |}.

(** [displayResults]; [now] is the reading of the clock it makes. The
    percentile shown is [metrics.percentiles?.x || 0]. *)
Definition displayResults (metrics : Metrics) (daysBack : Z) (userEmail : option string)
    (now : nat) (p : Page) : Page :=
  let commitsPercentile := default 0 (pc_commits <$> percentiles metrics) in
  let prsPercentile := default 0 (pc_prs <$> percentiles metrics) in
  let workItemsPercentile := default 0 (pc_workItems <$> percentiles metrics) in
  let p1 := displayRepoBreakdown (repoStats metrics) p in
  {| daysBack_value := daysBack_value p; userFilter_value := userFilter_value p;
     patToken_value := patToken_value p;
     loadingSection_display := "none";
     resultsSection_display := "block";
     errorSection_display := "none";
     exportBtn_display := "inline-block";
     errorMessage_text := errorMessage_text p;
     totalCommits_html :=
       metricCardHtml (Number_toLocaleString browser (totalCommits metrics))
                      commitsPercentile;
     totalPRs_html :=
       metricCardHtml (Number_toLocaleString browser (totalPRs metrics)) prsPercentile;
     totalWorkItems_html :=
       metricCardHtml (Number_toLocaleString browser (totalWorkItems metrics))
                      workItemsPercentile;
     activeRepos_text := Number_toLocaleString browser (activeRepos metrics);
     detailsTable_html := detailsTable_html p1;
     timestamp_text := Date_toLocaleString browser now |}.

(** [exportData]: nothing without a stored snapshot; otherwise the clock is
    read twice (for [generatedOn] and for the file name) and one file is
    handed to the user. *)
Definition exportData (this : Analyzer) (session : Session) : Session :=
  match metricsData session with
  | None => session
  | Some metrics =>
      let exported :=
        {| export_generatedOn := Date_toISOString browser (clock session);
           export_organization := organization this;
           export_metrics := metrics;
           export_summary :=
             {| summary_totalCommits := totalCommits metrics;
                summary_totalPRs := totalPRs metrics;
                summary_totalWorkItems := totalWorkItems metrics;
                summary_activeRepos := activeRepos metrics |} |} in
      let name := "devops-metrics-"
                  +:+ split_T_0 (Date_toISOString browser (S (clock session)))
                  +:+ ".json" in
      addDownload {| download_name := name;
                     download_text := JSON_stringify_export browser exported |}
                  (tick (tick session))
  end.

(** [analyzeMetrics], the handler of the Analyze button, run to completion:
    no other event of the page is interleaved at its [await]. *)
Definition analyzeMetrics (env : Env) (this : Analyzer) : M (Session * World) () :=
  λ s,
    let daysBack := parseInt browser (daysBack_value (page s.1)) in
    let userEmail :=
      let trimmed := trim browser (userFilter_value (page s.1)) in
      if truthy (Some trimmed) then Some trimmed else None in
    let patToken := trim browser (patToken_value (page s.1)) in
    if negb (truthy (Some patToken))
    then update (setPage (showError
           "Personal Access Token is required for API access. Please enter your PAT.")) s
    else
      (let* _ := update (setPage showLoading) in
       try_catch
         (let* metrics := lift (fetchAllMetrics env this daysBack userEmail patToken) in
          let* _ := update (λ session,
                      setPage (displayResults metrics daysBack userEmail (clock session))
                              (tick session)) in
          update (setMetricsData metrics))
         (λ error,
            let* _ := update (console_error "Error analyzing metrics:" error) in
            update (setPage (showError (Error_message error))))) s.

End Page.

(** What every event keeps true of a session: while the export button is
    shown, there is a snapshot to export. *)
Definition export_ready (session : Session) : Prop :=
  exportBtn_display (page session) ≠ "none" → is_Some (metricsData session).

(** The entries of a table, in any order. *)
Definition enumerates (browser : Browser) (table : gmap string RepoStat) : Prop :=
  Object_entries browser table ≡ₚ map_to_list table.

(** A list in the order of the breakdown: no entry is followed by one of
    greater activity. *)
Definition descending : relation (string * RepoStat) :=
  λ entry later, activity later.2 ≤ activity entry.2.

(** Counts, as the analysis records them. *)
Definition counts_nonneg (entries : list (string * RepoStat)) : Prop :=
  Forall (λ entry, 0 ≤ rs_commits entry.2 ∧ 0 ≤ rs_prs entry.2) entries.

(** The arguments [analyzeMetrics] reads off the form. *)
Definition form_daysBack (browser : Browser) (p : Page) : Z :=
  parseInt browser (daysBack_value p).

Definition form_userEmail (browser : Browser) (p : Page) : option string :=
  if truthy (Some (trim browser (userFilter_value p)))
  then Some (trim browser (userFilter_value p)) else None.

Definition form_token (browser : Browser) (p : Page) : string :=
  trim browser (patToken_value p).

Module SamplePage.

(** A browser for fields filled in without surrounding white space. *)
Definition browser : Browser :=
  {| trim := λ text, text;
     parseInt := λ text, if String.eqb text "30" then 30 else 90;
     Number_toLocaleString := pretty;
     Date_toISOString := λ n, "2025-06-01T10:00:0" +:+ pretty n +:+ ".000Z";
     Date_toLocaleString := λ n, "6/1/2025, 10:00:0" +:+ pretty n +:+ " AM";
     JSON_stringify_export := λ exported, export_generatedOn exported;
     Object_entries := map_to_list |}.

(** The page as loaded, the form filled in by the user of the scenario. *)
Definition page0 (token : string) : Page :=
  {| daysBack_value := "90"; userFilter_value := "user@x.com";
     patToken_value := token;
     loadingSection_display := "none"; resultsSection_display := "none";
     errorSection_display := "none"; exportBtn_display := "none";
     errorMessage_text := EmptyString;
     totalCommits_html := "0"; totalPRs_html := "0"; totalWorkItems_html := "0";
     activeRepos_text := "0"; detailsTable_html := EmptyString;
     timestamp_text := EmptyString |}.

Definition session0 (token : string) : Session :=
  {| page := page0 token; metricsData := None; clock := 0;
     console_errors := []; downloads := [] |}.

Definition stat (commits prs : Z) : RepoStat :=
  {| rs_commits := commits; rs_prs := prs; rs_projectId := "p1"; rs_repoId := "r" |}.

(** Three repositories, the second without activity. *)
Definition three_repos : list (string * RepoStat) :=
  [("Proj/A", stat 2 1); ("Proj/B", stat 0 0); ("Proj/C", stat 4 3)].

End SamplePage.

(** * Proofs *)

(** ** Binary64 rounding is monotone *)

Section Rounding.
  Local Open Scope Q_scope.

Lemma pow2_pos e : 0 < pow2 e.
Proof. unfold pow2. apply Qpower_0_lt. reflexivity. Qed.

Lemma pow2_add a b : pow2 (a + b) == pow2 a * pow2 b.
Proof. unfold pow2. apply Qpower_plus. discriminate. Qed.

Lemma pow2_le a b : (a <= b)%Z -> pow2 a <= pow2 b.
Proof. intros H. unfold pow2. apply Qpower_le_compat_l; [exact H | discriminate]. Qed.

Lemma pow2_succ a : pow2 (a + 1) == 2 * pow2 a.
Proof. rewrite pow2_add. unfold pow2 at 2. simpl. ring. Qed.

Lemma pow2_inject a : (0 <= a)%Z -> inject_Z (2 ^ a) == pow2 a.
Proof. intros H. unfold pow2. rewrite Zpower_Qpower by exact H. reflexivity. Qed.

Lemma ilog2_bounds x : 0 < x -> pow2 (ilog2 x) <= x /\ x < pow2 (ilog2 x + 1).
Proof.
  intros Hx. destruct x as [n d]. unfold ilog2. cbn [Qnum Qden].
  assert (Hn : (0 < n)%Z) by (unfold Qlt in Hx; simpl in Hx; lia).
  set (a := Z.log2 n). set (b := Z.log2 (Z.pos d)).
  assert (Ha := Z.log2_spec n Hn). assert (Hb := Z.log2_spec (Z.pos d) (Pos2Z.is_pos d)).
  fold a in Ha. fold b in Hb.
  assert (Ha0 : (0 <= a)%Z) by apply Z.log2_nonneg.
  assert (Hb0 : (0 <= b)%Z) by apply Z.log2_nonneg.
  assert (HA : pow2 a <= inject_Z n /\ inject_Z n < 2 * pow2 a).
  { rewrite <- pow2_succ, <- !pow2_inject by lia. rewrite <- Zle_Qle, <- Zlt_Qlt.
    replace (Z.succ a) with (a + 1)%Z in Ha by lia. lia. }
  assert (HB : pow2 b <= inject_Z (Z.pos d) /\ inject_Z (Z.pos d) < 2 * pow2 b).
  { rewrite <- pow2_succ, <- !pow2_inject by lia. rewrite <- Zle_Qle, <- Zlt_Qlt.
    replace (Z.succ b) with (b + 1)%Z in Hb by lia. lia. }
  assert (HP : pow2 (a - b) * pow2 b == pow2 a).
  { rewrite <- pow2_add. replace (a - b + b)%Z with a by lia. reflexivity. }
  assert (Hx' : (n # d) * inject_Z (Z.pos d) == inject_Z n).
  { unfold Qeq, Qmult, inject_Z. simpl. lia. }
  assert (HPp := pow2_pos (a - b)). assert (HBp := pow2_pos b).
  set (P := pow2 (a - b)) in *. set (B := pow2 b) in *. set (A := pow2 a) in *.
  set (N := inject_Z n) in *. set (D := inject_Z (Z.pos d)) in *. set (x := n # d) in *.
  assert (Hlo : P < 2 * x) by nra.
  assert (Hhi : x < 2 * P) by nra.
  destruct (Qle_bool P x) eqn:E.
  - apply Qle_bool_iff in E. split; [exact E|]. rewrite pow2_succ. exact Hhi.
  - assert (E' : ~ P <= x) by (rewrite <- Qle_bool_iff; congruence).
    replace (a - b - 1 + 1)%Z with (a - b)%Z by lia. fold P.
    assert (P == 2 * pow2 (a - b - 1)).
    { rewrite <- pow2_succ. replace (a - b - 1 + 1)%Z with (a - b)%Z by lia. reflexivity. }
    split; lra.
Qed.

Lemma ilog2_mono x y : 0 < x -> x <= y -> (ilog2 x <= ilog2 y)%Z.
Proof.
  intros Hx Hxy.
  destruct (ilog2_bounds x Hx) as [Hx1 _].
  destruct (ilog2_bounds y) as [_ Hy2]; [lra|].
  destruct (Z_le_gt_dec (ilog2 x) (ilog2 y)) as [H|H]; [exact H|].
  assert (Hp := pow2_le (ilog2 y + 1) (ilog2 x) ltac:(lia)). lra.
Qed.

Lemma rne_inject (k : Z) : rne (inject_Z k) = k.
Proof.
  unfold rne. rewrite Qfloor_Z.
  assert (E : Qcompare (inject_Z k - inject_Z k) (1 # 2) = Lt).
  { rewrite <- Qlt_alt. lra. }
  rewrite E. reflexivity.
Qed.

Lemma rne_mono x y : x <= y -> (rne x <= rne y)%Z.
Proof.
  intros Hxy. assert (Hf := Qfloor_resp_le x y Hxy).
  assert (Hx1 := Qfloor_le x). assert (Hx2 := Qlt_floor x).
  assert (Hy1 := Qfloor_le y). assert (Hy2 := Qlt_floor y).
  assert (Lx : (Qfloor x <= rne x <= Qfloor x + 1)%Z).
  { unfold rne. destruct Qcompare; [destruct Z.even|..]; lia. }
  assert (Ly : (Qfloor y <= rne y <= Qfloor y + 1)%Z).
  { unfold rne. destruct Qcompare; [destruct Z.even|..]; lia. }
  destruct (Z.eq_dec (Qfloor x) (Qfloor y)) as [E|E]; [|lia].
  unfold rne. rewrite <- E.
  destruct (Qcompare (x - inject_Z (Qfloor x)) (1 # 2)) eqn:Cx;
    destruct (Qcompare (y - inject_Z (Qfloor x)) (1 # 2)) eqn:Cy;
    try (destruct (Z.even (Qfloor x))); try lia; exfalso;
    try (apply Qeq_alt in Cx); try (apply Qeq_alt in Cy);
    try (rewrite <- Qlt_alt in Cx); try (rewrite <- Qlt_alt in Cy);
    try (rewrite <- Qgt_alt in Cx); try (rewrite <- Qgt_alt in Cy); lra.
Qed.

Lemma round64_pos_mono x y : 0 < x -> x <= y -> round64_pos x <= round64_pos y.
Proof.
  intros Hx Hxy. assert (Hy : 0 < y) by lra.
  assert (He := ilog2_mono x y Hx Hxy).
  destruct (ilog2_bounds x Hx) as [Hx1 Hx2]. destruct (ilog2_bounds y Hy) as [Hy1 Hy2].
  unfold round64_pos.
  set (ex := Z.max (ilog2 x) (-1022)). set (ey := Z.max (ilog2 y) (-1022)).
  assert (Hpx := pow2_pos (52 - ex)). assert (Hpy := pow2_pos (52 - ey)).
  assert (Hqx := pow2_pos (ex - 52)). assert (Hqy := pow2_pos (ey - 52)).
  destruct (Z.eq_dec ex ey) as [E|E].
  - rewrite <- E. apply Qmult_le_compat_r; [|lra].
    rewrite <- Zle_Qle. apply rne_mono. apply Qmult_le_compat_r; lra.
  - assert (Hlt : (ex + 1 <= ey)%Z) by lia.
    assert (Hey : ey = ilog2 y) by lia.
    (* round64_pos x <= pow2 (ex + 1) <= pow2 ey <= round64_pos y *)
    apply Qle_trans with (pow2 (ex + 1)).
    + assert (Hm : (rne (x * pow2 (52 - ex)) <= 2 ^ 53)%Z).
      { rewrite <- (rne_inject (2 ^ 53)). apply rne_mono.
        rewrite pow2_inject by lia.
        assert (Hle := pow2_le (ilog2 x + 1) (ex + 1) ltac:(lia)).
        assert (Hs : pow2 53 == pow2 (ex + 1) * pow2 (52 - ex)).
        { rewrite <- pow2_add. replace (ex + 1 + (52 - ex))%Z with 53%Z by lia. reflexivity. }
        rewrite Hs. apply Qmult_le_compat_r; lra. }
      rewrite Zle_Qle in Hm. rewrite pow2_inject in Hm by lia.
      assert (Hs : pow2 (ex + 1) == pow2 53 * pow2 (ex - 52)).
      { rewrite <- pow2_add. replace (53 + (ex - 52))%Z with (ex + 1)%Z by lia. reflexivity. }
      rewrite Hs. apply Qmult_le_compat_r; lra.
    + apply Qle_trans with (pow2 ey); [apply pow2_le; lia|].
      assert (Hm : (2 ^ 52 <= rne (y * pow2 (52 - ey)))%Z).
      { rewrite <- (rne_inject (2 ^ 52)) at 1. apply rne_mono.
        rewrite pow2_inject by lia.
        assert (Hs : pow2 52 == pow2 ey * pow2 (52 - ey)).
        { rewrite <- pow2_add. replace (ey + (52 - ey))%Z with 52%Z by lia. reflexivity. }
        rewrite Hs. apply Qmult_le_compat_r; [|lra]. rewrite Hey. lra. }
      rewrite Zle_Qle in Hm. rewrite pow2_inject in Hm by lia.
      assert (Hs : pow2 ey == pow2 52 * pow2 (ey - 52)).
      { rewrite <- pow2_add. replace (52 + (ey - 52))%Z with ey by lia. reflexivity. }
      rewrite Hs at 1. apply Qmult_le_compat_r; lra.
Qed.

Lemma round64_pos_nonneg x : 0 <= x -> 0 <= round64_pos x.
Proof.
  intros Hx. unfold round64_pos. apply Qmult_le_0_compat; [|apply Qlt_le_weak, pow2_pos].
  replace 0 with (inject_Z 0) by reflexivity. rewrite <- Zle_Qle.
  rewrite <- (rne_inject 0). apply rne_mono.
  apply Qmult_le_0_compat; [exact Hx | apply Qlt_le_weak, pow2_pos].
Qed.

Lemma round64_mono x y : 0 <= x -> x <= y -> round64 x <= round64 y.
Proof.
  intros Hx Hxy. unfold round64.
  destruct (Qcompare x 0) eqn:Cx; destruct (Qcompare y 0) eqn:Cy;
    try (apply Qeq_alt in Cx); try (apply Qeq_alt in Cy);
    try (rewrite <- Qlt_alt in Cx); try (rewrite <- Qlt_alt in Cy);
    try (rewrite <- Qgt_alt in Cx); try (rewrite <- Qgt_alt in Cy);
    try lra.
  - apply round64_pos_nonneg. lra.
  - apply round64_pos_mono; lra.
Qed.

(** Rounding to the nearest integer moves a number by at most one half. *)
Lemma rne_error y : - (1 # 2) <= inject_Z (rne y) - y /\ inject_Z (rne y) - y <= 1 # 2.
Proof.
  assert (H1 := Qfloor_le y). assert (H2 := Qlt_floor y).
  rewrite inject_Z_plus in H2. change (inject_Z 1) with 1 in H2.
  unfold rne. destruct (Qcompare (y - inject_Z (Qfloor y)) (1 # 2)) eqn:C.
  - apply Qeq_alt in C.
    destruct (Z.even (Qfloor y)); rewrite ?inject_Z_plus; change (inject_Z 1) with 1; lra.
  - rewrite <- Qlt_alt in C. lra.
  - rewrite <- Qgt_alt in C. rewrite inject_Z_plus. change (inject_Z 1) with 1. lra.
Qed.

(** The error of binary64 rounding below [2^(E+1)] is at most half a unit
    in the last place, [2^(E-53)]. *)
Lemma round64_error x E :
  0 <= x -> x < pow2 (E + 1) -> (-1022 <= E)%Z ->
  - pow2 (E - 53) <= round64 x - x /\ round64 x - x <= pow2 (E - 53).
Proof.
  intros H0 Hx HE. assert (HpE := pow2_pos (E - 53)). unfold round64.
  destruct (Qcompare x 0) eqn:Cx.
  - apply Qeq_alt in Cx. lra.
  - rewrite <- Qlt_alt in Cx. lra.
  - rewrite <- Qgt_alt in Cx.
    destruct (ilog2_bounds x Cx) as [Hlo Hhi]. unfold round64_pos.
    set (e := Z.max (ilog2 x) (-1022)).
    assert (He : (e <= E)%Z).
    { destruct (Z_le_gt_dec (ilog2 x) E) as [H|H]; [lia|].
      assert (Hp := pow2_le (E + 1) (ilog2 x) ltac:(lia)). lra. }
    destruct (rne_error (x * pow2 (52 - e))) as [Hr1 Hr2].
    set (v := inject_Z (rne (x * pow2 (52 - e)))) in *.
    assert (Hone : pow2 (52 - e) * pow2 (e - 52) == 1).
    { rewrite <- pow2_add. replace (52 - e + (e - 52))%Z with 0%Z by lia. reflexivity. }
    assert (Hhalf : 2 * pow2 (e - 53) == pow2 (e - 52)).
    { rewrite <- pow2_succ. replace (e - 53 + 1)%Z with (e - 52)%Z by lia. reflexivity. }
    assert (Hle := pow2_le (e - 53) (E - 53) ltac:(lia)).
    assert (Hp1 := pow2_pos (52 - e)). assert (Hp2 := pow2_pos (e - 52)).
    assert (Hp3 := pow2_pos (e - 53)).
    set (P := pow2 (52 - e)) in *. set (U := pow2 (e - 52)) in *.
    set (h := pow2 (e - 53)) in *. set (B := pow2 (E - 53)) in *.
    assert (Hd : v * U - x == (v - x * P) * U) by (rewrite <- (Qmult_1_r x) at 1; rewrite <- Hone; ring).
    split; nra.
Qed.

Lemma round64_0 : round64 0 == 0.
Proof. reflexivity. Qed.
Lemma round64_1 : round64 1 == 1.
Proof. vm_compute. reflexivity. Qed.
Lemma round64_100 : round64 100 == 100.
Proof. vm_compute. reflexivity. Qed.

End Rounding.

(** ** The percentile engine *)

Lemma countLoop_sorted (sorted : list Z) (userValue count : Z) :
  StronglySorted Z.le sorted →
  countLoop sorted userValue count
  = count + Z.of_nat (length (List.filter (λ v, v <? userValue) sorted)).
Proof.
  intros Hs. revert count. induction Hs as [|value rest Hrest IH Hall]; intros count.
  - simpl. lia.
  - simpl. destruct (value <? userValue) eqn:E.
    + rewrite IH. simpl. lia.
    + assert (Hnone : List.filter (λ v, v <? userValue) rest = []).
      { clear IH Hrest. induction rest as [|v rest' IHr]; [reflexivity|].
        simpl. apply Forall_cons in Hall as [Hv Hall'].
        destruct (v <? userValue) eqn:Ev; [lia|]. apply IHr, Hall'. }
      rewrite Hnone. simpl. lia.
Qed.

Lemma filter_length_Permutation {A} (f : A → bool) (l1 l2 : list A) :
  l1 ≡ₚ l2 → length (List.filter f l1) = length (List.filter f l2).
Proof.
  induction 1 as [|x l1 l2 _ IH|x y l|l1 l2 l3 _ IH1 _ IH2]; simpl.
  - reflexivity.
  - destruct (f x); simpl; congruence.
  - destruct (f x), (f y); reflexivity.
  - congruence.
Qed.

Lemma filter_length_le {A} (f : A → bool) (l : list A) :
  (length (List.filter f l) ≤ length l)%nat.
Proof. induction l as [|x l IH]; simpl; [lia|]. destruct (f x); simpl; lia. Qed.

Lemma filter_length_mono {A} (f g : A → bool) (l : list A) :
  (∀ x, f x = true → g x = true) →
  (length (List.filter f l) ≤ length (List.filter g l))%nat.
Proof.
  intros Hfg. induction l as [|x l IH]; simpl; [lia|].
  destruct (f x) eqn:Ef.
  - rewrite (Hfg x Ef). simpl. lia.
  - destruct (g x); simpl; lia.
Qed.

(** The loop of [getPercentile] counts the values strictly below the
    user value, and the sort keeps the length. *)
Lemma getPercentile_count (values : list Z) (userValue : Z) :
  countLoop (merge_sort Z.le values) userValue 0
  = Z.of_nat (length (List.filter (λ v, v <? userValue) values))
  ∧ length (merge_sort Z.le values) = length values.
Proof.
  split.
  - rewrite countLoop_sorted by apply (StronglySorted_merge_sort Z.le).
    rewrite (filter_length_Permutation _ _ values) by apply merge_sort_Permutation.
    lia.
  - apply Permutation_length, merge_sort_Permutation.
Qed.

Lemma getPercentile_unfold (values : list Z) (userValue : Z) :
  values ≠ [] → userValue ≠ 0 →
  getPercentile values userValue
  = Math_round (num_mul (num_div
        (inject_Z (Z.of_nat (length (List.filter (λ v, v <? userValue) values))))
        (inject_Z (Z.of_nat (length values)))) 100).
Proof.
  intros Hv Hu. unfold getPercentile.
  destruct (getPercentile_count values userValue) as [-> ->].
  destruct values as [|v values]; [done|].
  apply Z.eqb_neq in Hu. rewrite Hu. reflexivity.
Qed.

Section Percentage.
Local Open Scope Q_scope.

Lemma ratio_bounds (count len : Z) :
  (0 ≤ count ≤ len)%Z → (0 < len)%Z →
  0 <= inject_Z count / inject_Z len ∧ inject_Z count / inject_Z len <= 1.
Proof.
  intros Hc Hl.
  assert (Hl' : 0 < inject_Z len) by (change 0 with (inject_Z 0); rewrite <- Zlt_Qlt; lia).
  assert (Hc0 : 0 <= inject_Z count) by (change 0 with (inject_Z 0); rewrite <- Zle_Qle; lia).
  assert (Hcl : inject_Z count <= inject_Z len) by (rewrite <- Zle_Qle; lia).
  split.
  - apply Qle_shift_div_l; [exact Hl'|]. lra.
  - apply Qle_shift_div_r; [exact Hl'|]. lra.
Qed.

Lemma ratio_mono (c1 c2 len : Z) :
  (c1 ≤ c2)%Z → (0 < len)%Z →
  inject_Z c1 / inject_Z len <= inject_Z c2 / inject_Z len.
Proof.
  intros Hc Hl.
  assert (Hl' : 0 < inject_Z len) by (change 0 with (inject_Z 0); rewrite <- Zlt_Qlt; lia).
  assert (Hcc : inject_Z c1 <= inject_Z c2) by (rewrite <- Zle_Qle; lia).
  unfold Qdiv. apply Qmult_le_compat_r; [exact Hcc|].
  apply Qlt_le_weak, Qinv_lt_0_compat, Hl'.
Qed.

Lemma round64_nonneg (x : Q) : 0 <= x → 0 <= round64 x.
Proof.
  intros Hx. apply Qle_trans with (round64 0); [rewrite round64_0; lra|].
  apply round64_mono; lra.
Qed.

Lemma round64_le_1 (x : Q) : 0 <= x → x <= 1 → round64 x <= 1.
Proof.
  intros H0 H1. apply Qle_trans with (round64 1); [|rewrite round64_1; lra].
  apply round64_mono; lra.
Qed.

Lemma round64_le_100 (x : Q) : 0 <= x → x <= 100 → round64 x <= 100.
Proof.
  intros H0 H1. apply Qle_trans with (round64 100); [|rewrite round64_100; lra].
  apply round64_mono; lra.
Qed.

Lemma percentage_bounds (count len : Z) :
  (0 ≤ count ≤ len)%Z → (0 < len)%Z →
  0 <= num_mul (num_div (inject_Z count) (inject_Z len)) 100
  ∧ num_mul (num_div (inject_Z count) (inject_Z len)) 100 <= 100.
Proof.
  intros Hc Hl. destruct (ratio_bounds count len Hc Hl) as [H0 H1].
  unfold num_mul, num_div.
  assert (Hr0 := round64_nonneg _ H0). assert (Hr1 := round64_le_1 _ H0 H1).
  split; [apply round64_nonneg | apply round64_le_100]; lra.
Qed.

Lemma percentage_mono (c1 c2 len : Z) :
  (0 ≤ c1 ≤ c2)%Z → (0 < len)%Z →
  num_mul (num_div (inject_Z c1) (inject_Z len)) 100
  <= num_mul (num_div (inject_Z c2) (inject_Z len)) 100.
Proof.
  intros Hc Hl. assert (Hm := ratio_mono c1 c2 len ltac:(lia) Hl).
  assert (H0 : 0 <= inject_Z c1 / inject_Z len).
  { apply Qle_shift_div_l.
    - change 0 with (inject_Z 0). rewrite <- Zlt_Qlt. lia.
    - rewrite Qmult_0_l. change 0 with (inject_Z 0). rewrite <- Zle_Qle. lia. }
  unfold num_mul, num_div.
  assert (Hr0 := round64_nonneg _ H0).
  assert (Hr := round64_mono _ _ H0 Hm).
  apply round64_mono; lra.
Qed.

Lemma Math_round_bounds (x : Q) : 0 <= x → x <= 100 → (0 ≤ Math_round x ≤ 100)%Z.
Proof.
  intros H0 H1. unfold Math_round. split.
  - rewrite <- (Qfloor_Z 0). apply Qfloor_resp_le. change (inject_Z 0) with 0. lra.
  - change 100%Z with (Qfloor (100 + (1 # 2))). apply Qfloor_resp_le. lra.
Qed.

Lemma Math_round_mono (x y : Q) : x <= y → (Math_round x ≤ Math_round y)%Z.
Proof. intros H. unfold Math_round. apply Qfloor_resp_le. lra. Qed.

Lemma round_half_away_nonneg (x : Q) : 0 <= x → round_half_away x = Math_round x.
Proof.
  intros H. unfold round_half_away, Math_round.
  apply Qle_bool_iff in H. rewrite H. reflexivity.
Qed.

Lemma inject_Z_sub (a b : Z) : inject_Z (a - b) == inject_Z a - inject_Z b.
Proof. unfold Z.sub. rewrite inject_Z_plus, inject_Z_opp. reflexivity. Qed.

Lemma Qfloor_unique (x : Q) (m : Z) :
  inject_Z m <= x → x < inject_Z m + 1 → Qfloor x = m.
Proof.
  intros H1 H2. assert (Hf1 := Qfloor_le x). assert (Hf2 := Qlt_floor x).
  rewrite inject_Z_plus in Hf2. change (inject_Z 1) with 1 in Hf2.
  assert (Ha : (Qfloor x < m + 1)%Z).
  { rewrite Zlt_Qlt, inject_Z_plus. change (inject_Z 1) with 1. lra. }
  assert (Hb : (m < Qfloor x + 1)%Z).
  { rewrite Zlt_Qlt, inject_Z_plus. change (inject_Z 1) with 1. lra. }
  lia.
Qed.

(** The binary64 value of [count / len * 100] is within [2^-45] of the
    rational one. *)
Lemma percentage_error (count len : Z) :
  (0 ≤ count ≤ len)%Z → (0 < len)%Z →
  - pow2 (-45) <= num_mul (num_div (inject_Z count) (inject_Z len)) 100
                  - inject_Z count / inject_Z len * 100
  ∧ num_mul (num_div (inject_Z count) (inject_Z len)) 100
    - inject_Z count / inject_Z len * 100 <= pow2 (-45).
Proof.
  intros Hc Hl. destruct (ratio_bounds count len Hc Hl) as [H0 H1].
  unfold num_mul, num_div. set (x := inject_Z count / inject_Z len) in *.
  assert (Ha0 := round64_nonneg _ H0). assert (Ha1 := round64_le_1 _ H0 H1).
  destruct (round64_error x 0 H0) as [Hx1 Hx2]; [| lia |].
  { apply Qle_lt_trans with 1; [exact H1 | by vm_compute]. }
  destruct (round64_error (round64 x * 100) 6) as [Hy1 Hy2]; [lra | | lia |].
  { apply Qle_lt_trans with 100; [lra | by vm_compute]. }
  change (0 - 53)%Z with (-53)%Z in *. change (6 - 53)%Z with (-47)%Z in *.
  assert (Hsum : pow2 (-47) + 100 * pow2 (-53) <= pow2 (-45)) by (by vm_compute).
  set (a := round64 x) in *. set (b := round64 (a * 100)) in *.
  set (e1 := pow2 (-53)) in *. set (e2 := pow2 (-47)) in *. set (e := pow2 (-45)) in *.
  split; lra.
Qed.

(** [Math.round] of the binary64 value against the rounding of the
    rational value, for lists of fewer than 2^32 values: they agree unless
    the rational value is a tie, where the program may answer one less. *)
Lemma Math_round_percentage (count len : Z) :
  (0 ≤ count ≤ len)%Z → (0 < len < 2 ^ 32)%Z →
  Math_round (num_mul (num_div (inject_Z count) (inject_Z len)) 100)
  = Math_round (inject_Z count / inject_Z len * 100)
  ∨ (tie (inject_Z count / inject_Z len * 100)
     ∧ Math_round (num_mul (num_div (inject_Z count) (inject_Z len)) 100)
       = (Math_round (inject_Z count / inject_Z len * 100) - 1)%Z).
Proof.
  intros Hc Hl. destruct (percentage_error count len Hc) as [He1 He2]; [lia|].
  destruct (ratio_bounds count len Hc) as [Hq0 Hq1]; [lia|].
  set (b := num_mul (num_div (inject_Z count) (inject_Z len)) 100) in *.
  set (q := inject_Z count / inject_Z len * 100) in *.
  unfold Math_round at 2 4. set (m := Qfloor (q + (1 # 2))).
  assert (Hm1 := Qfloor_le (q + (1 # 2))). assert (Hm2 := Qlt_floor (q + (1 # 2))).
  fold m in Hm1, Hm2. rewrite inject_Z_plus in Hm2. change (inject_Z 1) with 1 in Hm2.
  set (r := (200 * count + len - 2 * len * m)%Z).
  assert (HL0 : 0 < inject_Z len) by (change 0 with (inject_Z 0); rewrite <- Zlt_Qlt; lia).
  assert (HL1 : inject_Z len <= 4294967295).
  { change 4294967295 with (inject_Z 4294967295). rewrite <- Zle_Qle. lia. }
  assert (HqL : q * inject_Z len == 100 * inject_Z count).
  { unfold q. field. lra. }
  assert (HR : inject_Z r == (q + (1 # 2) - inject_Z m) * (2 * inject_Z len)).
  { unfold r. rewrite !inject_Z_sub, !inject_Z_plus, !inject_Z_mult.
    change (inject_Z 200) with 200. change (inject_Z 2) with 2. nra. }
  assert (Hr0 : (0 ≤ r)%Z).
  { rewrite Zle_Qle. change (inject_Z 0) with 0. rewrite HR. nra. }
  assert (Heps : pow2 (-45) <= 1 # 17179869184) by (by vm_compute).
  assert (Hepos := pow2_pos (-45)).
  set (eps := pow2 (-45)) in *. set (L := inject_Z len) in *. set (M := inject_Z m) in *.
  destruct (Z.eq_dec r 0%Z) as [Hr|Hr].
  - (* a tie: q + 1/2 is the integer m *)
    assert (Hq : q + (1 # 2) == M).
    { rewrite Hr in HR. change (inject_Z 0) with 0 in HR. nra. }
    assert (Htie : tie q).
    { unfold tie. rewrite (Qfloor_unique q (m - 1)).
      - rewrite inject_Z_sub. change (inject_Z 1) with 1. fold M. lra.
      - rewrite inject_Z_sub. change (inject_Z 1) with 1. fold M. lra.
      - rewrite inject_Z_sub. change (inject_Z 1) with 1. fold M. lra. }
    unfold Math_round.
    destruct (Qlt_le_dec (b + (1 # 2)) M) as [Hlt|Hge].
    + right. split; [exact Htie|]. apply Qfloor_unique;
        rewrite inject_Z_sub; change (inject_Z 1) with 1; fold M; lra.
    + left. apply Qfloor_unique; fold M; lra.
  - (* no tie: q + 1/2 is at least 1/(2 len) away from the integers *)
    left. assert (Hr1 : (1 ≤ r)%Z) by lia. assert (Hr2 : (r ≤ 2 * len - 1)%Z).
    { assert (Hlt : (r < 2 * len)%Z); [|lia].
      rewrite Zlt_Qlt, HR, inject_Z_mult. change (inject_Z 2) with 2. fold L. nra. }
    rewrite Zle_Qle in Hr1, Hr2. change (inject_Z 1) with 1 in Hr1.
    rewrite inject_Z_sub, inject_Z_mult in Hr2.
    change (inject_Z 2) with 2 in Hr2. change (inject_Z 1) with 1 in Hr2. fold L in Hr2.
    set (R := inject_Z r) in *. pose (t := q + (1 # 2) - M).
    assert (HR' : R == t * (2 * L)) by exact HR.
    assert (Hq : q + (1 # 2) == M + t) by (unfold t; ring).
    clearbody t. clear HR.
    unfold Math_round. apply Qfloor_unique; fold M.
    + assert (Ht : (1 # 8589934590) <= t); [|lra].
      destruct (Qlt_le_dec t (1 # 8589934590)) as [Hlt|Hge]; [exfalso | exact Hge].
      assert (Hprod : 0 < ((1 # 8589934590) - t) * L)
        by (apply Qmult_lt_0_compat; lra).
      nra.
    + assert (Ht : t <= 1 - (1 # 8589934590)); [|lra].
      destruct (Qlt_le_dec (1 - (1 # 8589934590)) t) as [Hlt|Hge]; [exfalso | exact Hge].
      assert (Hprod : 0 < (t - (1 - (1 # 8589934590))) * L)
        by (apply Qmult_lt_0_compat; lra).
      nra.
Qed.

End Percentage.


Lemma positive_counts_positive (distribution : list Count) :
  Forall (λ v, 0 < v) (omap positiveCount distribution).
Proof.
  induction distribution as [|[n|name ones] l IH]; [constructor|..]; cbn; [|exact IH].
  destruct (Z.ltb_spec 0 n); [by constructor | exact IH].
Qed.


Lemma getPercentile_zero_cases (values : list Z) (userValue : Z) :
  values = [] ∨ userValue = 0 → getPercentile values userValue = 0.
Proof.
  intros [-> | ->]; unfold getPercentile; [reflexivity|].
  by rewrite orb_true_r.
Qed.

Lemma getPercentile_range (values : list Z) (userValue : Z) :
  0 ≤ getPercentile values userValue ≤ 100.
Proof.
  destruct values as [|v vs].
  { rewrite getPercentile_zero_cases by (by left). lia. }
  destruct (Z.eq_dec userValue 0) as [Hu|Hu].
  { rewrite getPercentile_zero_cases by (by right). lia. }
  rewrite getPercentile_unfold by done.
  assert (Hle := filter_length_le (λ v0, v0 <? userValue) (v :: vs)).
  apply Math_round_bounds; apply percentage_bounds; simpl length in *; lia.
Qed.


(** [getPercentile] grows with the user value, for user values that are
    counts (not negative) or for values that are all positive. *)
Lemma getPercentile_monotone (values : list Z) (u1 u2 : Z) :
  u1 ≤ u2 → 0 ≤ u1 ∨ Forall (λ v, 0 < v) values →
  getPercentile values u1 ≤ getPercentile values u2.
Proof.
  intros Hu Hdom.
  destruct values as [|v vs].
  { rewrite !getPercentile_zero_cases by (by left). lia. }
  destruct (Z.eq_dec u1 0) as [H1|H1].
  { rewrite (getPercentile_zero_cases _ u1) by (by right). apply getPercentile_range. }
  rewrite (getPercentile_unfold _ u1) by done.
  destruct (Z.eq_dec u2 0) as [H2|H2].
  { destruct Hdom as [H0 | Hpos]; [lia|].
    rewrite (getPercentile_zero_cases _ u2) by (by right).
    assert (Hzero : List.filter (λ x, x <? u1) (v :: vs) = []).
    { clear -Hpos Hu H2. induction Hpos as [|x l Hx _ IH]; [reflexivity|].
      simpl. destruct (Z.ltb_spec x u1); [lia | exact IH]. }
    rewrite Hzero. by vm_compute. }
  rewrite (getPercentile_unfold _ u2) by done.
  apply Math_round_mono, percentage_mono; [|simpl length; lia].
  split; [lia|]. apply inj_le, filter_length_mono.
  intros x Hx. apply Z.ltb_lt. apply Z.ltb_lt in Hx. lia.
Qed.


(** [getPercentile] against the percentile rank in the rationals, on the
    values that the filter of [calculatePercentiles] leaves: equal, except
    that at a tie the program may answer one less. *)
Lemma getPercentile_exact (values : list Z) (userValue : Z) :
  Z.of_nat (length values) < 2 ^ 32 →
  let exact :=
    if (length values =? 0)%nat || (userValue =? 0) then 0
    else round_half_away
           (inject_Z (Z.of_nat (length (List.filter (λ v, v <? userValue) values)))
            / inject_Z (Z.of_nat (length values)) * 100)%Q in
  getPercentile values userValue = exact
  ∨ (values ≠ [] ∧ userValue ≠ 0
     ∧ tie (inject_Z (Z.of_nat (length (List.filter (λ v, v <? userValue) values)))
            / inject_Z (Z.of_nat (length values)) * 100)%Q
     ∧ getPercentile values userValue = exact - 1).
Proof.
  intros Hlen exact. unfold exact.
  destruct values as [|v vs].
  { left. by rewrite getPercentile_zero_cases by (by left). }
  destruct (Z.eq_dec userValue 0) as [Hu|Hu].
  { left. rewrite getPercentile_zero_cases by (by right). subst. reflexivity. }
  rewrite getPercentile_unfold by done.
  apply Z.eqb_neq in Hu as Hu'. rewrite Hu'. cbn [Nat.eqb length orb].
  assert (Hle := filter_length_le (λ v0, v0 <? userValue) (v :: vs)).
  set (count := Z.of_nat (length (List.filter (λ v0, v0 <? userValue) (v :: vs)))) in *.
  set (len := Z.of_nat (length (v :: vs))) in *.
  assert (Hc : 0 ≤ count ≤ len) by (unfold count, len; lia).
  assert (Hl : 0 < len < 2 ^ 32) by (unfold len in *; simpl length in *; lia).
  destruct (ratio_bounds count len Hc) as [Hq0 Hq1]; [lia|].
  rewrite round_half_away_nonneg by (apply Qmult_le_0_compat; [exact Hq0 | by vm_compute]).
  destruct (Math_round_percentage count len Hc Hl) as [H | [Ht H]]; [by left|].
  right. by repeat split.
Qed.




(** C9. For a fixed distribution the percentile never decreases when the
    user value grows: for all u1 <= u2, the percentile at u1 is at most the
    percentile at u2. This holds for the percentile of a distribution as
    [calculatePercentiles] computes it (whatever the distribution holds),
    for any integers u1 <= u2, and for [getPercentile] on any list of
    values when u1 is a count (not negative). *)
Theorem percentile_monotone (distribution : list Count) (values : list Z) (u1 u2 : Z) :
  u1 ≤ u2 →
  percentile distribution u1 ≤ percentile distribution u2
  ∧ (0 ≤ u1 → getPercentile values u1 ≤ getPercentile values u2).
Proof.
  intros Hu. split.
  - unfold percentile. apply getPercentile_monotone; [exact Hu|]. right.
    apply positive_counts_positive.
  - intros H0. apply getPercentile_monotone; [exact Hu | by left].
Qed.

Lemma percentile_monotone_witness :
  3 ≤ 6
  ∧ percentile (Num <$> Sample.one_to_ten) 3 ≤ percentile (Num <$> Sample.one_to_ten) 6.
Proof.
  split; [lia|].
  apply (proj1 (percentile_monotone (Num <$> Sample.one_to_ten) Sample.one_to_ten 3 6
                  ltac:(lia))).
Defined.

(** ** The user filter *)

Lemma filter_sublist {A} (f : A → bool) (l : list A) : sublist (List.filter f l) l.
Proof.
  induction l as [|x l IH]; simpl; [constructor|].
  destruct (f x); [apply sublist_skip | apply sublist_cons]; exact IH.
Qed.

Lemma truthy_Some (s : string) : truthy (Some s) = true ↔ s ≠ EmptyString.
Proof.
  unfold truthy. destruct (String.eqb_spec s EmptyString); simpl; split; intros; congruence.
Qed.

Lemma authoredBy_email_matches (lower : string → string) (identity : string) (c : Commit) :
  (∀ s, lower s = lower EmptyString → s = EmptyString) → identity ≠ EmptyString →
  authoredBy lower identity c = email_matches lower identity c.
Proof.
  intros Hlower Hid. unfold authoredBy, email_matches.
  destruct (commit_author c) as [[[email|]]|]; simpl; try reflexivity.
  destruct (String.eqb_spec email EmptyString) as [->|Hne]; simpl; [|reflexivity].
  destruct (String.eqb_spec (lower EmptyString) (lower identity)) as [E|E]; [|reflexivity].
  symmetry in E. apply Hlower in E. contradiction.
Qed.

(** C5. For a non-empty identity, [filterCommitsByUser] returns exactly the
    commits whose author email, lower-cased, equals the lower-cased
    identity, in their order; a commit without an author email is never in
    the result; without an identity (absent or empty) the list comes back
    unchanged; and the result is always a subsequence of the input. The
    lower-casing function of the platform is any function that sends only
    the empty string to the lower-casing of the empty string. *)
Theorem filterCommitsByUser_contract (env : Env) (commits : list Commit)
    (identity : string) :
  (∀ s, toLowerCase env s = toLowerCase env EmptyString → s = EmptyString) →
  identity ≠ EmptyString →
  filterCommitsByUser env commits (Some identity)
  = List.filter (email_matches (toLowerCase env) identity) commits
  ∧ (∀ c, c ∈ filterCommitsByUser env commits (Some identity) → has_author_email c)
  ∧ filterCommitsByUser env commits None = commits
  ∧ filterCommitsByUser env commits (Some EmptyString) = commits
  ∧ ∀ userEmail, sublist (filterCommitsByUser env commits userEmail) commits.
Proof.
  intros Hlower Hid.
  assert (Heq : filterCommitsByUser env commits (Some identity)
                = List.filter (email_matches (toLowerCase env) identity) commits).
  { unfold filterCommitsByUser. rewrite (proj2 (truthy_Some identity) Hid). simpl.
    apply filter_ext. intros c. by apply authoredBy_email_matches. }
  split; [exact Heq|]. split; [|split; [reflexivity|split; [reflexivity|]]].
  - rewrite Heq. intros c Hc. apply list_elem_of_In, filter_In in Hc as [_ Hc].
    unfold email_matches in Hc. unfold has_author_email.
    destruct (commit_author c) as [author|]; [|discriminate].
    destruct (author_email author) as [email|] eqn:Ee; [|discriminate].
    by exists author, email.
  - intros userEmail. unfold filterCommitsByUser.
    destruct (truthy userEmail); simpl; [apply filter_sublist | reflexivity].
Qed.

Lemma lower_only_empty (s : string) : Sample.lower s = Sample.lower EmptyString → s = EmptyString.
Proof. destruct s; simpl; [reflexivity | discriminate]. Qed.

Lemma filterCommitsByUser_contract_witness :
  filterCommitsByUser Sample.quiet Sample.three_commits (Some "user@x.com")
  = [Sample.commit_by "User@X.com"]
  ∧ ∀ userEmail,
      sublist (filterCommitsByUser Sample.quiet Sample.three_commits userEmail)
              Sample.three_commits.
Proof.
  destruct (filterCommitsByUser_contract Sample.quiet Sample.three_commits "user@x.com"
              lower_only_empty ltac:(discriminate)) as (Heq & _ & _ & _ & Hsub).
  split; [rewrite Heq; reflexivity | exact Hsub].
Defined.

(** ** The synthetic generators *)

Lemma after_draws_add (n m : nat) (w : World) :
  after_draws m (after_draws n w) = after_draws (n + m) w.
Proof. unfold after_draws. simpl. f_equal. lia. Qed.

Lemma after_draws_0 (w : World) : after_draws 0 w = w.
Proof. destruct w. unfold after_draws. simpl. f_equal. lia. Qed.

Lemma mockStatsLoop_values (env : Env) (a b : Z) (iterations : nat) :
  ∀ (stats : list Z) (w : World),
    mockStatsLoop env a b iterations stats w
    = (Returned (stats ++
         map (λ i, synthetic_value a b (Math_random env (draws w + 3 * i))
                                       (Math_random env (draws w + 3 * i + 1))
                                       (Math_random env (draws w + 3 * i + 2)))
             (seq 0 iterations)),
       after_draws (3 * iterations) w).
Proof.
  induction iterations as [|n IH]; intros stats w.
  - simpl. unfold ret. rewrite app_nil_r, after_draws_0. reflexivity.
  - cbn [mockStatsLoop]. unfold bind at 1. unfold random at 1.
    unfold bind at 1. unfold random at 1. unfold bind at 1. unfold random at 1.
    cbn [draws fetches console]. rewrite IH. cbn [draws]. f_equal.
    + f_equal. rewrite <- app_assoc. f_equal. cbn [seq map app].
      f_equal.
      * unfold synthetic_value. repeat f_equal; lia.
      * rewrite <- seq_shift, map_map. apply map_ext. intros i.
        f_equal; f_equal; lia.
    + unfold after_draws. cbn [draws fetches console]. f_equal. lia.
Qed.

Lemma generators_run (env : Env) (w : World) :
  generateMockCommitStats env w
  = (Returned (synthetic_distribution env 20 50 (draws w)), after_draws 150 w)
  ∧ generateMockPRStats env w
    = (Returned (synthetic_distribution env 10 25 (draws w)), after_draws 150 w)
  ∧ generateMockWorkItemStats env w
    = (Returned (synthetic_distribution env 15 30 (draws w)), after_draws 150 w).
Proof.
  unfold generateMockCommitStats, generateMockPRStats, generateMockWorkItemStats.
  rewrite !mockStatsLoop_values. by repeat split.
Qed.

(** C8. Each of the three generators yields exactly 50 values, the i-th
    being [floor(U1 * A) + floor(U2 * U3 * B)] for three successive fresh
    draws U1, U2, U3 of the random source (150 draws per call), with
    (A, B) = (20, 50) for commits, (10, 25) for pull requests and (15, 30)
    for work items; the products are those of binary64 numbers. That the
    draws are uniform and independent is a property of the random source
    and not of the program. *)
Theorem generators_contract (env : Env) (w : World) :
  generateMockCommitStats env w
  = (Returned (synthetic_distribution env 20 50 (draws w)), after_draws 150 w)
  ∧ generateMockPRStats env w
    = (Returned (synthetic_distribution env 10 25 (draws w)), after_draws 150 w)
  ∧ generateMockWorkItemStats env w
    = (Returned (synthetic_distribution env 15 30 (draws w)), after_draws 150 w)
  ∧ ∀ a b start, length (synthetic_distribution env a b start) = 50%nat.
Proof.
  destruct (generators_run env w) as (Hc & Hp & Hw).
  split; [exact Hc|]. split; [exact Hp|]. split; [exact Hw|].
  intros a b start. unfold synthetic_distribution. by rewrite length_map, length_seq.
Qed.

(** ** The fetcher *)

(** What a sub-fetch makes of the outcome of its remote call. *)
Lemma sub_fetch_run {T} (remote : nat → Request → FetchOutcome T) (req : Request)
    (w : World) :
  (let* response := fetch remote req in
   if negb (resp_ok response) then ret []
   else let* data := response_json response in ret (or_empty data)) w
  = (match remote (fetches w) req with
     | NetworkError e => Thrown e
     | Responded r =>
         if negb (resp_ok r) then Returned []
         else match resp_body r with
              | Malformed e => Thrown e
              | Parsed field => Returned (or_empty field)
              end
     end, after_fetch w).
Proof.
  unfold bind, fetch, after_fetch.
  destruct (remote (fetches w) req) as [e|r]; [reflexivity|].
  destruct (resp_ok r); simpl; [|reflexivity].
  unfold response_json. destruct (resp_body r); reflexivity.
Qed.

Lemma sub_fetch_non_2xx {T} (remote : nat → Request → FetchOutcome T) (req : Request)
    (w : World) :
  non_2xx (remote (fetches w) req) →
  (let* response := fetch remote req in
   if negb (resp_ok response) then ret []
   else let* data := response_json response in ret (or_empty data)) w
  = (Returned [], after_fetch w).
Proof. intros (r & Hr & Hok). rewrite sub_fetch_run, Hr, Hok. reflexivity. Qed.

Lemma sub_fetch_rejects {T} (remote : nat → Request → FetchOutcome T) (req : Request)
    (w : World) (e : Error) :
  rejects (remote (fetches w) req) e →
  (let* response := fetch remote req in
   if negb (resp_ok response) then ret []
   else let* data := response_json response in ret (or_empty data)) w
  = (Thrown e, after_fetch w).
Proof.
  intros [Hr | (r & Hr & Hok & Hbody)]; rewrite sub_fetch_run, Hr; [reflexivity|].
  rewrite Hok, Hbody. reflexivity.
Qed.

Lemma getRepositories_run (env : Env) (this : Analyzer) (projectId : string)
    (headers : list (string * string)) (w : World) :
  getRepositories env this projectId headers w
  = (fetched (remote_repositories env (fetches w)
                (repositoriesRequest this projectId headers)), after_fetch w).
Proof. unfold getRepositories. apply sub_fetch_run. Qed.

Lemma getPullRequests_run (env : Env) (this : Analyzer) (projectId repoId : string)
    (daysBack : Z) (headers : list (string * string)) (w : World) :
  getPullRequests env this projectId repoId daysBack headers w
  = (fetched (remote_pullrequests env (fetches w)
                (pullRequestsRequest this projectId repoId headers)), after_fetch w).
Proof. unfold getPullRequests. apply sub_fetch_run. Qed.

(** [getCommits] and [getWorkItems] first take the text of the date: when
    that raises, no call is made. *)
Lemma getCommits_run (env : Env) (this : Analyzer) (projectId repoId : string)
    (userEmail : option string) (daysBack : Z) (headers : list (string * string))
    (w : World) :
  getCommits env this projectId repoId userEmail daysBack headers w
  = match sinceDate_toISOString env daysBack with
    | Thrown e => (Thrown e, w)
    | Returned since =>
        (fetched (remote_commits env (fetches w)
                    (commitsRequest this projectId repoId since headers)),
         after_fetch w)
    end.
Proof.
  unfold getCommits. unfold bind at 1. unfold platform.
  destruct (sinceDate_toISOString env daysBack) as [since|e]; [|reflexivity].
  apply sub_fetch_run.
Qed.

Lemma getWorkItems_run (env : Env) (this : Analyzer) (projectId userEmail : string)
    (daysBack : Z) (headers : list (string * string)) (w : World) :
  getWorkItems env this projectId userEmail daysBack headers w
  = match sinceDate_toISOString env daysBack with
    | Thrown e => (Thrown e, w)
    | Returned since =>
        (fetched (remote_wiql env (fetches w)
                    (wiqlRequest env this projectId userEmail since headers)),
         after_fetch w)
    end.
Proof.
  unfold getWorkItems. unfold bind at 1. unfold platform.
  destruct (sinceDate_toISOString env daysBack) as [since|e]; [|reflexivity].
  apply sub_fetch_run.
Qed.

Lemma fetched_non_2xx {T} (outcome : FetchOutcome T) :
  non_2xx outcome → fetched outcome = Returned [].
Proof. intros (r & -> & Hok). unfold fetched. by rewrite Hok. Qed.

Lemma fetched_rejects {T} (outcome : FetchOutcome T) (e : Error) :
  rejects outcome e ↔ fetched outcome = Thrown e.
Proof.
  unfold rejects, fetched. split.
  - intros [-> | (r & -> & Hok & Hbody)]; [reflexivity|]. by rewrite Hok, Hbody.
  - destruct outcome as [e'|r]; [intros [= ->]; by left|].
    destruct (resp_ok r) eqn:Hok; [|discriminate]. simpl.
    destruct (resp_body r) as [e'|field] eqn:Hbody; [|discriminate].
    intros [= ->]. right. by exists r.
Qed.

Lemma lift_run {L A} (c : M World A) (local : L) (w : World) :
  lift c (local, w) = ((c w).1, (local, (c w).2)).
Proof. unfold lift. simpl. destruct (c w). reflexivity. Qed.

Lemma analyzeProject_run (env : Env) (this : Analyzer) (project : Project)
    (daysBack : Z) (userEmail : option string) (headers : list (string * string))
    (w : World) :
  analyzeProject env this project daysBack userEmail headers w
  = match analyzeProject_try env this project daysBack userEmail headers
            (emptyProjectMetrics, w) with
    | (Returned _, s) => (Returned s.1, s.2)
    | (Thrown e, s) =>
        (Returned s.1,
         after_warn ("Error analyzing project " +:+ project_name project +:+ ":") e s.2)
    end.
Proof.
  unfold analyzeProject, with_local, try_catch.
  destruct (analyzeProject_try _ _ _ _ _ _ _) as [[[]|e] [pm w']]; reflexivity.
Qed.

Lemma analyzeProject_returns (env : Env) (this : Analyzer) (project : Project)
    (daysBack : Z) (userEmail : option string) (headers : list (string * string))
    (w : World) :
  ∃ pm w', analyzeProject env this project daysBack userEmail headers w
           = (Returned pm, w').
Proof.
  rewrite analyzeProject_run.
  destruct (analyzeProject_try _ _ _ _ _ _ _) as [[[]|e] s]; eauto.
Qed.

Lemma getProjectOrgStats_catch_run (env : Env) (project : Project) (error : Error)
    (partial : OrgStats) (w : World) :
  getProjectOrgStats_catch env project error (partial, w)
  = (Returned (),
     (let w' := after_warn
                  ("Error getting org stats for project " +:+ project_name project +:+ ":")
                  error w in
      ({| os_commits := Num <$> synthetic_distribution env 20 50 (draws w');
          os_prs := Num <$> synthetic_distribution env 10 25 (draws w' + 150);
          os_workItems := Num <$> synthetic_distribution env 15 30 (draws w' + 300) |},
       after_draws 450 w'))).
Proof.
  unfold getProjectOrgStats_catch.
  unfold bind at 1. rewrite lift_run. cbn [console_warn fst snd].
  fold (after_warn ("Error getting org stats for project " +:+ project_name project +:+ ":")
                   error w).
  set (w' := after_warn _ error w).
  destruct (generators_run env w') as (Hc & _ & _).
  unfold bind at 1. rewrite lift_run, Hc. cbn [fst snd].
  unfold bind at 1. unfold update at 1. cbn [fst snd].
  destruct (generators_run env (after_draws 150 w')) as (_ & Hp & _).
  unfold bind at 1. rewrite lift_run, Hp. cbn [fst snd].
  unfold bind at 1. unfold update at 1. cbn [fst snd].
  destruct (generators_run env (after_draws 150 (after_draws 150 w')))
    as (_ & _ & Hw).
  unfold bind at 1. rewrite lift_run, Hw. cbn [fst snd].
  unfold update. cbn [fst snd]. rewrite !after_draws_add.
  unfold assignCommits, assignPRs, assignWorkItems. cbn [os_commits os_prs os_workItems].
  cbn [after_draws draws]. repeat f_equal; lia.
Qed.

Lemma getProjectOrgStats_run (env : Env) (this : Analyzer) (project : Project)
    (daysBack : Z) (headers : list (string * string)) (w : World) :
  getProjectOrgStats env this project daysBack headers w
  = match getProjectOrgStats_try env this project daysBack headers (emptyOrgStats, w) with
    | (Returned _, s) => (Returned s.1, s.2)
    | (Thrown e, s) =>
        let w' := after_warn
                    ("Error getting org stats for project " +:+ project_name project +:+ ":")
                    e s.2 in
        (Returned {| os_commits := Num <$> synthetic_distribution env 20 50 (draws w');
                     os_prs := Num <$> synthetic_distribution env 10 25 (draws w' + 150);
                     os_workItems :=
                       Num <$> synthetic_distribution env 15 30 (draws w' + 300) |},
         after_draws 450 w')
    end.
Proof.
  unfold getProjectOrgStats, with_local, try_catch.
  destruct (getProjectOrgStats_try _ _ _ _ _ _) as [[[]|e] [partial w']]; [reflexivity|].
  rewrite getProjectOrgStats_catch_run. reflexivity.
Qed.

Lemma getProjectOrgStats_returns (env : Env) (this : Analyzer) (project : Project)
    (daysBack : Z) (headers : list (string * string)) (w : World) :
  ∃ stats w', getProjectOrgStats env this project daysBack headers w
              = (Returned stats, w').
Proof.
  rewrite getProjectOrgStats_run.
  destruct (getProjectOrgStats_try _ _ _ _ _ _) as [[[]|e] s]; eauto.
Qed.

(** C3, as amended. For each sub-fetch (repositories, commits, pull
    requests, work items): a remote call that answers with a status outside
    2xx yields the empty sequence; a call that fails with a network error
    or whose body cannot be parsed raises out of the fetcher; and the
    fetchers of commits and work items raise before any call is made when
    the lookback leads out of the range of dates. The error is caught one
    level up: [analyzeProject] and [getProjectOrgStats] always return. *)
Theorem sub_fetch_failures (env : Env) (this : Analyzer) (projectId repoId email : string)
    (userEmail : option string) (daysBack : Z) (headers : list (string * string))
    (w : World) :
  ((non_2xx (remote_repositories env (fetches w) (repositoriesRequest this projectId headers))
    → getRepositories env this projectId headers w = (Returned [], after_fetch w))
   ∧ ∀ e, rejects (remote_repositories env (fetches w)
                     (repositoriesRequest this projectId headers)) e
          → getRepositories env this projectId headers w = (Thrown e, after_fetch w))
  ∧ (∀ since, sinceDate_toISOString env daysBack = Returned since →
       (non_2xx (remote_commits env (fetches w)
                   (commitsRequest this projectId repoId since headers))
        → getCommits env this projectId repoId userEmail daysBack headers w
          = (Returned [], after_fetch w))
       ∧ ∀ e, rejects (remote_commits env (fetches w)
                         (commitsRequest this projectId repoId since headers)) e
              → getCommits env this projectId repoId userEmail daysBack headers w
                = (Thrown e, after_fetch w))
  ∧ (∀ e, sinceDate_toISOString env daysBack = Thrown e →
          getCommits env this projectId repoId userEmail daysBack headers w
          = (Thrown e, w))
  ∧ ((non_2xx (remote_pullrequests env (fetches w)
                 (pullRequestsRequest this projectId repoId headers))
      → getPullRequests env this projectId repoId daysBack headers w
        = (Returned [], after_fetch w))
     ∧ ∀ e, rejects (remote_pullrequests env (fetches w)
                       (pullRequestsRequest this projectId repoId headers)) e
            → getPullRequests env this projectId repoId daysBack headers w
              = (Thrown e, after_fetch w))
  ∧ (∀ since, sinceDate_toISOString env daysBack = Returned since →
       (non_2xx (remote_wiql env (fetches w)
                   (wiqlRequest env this projectId email since headers))
        → getWorkItems env this projectId email daysBack headers w
          = (Returned [], after_fetch w))
       ∧ ∀ e, rejects (remote_wiql env (fetches w)
                         (wiqlRequest env this projectId email since headers)) e
              → getWorkItems env this projectId email daysBack headers w
                = (Thrown e, after_fetch w))
  ∧ (∀ e, sinceDate_toISOString env daysBack = Thrown e →
          getWorkItems env this projectId email daysBack headers w = (Thrown e, w))
  ∧ (∀ project, ∃ pm w',
        analyzeProject env this project daysBack userEmail headers w = (Returned pm, w'))
  ∧ (∀ project, ∃ stats w',
        getProjectOrgStats env this project daysBack headers w = (Returned stats, w')).
Proof.
  split; [split|].
  { apply sub_fetch_non_2xx. }
  { intros e. apply sub_fetch_rejects. }
  split.
  { intros since Hsince. rewrite getCommits_run, Hsince. split.
    - intros H. by rewrite (fetched_non_2xx _ H).
    - intros e H. apply fetched_rejects in H. by rewrite H. }
  split.
  { intros e He. by rewrite getCommits_run, He. }
  split; [split|].
  { apply sub_fetch_non_2xx. }
  { intros e. apply sub_fetch_rejects. }
  split.
  { intros since Hsince. rewrite getWorkItems_run, Hsince. split.
    - intros H. by rewrite (fetched_non_2xx _ H).
    - intros e H. apply fetched_rejects in H. by rewrite H. }
  split.
  { intros e He. by rewrite getWorkItems_run, He. }
  split.
  - intros project. apply analyzeProject_returns.
  - intros project. apply getProjectOrgStats_returns.
Qed.

Lemma sub_fetch_failures_witness :
  getCommits Sample.commits_unavailable Sample.this "p1" "r1" None 90 [] Sample.world0
  = (Returned [], after_fetch Sample.world0)
  ∧ getCommits Sample.second_repo_offline Sample.this "p1" "r2" None 90 [] Sample.world0
    = (Thrown (MkError "Failed to fetch"), after_fetch Sample.world0).
Proof.
  split.
  - apply (proj1 (proj2 (sub_fetch_failures Sample.commits_unavailable Sample.this
                           "p1" "r1" EmptyString None 90 [] Sample.world0))
                 "2025-04-02T00:00:00.000Z" eq_refl).
    eexists. split; reflexivity.
  - apply (proj1 (proj2 (sub_fetch_failures Sample.second_repo_offline Sample.this
                           "p1" "r2" EmptyString None 90 [] Sample.world0))
                 "2025-04-02T00:00:00.000Z" eq_refl).
    left. reflexivity.
Defined.

(** C3 as stated fails: a commit call that ends in a network error does not
    yield the empty sequence, it raises. *)
Lemma getCommits_raises_when_offline :
  rejects (remote_commits Sample.second_repo_offline (fetches Sample.world0)
             (commitsRequest Sample.this "p1" "r2" "2025-04-02T00:00:00.000Z" []))
          (MkError "Failed to fetch")
  ∧ (getCommits Sample.second_repo_offline Sample.this "p1" "r2" None 90 []
       Sample.world0).1 = Thrown (MkError "Failed to fetch")
  ∧ (getCommits Sample.second_repo_offline Sample.this "p1" "r2" None 90 []
       Sample.world0).1 ≠ Returned [].
Proof.
  split; [left; reflexivity|]. split; [reflexivity | discriminate].
Qed.

(** ** Computations over a local object *)

Lemma bind_lift_run {L A B} (c : M World A) (k : A → M (L * World) B) (local : L)
    (w : World) :
  (let* x := lift c in k x) (local, w)
  = match c w with
    | (Returned a, w1) => k a (local, w1)
    | (Thrown e, w1) => (Thrown e, (local, w1))
    end.
Proof. unfold bind. rewrite lift_run. destruct (c w) as [[a|e] w1]; reflexivity. Qed.

Lemma bind_update_run {L B} (f : L → L) (k : () → M (L * World) B) (local : L)
    (w : World) :
  (let* x := update f in k x) (local, w) = k () (f local, w).
Proof. reflexivity. Qed.


(** ** The distribution sampler *)

Lemma getRepositories_draws (env : Env) (this : Analyzer) (projectId : string)
    (headers : list (string * string)) (w : World) :
  draws (getRepositories env this projectId headers w).2 = draws w.
Proof. unfold getRepositories. rewrite sub_fetch_run. reflexivity. Qed.

Lemma getCommits_draws (env : Env) (this : Analyzer) (projectId repoId : string)
    (userEmail : option string) (daysBack : Z) (headers : list (string * string))
    (w : World) :
  draws (getCommits env this projectId repoId userEmail daysBack headers w).2 = draws w.
Proof.
  rewrite getCommits_run. by destruct (sinceDate_toISOString env daysBack).
Qed.

Lemma getPullRequests_draws (env : Env) (this : Analyzer) (projectId repoId : string)
    (daysBack : Z) (headers : list (string * string)) (w : World) :
  draws (getPullRequests env this projectId repoId daysBack headers w).2 = draws w.
Proof. unfold getPullRequests. rewrite sub_fetch_run. reflexivity. Qed.

Lemma sampleRepo_draws (env : Env) (this : Analyzer) (project : Project)
    (daysBack : Z) (headers : list (string * string)) (repo : Repository)
    (s : OrgStats * World) :
  draws (sampleRepo env this project daysBack headers repo s).2.2 = draws s.2.
Proof.
  destruct s as [o w]. unfold sampleRepo. rewrite bind_lift_run.
  assert (Hc := getCommits_draws env this (project_id project) (repo_id repo)
                  None daysBack headers w).
  destruct (getCommits _ _ _ _ _ _ _ w) as [[commits|e] w1]; [|exact Hc].
  rewrite bind_update_run, bind_lift_run.
  assert (Hp := getPullRequests_draws env this (project_id project) (repo_id repo)
                  daysBack headers w1).
  destruct (getPullRequests _ _ _ _ _ _ w1) as [[prs|e] w2]; simpl in *; congruence.
Qed.

Lemma forEach_draws {L A} (f : A → M (L * World) ()) (l : list A) :
  (∀ x s, draws (f x s).2.2 = draws s.2) →
  ∀ s, draws (forEach l f s).2.2 = draws s.2.
Proof.
  intros Hf. induction l as [|x l IH]; intros s; [reflexivity|].
  cbn [forEach]. unfold bind. specialize (Hf x s).
  destruct (f x s) as [[[]|e] s1]; simpl in *; [rewrite IH|]; exact Hf.
Qed.

Lemma getProjectOrgStats_try_thrown_draws (env : Env) (this : Analyzer)
    (project : Project) (daysBack : Z) (headers : list (string * string)) (w : World)
    (e : Error) (s : OrgStats * World) :
  getProjectOrgStats_try env this project daysBack headers (emptyOrgStats, w)
  = (Thrown e, s) →
  draws s.2 = draws w.
Proof.
  unfold getProjectOrgStats_try. rewrite bind_lift_run.
  assert (Hr := getRepositories_draws env this (project_id project) headers w).
  destruct (getRepositories _ _ _ _ w) as [[repos|e1] w1]; simpl in Hr.
  2: { intros [= <- <-]. exact Hr. }
  unfold bind at 1.
  assert (Hl := forEach_draws (sampleRepo env this project daysBack headers)
                  (take 5 repos) (sampleRepo_draws env this project daysBack headers)
                  (emptyOrgStats, w1)).
  destruct (forEach _ _ _) as [[[]|e1] [o2 w2]]; simpl in Hl.
  2: { intros [= <- <-]. simpl. congruence. }
  rewrite bind_lift_run.
  destruct (generators_run env w2) as (_ & _ & ->). discriminate.
Qed.

Lemma sampleRepo_run (env : Env) (this : Analyzer) (project : Project) (daysBack : Z)
    (headers : list (string * string)) (repo : Repository) (o : OrgStats) (w : World) :
  sampleRepo env this project daysBack headers repo (o, w)
  = match getCommits env this (project_id project) (repo_id repo) None daysBack
            headers w with
    | (Thrown e, w1) => (Thrown e, (o, w1))
    | (Returned commits, w1) =>
        match getPullRequests env this (project_id project) (repo_id repo) daysBack
                headers w1 with
        | (Thrown e, w2) =>
            (Thrown e, (pushCommits (Object_values (groupCommitsByUser commits)) o, w2))
        | (Returned prs, w2) =>
            (Returned (),
             (pushPRs (Object_values (groupPRsByUser prs))
                (pushCommits (Object_values (groupCommitsByUser commits)) o), w2))
        end
    end.
Proof.
  unfold sampleRepo. rewrite bind_lift_run.
  destruct (getCommits _ _ _ _ _ _ _ w) as [[commits|e] w1]; [|reflexivity].
  rewrite bind_update_run, bind_lift_run.
  destruct (getPullRequests _ _ _ _ _ _ w1) as [[prs|e] w2]; reflexivity.
Qed.

Lemma commitsAnswer_shift (env : Env) (this : Analyzer) (project : Project)
    (since : string) (headers : list (string * string)) (first i : nat)
    (repo : Repository) :
  commitsAnswer env this project since headers (S (S first)) i repo
  = commitsAnswer env this project since headers first (S i) repo.
Proof. unfold commitsAnswer. do 2 f_equal. lia. Qed.

Lemma pullRequestsAnswer_shift (env : Env) (this : Analyzer) (project : Project)
    (headers : list (string * string)) (first i : nat) (repo : Repository) :
  pullRequestsAnswer env this project headers (S (S first)) i repo
  = pullRequestsAnswer env this project headers first (S i) repo.
Proof. unfold pullRequestsAnswer. do 2 f_equal. lia. Qed.

Lemma liveCommitCounts_cons (env : Env) (this : Analyzer) (project : Project)
    (since : string) (headers : list (string * string)) (first : nat)
    (repo : Repository) (repos : list Repository) :
  liveCommitCounts env this project since headers first (repo :: repos)
  = Object_values (groupCommitsByUser
      (records (fetched (remote_commits env first
         (commitsRequest this (project_id project) (repo_id repo) since headers)))))
    ++ liveCommitCounts env this project since headers (S (S first)) repos.
Proof.
  unfold liveCommitCounts. rewrite imap_cons. cbn [concat]. f_equal. f_equal.
  apply imap_ext. intros i r _. cbn. by rewrite commitsAnswer_shift.
Qed.

Lemma livePRCounts_cons (env : Env) (this : Analyzer) (project : Project)
    (headers : list (string * string)) (first : nat)
    (repo : Repository) (repos : list Repository) :
  livePRCounts env this project headers first (repo :: repos)
  = Object_values (groupPRsByUser
      (records (fetched (remote_pullrequests env (S first)
         (pullRequestsRequest this (project_id project) (repo_id repo) headers)))))
    ++ livePRCounts env this project headers (S (S first)) repos.
Proof.
  unfold livePRCounts. rewrite imap_cons. cbn [concat]. f_equal. f_equal.
  apply imap_ext. intros i r _. cbn. by rewrite pullRequestsAnswer_shift.
Qed.

(** The loop over the sampled repositories when no call raises: two calls
    per repository, the counts of their records appended. *)
Lemma sample_loop_returns (env : Env) (this : Analyzer) (project : Project)
    (daysBack : Z) (since : string) (headers : list (string * string))
    (repos : list Repository) :
  sinceDate_toISOString env daysBack = Returned since →
  ∀ o w,
    (∀ i repo, repos !! i = Some repo →
       ¬ raises (commitsAnswer env this project since headers (fetches w) i repo)
       ∧ ¬ raises (pullRequestsAnswer env this project headers (fetches w) i repo)) →
    forEach repos (sampleRepo env this project daysBack headers) (o, w)
    = (Returned (),
       ({| os_commits :=
             os_commits o
             ++ liveCommitCounts env this project since headers (fetches w) repos;
           os_prs := os_prs o ++ livePRCounts env this project headers (fetches w) repos;
           os_workItems := os_workItems o |},
        {| fetches := (fetches w + 2 * length repos)%nat; draws := draws w;
           console := console w |})).
Proof.
  intros Hsince. induction repos as [|repo repos IH]; intros o w Hanswers.
  - unfold liveCommitCounts, livePRCounts. cbn. unfold ret. rewrite !app_nil_r.
    destruct o, w. cbn. do 3 f_equal. lia.
  - cbn [forEach]. unfold bind. rewrite sampleRepo_run, getCommits_run, Hsince.
    destruct (Hanswers 0%nat repo eq_refl) as [Hc Hp].
    unfold commitsAnswer in Hc. cbn [Nat.mul Nat.add] in Hc.
    destruct (fetched (remote_commits env (fetches w) _)) as [commits|e] eqn:Ec;
      [|exfalso; apply Hc; by exists e].
    rewrite getPullRequests_run. unfold pullRequestsAnswer in Hp.
    cbn [Nat.mul Nat.add] in Hp. cbn [after_fetch fetches].
    destruct (fetched (remote_pullrequests env (S (fetches w)) _)) as [prs|e] eqn:Ep;
      [|exfalso; apply Hp; by exists e].
    rewrite IH.
    + rewrite liveCommitCounts_cons, livePRCounts_cons, Ec, Ep.
      cbn [records after_fetch fetches draws console pushPRs pushCommits
           os_commits os_prs os_workItems length].
      rewrite <- !app_assoc. do 3 f_equal. lia.
    + intros i r Hr. cbn [after_fetch fetches].
      rewrite commitsAnswer_shift, pullRequestsAnswer_shift. by apply (Hanswers (S i)).
Qed.

(** The loop over the sampled repositories when a call raises: the loop
    raises that error, whatever was gathered before. *)
Lemma sample_loop_raises (env : Env) (this : Analyzer) (project : Project)
    (daysBack : Z) (since : string) (headers : list (string * string))
    (repos : list Repository) :
  sinceDate_toISOString env daysBack = Returned since →
  ∀ k repo e o w,
    repos !! k = Some repo →
    (∀ i earlier, (i < k)%nat → repos !! i = Some earlier →
       ¬ raises (commitsAnswer env this project since headers (fetches w) i earlier)
       ∧ ¬ raises (pullRequestsAnswer env this project headers (fetches w) i earlier)) →
    commitsAnswer env this project since headers (fetches w) k repo = Thrown e
    ∨ (¬ raises (commitsAnswer env this project since headers (fetches w) k repo)
       ∧ pullRequestsAnswer env this project headers (fetches w) k repo = Thrown e) →
    ∃ s, forEach repos (sampleRepo env this project daysBack headers) (o, w)
         = (Thrown e, s).
Proof.
  intros Hsince. induction repos as [|first repos IH]; intros k repo e o w Hk Hbefore Hat.
  - by rewrite lookup_nil in Hk.
  - cbn [forEach]. unfold bind. rewrite sampleRepo_run, getCommits_run, Hsince.
    rewrite getPullRequests_run. cbn [after_fetch fetches].
    destruct k as [|k].
    + injection Hk as ->. unfold commitsAnswer, pullRequestsAnswer in Hat.
      cbn [Nat.mul Nat.add] in Hat.
      destruct Hat as [Hc | [Hc Hp]].
      * rewrite Hc. by eexists.
      * destruct (fetched (remote_commits env (fetches w) _)) as [commits|e'] eqn:Ec;
          [|exfalso; apply Hc; by exists e'].
        rewrite Hp. by eexists.
    + destruct (Hbefore 0%nat first ltac:(lia) eq_refl) as [Hc Hp].
      unfold commitsAnswer in Hc. unfold pullRequestsAnswer in Hp.
      cbn [Nat.mul Nat.add] in Hc, Hp.
      destruct (fetched (remote_commits env (fetches w) _)) as [commits|e'] eqn:Ec;
        [|exfalso; apply Hc; by exists e'].
      destruct (fetched (remote_pullrequests env (S (fetches w)) _)) as [prs|e'] eqn:Ep;
        [|exfalso; apply Hp; by exists e'].
      apply (IH k repo e); [exact Hk | |].
      * intros i earlier Hi Hearlier. cbn [after_fetch fetches].
        rewrite commitsAnswer_shift, pullRequestsAnswer_shift.
        apply (Hbefore (S i)); [lia | exact Hearlier].
      * cbn [after_fetch fetches].
        by rewrite commitsAnswer_shift, pullRequestsAnswer_shift.
Qed.

(** When the [try] block of the sampler raises, the result is synthetic
    throughout, from the 450 draws that follow those made before. *)
Lemma sampler_fallback (env : Env) (this : Analyzer) (project : Project) (daysBack : Z)
    (headers : list (string * string)) (w : World) (e : Error) (s : OrgStats * World) :
  getProjectOrgStats_try env this project daysBack headers (emptyOrgStats, w)
  = (Thrown e, s) →
  draws s.2 = draws w
  ∧ getProjectOrgStats env this project daysBack headers w
    = (Returned (synthetic_stats env (draws w)),
       after_draws 450
         (after_warn
            ("Error getting org stats for project " +:+ project_name project +:+ ":")
            e s.2)).
Proof.
  intros H. assert (Hd := getProjectOrgStats_try_thrown_draws _ _ _ _ _ _ _ _ H).
  split; [exact Hd|]. rewrite getProjectOrgStats_run, H. cbn [after_warn draws].
  rewrite Hd. reflexivity.
Qed.

(** C4, as amended. The fallback of the sampler is per project and is
    triggered by a call that raises, not by a status outside 2xx.
    When the repository-list call raises (network error, unparsable
    body), or the commit or pull-request call of one of the (at most five)
    sampled repositories raises, the calls before it having answered, or
    the date of the lookback raises with a repository to sample, then the
    project's contribution to all three distributions is synthetic: 50
    values each, from the 450 draws that follow, the live counts gathered
    before being dropped and the error logged as a warning. When every
    call answers, with a status outside 2xx or not, the contribution is
    live for commits and pull requests, the counts by author and by
    creator of the records of each sampled repository in turn, none for a
    call that answered outside 2xx, together with 50 synthetic work-item
    values from 150 draws. A call raises exactly when it ends in a network
    error or its body cannot be parsed; one that answers outside 2xx gives
    no records. *)
Theorem sampling_failure_is_all_synthetic (env : Env) (this : Analyzer)
    (project : Project) (daysBack : Z) (headers : list (string * string)) (w : World) :
  (∀ e, rejects (remote_repositories env (fetches w)
                   (repositoriesRequest this (project_id project) headers)) e →
        getProjectOrgStats env this project daysBack headers w
        = (Returned (synthetic_stats env (draws w)),
           after_draws 450
             (after_warn
                ("Error getting org stats for project " +:+ project_name project +:+ ":")
                e (after_fetch w))))
  ∧ (∀ repos,
       fetched (remote_repositories env (fetches w)
                  (repositoriesRequest this (project_id project) headers))
       = Returned repos →
       (∀ e, sinceDate_toISOString env daysBack = Thrown e → repos ≠ [] →
             getProjectOrgStats env this project daysBack headers w
             = (Returned (synthetic_stats env (draws w)),
                after_draws 450
                  (after_warn
                     ("Error getting org stats for project " +:+ project_name project
                      +:+ ":") e (after_fetch w))))
       ∧ ∀ since, sinceDate_toISOString env daysBack = Returned since →
           (∀ k repo e,
               take 5 repos !! k = Some repo →
               (∀ i earlier, (i < k)%nat → take 5 repos !! i = Some earlier →
                  ¬ raises (commitsAnswer env this project since headers
                              (S (fetches w)) i earlier)
                  ∧ ¬ raises (pullRequestsAnswer env this project headers
                                (S (fetches w)) i earlier)) →
               commitsAnswer env this project since headers (S (fetches w)) k repo
               = Thrown e
               ∨ (¬ raises (commitsAnswer env this project since headers
                              (S (fetches w)) k repo)
                  ∧ pullRequestsAnswer env this project headers (S (fetches w)) k repo
                    = Thrown e) →
               ∃ w', draws w' = draws w
                     ∧ getProjectOrgStats env this project daysBack headers w
                       = (Returned (synthetic_stats env (draws w)),
                          after_draws 450
                            (after_warn
                               ("Error getting org stats for project "
                                +:+ project_name project +:+ ":") e w')))
           ∧ ((∀ i repo, take 5 repos !! i = Some repo →
                 ¬ raises (commitsAnswer env this project since headers
                             (S (fetches w)) i repo)
                 ∧ ¬ raises (pullRequestsAnswer env this project headers
                               (S (fetches w)) i repo)) →
              getProjectOrgStats env this project daysBack headers w
              = (Returned
                   {| os_commits := liveCommitCounts env this project since headers
                                      (S (fetches w)) (take 5 repos);
                      os_prs := livePRCounts env this project headers (S (fetches w))
                                  (take 5 repos);
                      os_workItems := Num <$> synthetic_distribution env 15 30 (draws w) |},
                 after_draws 150
                   {| fetches := (S (fetches w) + 2 * length (take 5 repos))%nat;
                      draws := draws w; console := console w |})))
  ∧ (∀ since first i repo,
       (non_2xx (remote_commits env (2 * i + first)
                   (commitsRequest this (project_id project) (repo_id repo) since headers))
        → commitsAnswer env this project since headers first i repo = Returned [])
       ∧ (∀ e, rejects (remote_commits env (2 * i + first)
                          (commitsRequest this (project_id project) (repo_id repo) since
                             headers)) e
               ↔ commitsAnswer env this project since headers first i repo = Thrown e)
       ∧ (non_2xx (remote_pullrequests env (2 * i + 1 + first)
                     (pullRequestsRequest this (project_id project) (repo_id repo) headers))
          → pullRequestsAnswer env this project headers first i repo = Returned [])
       ∧ (∀ e, rejects (remote_pullrequests env (2 * i + 1 + first)
                          (pullRequestsRequest this (project_id project) (repo_id repo)
                             headers)) e
               ↔ pullRequestsAnswer env this project headers first i repo = Thrown e)).
Proof.
  split.
  { intros e He. apply fetched_rejects in He.
    refine (proj2 (sampler_fallback env this project daysBack headers w e
                     (emptyOrgStats, after_fetch w) _)).
    unfold getProjectOrgStats_try. by rewrite bind_lift_run, getRepositories_run, He. }
  split.
  2: { intros since first i repo. unfold commitsAnswer, pullRequestsAnswer.
       split; [apply fetched_non_2xx|]. split; [intros e; apply fetched_rejects|].
       split; [apply fetched_non_2xx | intros e; apply fetched_rejects]. }
  intros repos Hrepos.
  assert (Htry : getProjectOrgStats_try env this project daysBack headers
                   (emptyOrgStats, w)
                 = (let* _ := forEach (take 5 repos)
                                (sampleRepo env this project daysBack headers) in
                    let* mockWorkItemCounts := lift (generateMockWorkItemStats env) in
                    update (pushWorkItems (Num <$> mockWorkItemCounts)))
                     (emptyOrgStats, after_fetch w)).
  { unfold getProjectOrgStats_try. by rewrite bind_lift_run, getRepositories_run, Hrepos. }
  split.
  { intros e He Hne. destruct repos as [|repo repos]; [contradiction|].
    refine (proj2 (sampler_fallback env this project daysBack headers w e
                     (emptyOrgStats, after_fetch w) _)).
    rewrite Htry. cbn [take forEach]. unfold bind at 1 2.
    by rewrite sampleRepo_run, getCommits_run, He. }
  intros since Hsince. split.
  - intros k repo e Hk Hbefore Hat.
    destruct (sample_loop_raises env this project daysBack since headers (take 5 repos)
                Hsince k repo e emptyOrgStats (after_fetch w) Hk Hbefore Hat)
      as [s Hloop].
    assert (Hthrown : getProjectOrgStats_try env this project daysBack headers
                        (emptyOrgStats, w) = (Thrown e, s)).
    { rewrite Htry. unfold bind at 1. by rewrite Hloop. }
    destruct (sampler_fallback env this project daysBack headers w e s Hthrown)
      as [Hdraws Hrun].
    exists s.2. split; [exact Hdraws | exact Hrun].
  - intros Hanswers. rewrite getProjectOrgStats_run, Htry. unfold bind at 1.
    rewrite (sample_loop_returns env this project daysBack since headers (take 5 repos)
               Hsince emptyOrgStats (after_fetch w) Hanswers).
    rewrite bind_lift_run.
    match goal with
    | |- context [generateMockWorkItemStats env ?w0] =>
        destruct (generators_run env w0) as (_ & _ & ->)
    end.
    reflexivity.
Qed.

Lemma sampling_failure_is_all_synthetic_witness :
  ∃ w', draws w' = draws Sample.world0
        ∧ getProjectOrgStats Sample.second_repo_offline Sample.this Sample.proj 90 []
            Sample.world0
          = (Returned (synthetic_stats Sample.second_repo_offline (draws Sample.world0)),
             after_draws 450
               (after_warn
                  ("Error getting org stats for project "
                   +:+ project_name Sample.proj +:+ ":")
                  (MkError "Failed to fetch") w')).
Proof.
  apply (proj1 (proj2 (proj1 (proj2 (sampling_failure_is_all_synthetic
                  Sample.second_repo_offline Sample.this Sample.proj 90 []
                  Sample.world0))
                [Sample.repoA; Sample.repoB] eq_refl)
                "2025-04-02T00:00:00.000Z" eq_refl)
          1%nat Sample.repoB (MkError "Failed to fetch") eq_refl).
  - intros i earlier Hi Hearlier. destruct i as [|i]; [|lia].
    injection Hearlier as <-. split; intros [e He]; discriminate.
  - left. reflexivity.
Defined.

(** C4 as stated fails: the commit call of the sampled repository fails
    with a status outside 2xx, and the project's contribution is not
    synthetic throughout: it keeps the live pull-request counts (one creator
    with two pull requests) and no commit values at all. *)
Lemma sampling_keeps_live_data_on_non_2xx :
  non_2xx (remote_commits Sample.commits_unavailable 1
             (commitsRequest Sample.this "p1" "r1" "2025-04-02T00:00:00.000Z" []))
  ∧ (getProjectOrgStats Sample.commits_unavailable Sample.this Sample.proj 90 []
       Sample.world0).1
    = Returned {| os_commits := []; os_prs := [Num 2];
                  os_workItems :=
                    Num <$> synthetic_distribution Sample.commits_unavailable 15 30 0 |}
  ∧ (getProjectOrgStats Sample.commits_unavailable Sample.this Sample.proj 90 []
       Sample.world0).1
    ≠ Returned (synthetic_stats Sample.commits_unavailable 0).
Proof.
  split; [eexists; split; reflexivity|]. split; [by vm_compute|].
  vm_compute. discriminate.
Qed.

(** ** The aggregator: one project *)

Lemma analyzeRepo_run (env : Env) (this : Analyzer) (project : Project) (daysBack : Z)
    (userEmail : option string) (headers : list (string * string)) (repo : Repository)
    (pm : ProjectMetrics) (w : World) :
  analyzeRepo env this project daysBack userEmail headers repo (pm, w)
  = match getCommits env this (project_id project) (repo_id repo) userEmail daysBack
            headers w with
    | (Thrown e, w1) => (Thrown e, (pm, w1))
    | (Returned commits, w1) =>
        match getPullRequests env this (project_id project) (repo_id repo) daysBack
                headers w1 with
        | (Thrown e, w2) => (Thrown e, (pm, w2))
        | (Returned prs, w2) =>
            (Returned (),
             (recordRepo project repo
                (Z.of_nat (length (filterCommitsByUser env commits userEmail)))
                (Z.of_nat (length prs)) pm, w2))
        end
    end.
Proof.
  unfold analyzeRepo. rewrite bind_lift_run.
  destruct (getCommits _ _ _ _ _ _ _ w) as [[commits|e] w1]; [|reflexivity].
  rewrite bind_lift_run.
  destruct (getPullRequests _ _ _ _ _ _ w1) as [[prs|e] w2]; reflexivity.
Qed.


Lemma analyzeRepo_workItems (env : Env) (this : Analyzer) (project : Project)
    (daysBack : Z) (userEmail : option string) (headers : list (string * string))
    (repo : Repository) (s : ProjectMetrics * World) :
  pm_workItems (analyzeRepo env this project daysBack userEmail headers repo s).2.1
  = pm_workItems s.1.
Proof.
  destruct s as [pm w]. rewrite analyzeRepo_run.
  destruct (getCommits _ _ _ _ _ _ _ w) as [[commits|e1] w1]; [|reflexivity].
  destruct (getPullRequests _ _ _ _ _ _ w1) as [[prs|e2] w2]; reflexivity.
Qed.

Lemma forEach_analyzeRepo_workItems (env : Env) (this : Analyzer) (project : Project)
    (daysBack : Z) (userEmail : option string) (headers : list (string * string))
    (repos : list Repository) :
  ∀ s, pm_workItems
         (forEach repos (analyzeRepo env this project daysBack userEmail headers) s).2.1
       = pm_workItems s.1.
Proof.
  induction repos as [|repo repos IH]; intros s; [reflexivity|].
  cbn [forEach]. unfold bind.
  assert (H := analyzeRepo_workItems env this project daysBack userEmail headers repo s).
  destruct (analyzeRepo _ _ _ _ _ _ _ s) as [[[]|e] s1]; simpl in *; [rewrite IH|]; exact H.
Qed.

(** Merging the repository table of a project adds its active entries to
    the table and their number to the counter. *)
Lemma map_fold_mergeRepo (stats : gmap string RepoStat) (n : Z)
    (table : gmap string RepoStat) :
  map_fold mergeRepo (n, table) stats
  = (n + Z.of_nat (size (filter (λ entry, isActive entry.2 = true) stats)),
     filter (λ entry, isActive entry.2 = true) stats ∪ table).
Proof.
  apply (map_fold_weak_ind
           (λ r m, r = (n + Z.of_nat (size (filter (λ entry, isActive entry.2 = true) m)),
                        filter (λ entry : string * RepoStat, isActive entry.2 = true) m
                        ∪ table))).
  - rewrite map_filter_empty, map_size_empty, (left_id_L ∅ (∪)). f_equal. lia.
  - intros key st m r Hkey ->. unfold mergeRepo. cbn [fst snd].
    destruct (isActive st) eqn:Ea.
    + rewrite map_filter_insert_True by exact Ea.
      rewrite map_size_insert_None by (apply map_lookup_filter_None; by left).
      rewrite insert_union_l. f_equal. lia.
    + rewrite map_filter_insert_not'; [reflexivity | simpl; congruence |].
      intros y Hy. congruence.
Qed.

Lemma fetchAllMetrics_step_run (env : Env) (this : Analyzer) (daysBack : Z)
    (userEmail : option string) (headers : list (string * string)) (project : Project)
    (metrics : Metrics) (w : World) :
  ∃ pm w1 stats w2,
    analyzeProject env this project daysBack userEmail headers w = (Returned pm, w1)
    ∧ getProjectOrgStats env this project daysBack headers w1 = (Returned stats, w2)
    ∧ fetchAllMetrics_step env this daysBack userEmail headers project (metrics, w)
      = (Returned (), (mergeProject project pm stats metrics, w2)).
Proof.
  destruct (analyzeProject_returns env this project daysBack userEmail headers w)
    as (pm & w1 & Hpm).
  destruct (getProjectOrgStats_returns env this project daysBack headers w1)
    as (stats & w2 & Hstats).
  exists pm, w1, stats, w2. split; [exact Hpm|]. split; [exact Hstats|].
  unfold fetchAllMetrics_step. rewrite bind_lift_run, Hpm, bind_lift_run, Hstats.
  reflexivity.
Qed.

Lemma mergeProject_repoStats (project : Project) (pm : ProjectMetrics) (stats : OrgStats)
    (metrics : Metrics) :
  activeRepos (mergeProject project pm stats metrics)
  = activeRepos metrics
    + Z.of_nat (size (filter (λ entry, isActive entry.2 = true) (pm_repoStats pm)))
  ∧ repoStats (mergeProject project pm stats metrics)
    = filter (λ entry, isActive entry.2 = true) (pm_repoStats pm) ∪ repoStats metrics.
Proof. unfold mergeProject. cbn [activeRepos repoStats]. by rewrite map_fold_mergeRepo. Qed.





(** ** The aggregator: the whole run *)

Lemma forEach_step_returns (env : Env) (this : Analyzer) (daysBack : Z)
    (userEmail : option string) (headers : list (string * string))
    (projects : list Project) :
  ∀ metrics w, ∃ metrics' w',
    forEach projects (fetchAllMetrics_step env this daysBack userEmail headers)
      (metrics, w)
    = (Returned (), (metrics', w')).
Proof.
  induction projects as [|project projects IH]; intros metrics w.
  - by exists metrics, w.
  - destruct (fetchAllMetrics_step_run env this daysBack userEmail headers project
                metrics w) as (pm & w1 & stats & w2 & _ & _ & Hstep).
    destruct (IH (mergeProject project pm stats metrics) w2) as (m' & w' & Hrest).
    exists m', w'. cbn [forEach]. unfold bind. rewrite Hstep. exact Hrest.
Qed.

Lemma getProjects_run (env : Env) (this : Analyzer) (headers : list (string * string))
    (w : World) :
  getProjects env this headers w
  = (match remote_projects env (fetches w) (http_get (projectsUrl this) headers) with
     | NetworkError e => Thrown e
     | Responded r =>
         if negb (resp_ok r)
         then Thrown (MkError ("Failed to fetch projects: " +:+ resp_statusText r))
         else match resp_body r with
              | Malformed e => Thrown e
              | Parsed field => Returned (or_empty field)
              end
     end,
     after_fetch (after_log ("Fetching projects from: " +:+ projectsUrl this) w)).
Proof.
  unfold getProjects, bind, console_log, fetch, after_fetch, after_log.
  cbn [fetches draws console].
  destruct (remote_projects env (fetches w) _) as [e|r]; [reflexivity|].
  destruct (resp_ok r); simpl; [|reflexivity].
  unfold response_json. destruct (resp_body r); reflexivity.
Qed.

(** When [btoa] raises on the token, the run raises that error before any
    call is made. *)
Lemma fetchAllMetrics_unencoded (env : Env) (this : Analyzer) (daysBack : Z)
    (userEmail : option string) (token : string) (w : World) (e : Error) :
  btoa env (":" +:+ token) = Thrown e →
  fetchAllMetrics env this daysBack userEmail token w = (Thrown e, before_projects this w).
Proof.
  intros Hbtoa. unfold fetchAllMetrics. unfold bind at 1 2 3. unfold console_log at 1 2 3.
  cbn [fetches draws console]. unfold bind at 1. unfold platform. by rewrite Hbtoa.
Qed.

Lemma fetchAllMetrics_run (env : Env) (this : Analyzer) (daysBack : Z)
    (userEmail : option string) (token : string) (w : World) (encoded : string) :
  btoa env (":" +:+ token) = Returned encoded →
  fetchAllMetrics env this daysBack userEmail token w
  = match getProjects env this (requestHeaders encoded) (before_projects this w) with
    | (Thrown e, w1) => (Thrown e, w1)
    | (Returned projects, w1) =>
        match forEach projects
                (fetchAllMetrics_step env this daysBack userEmail
                   (requestHeaders encoded)) (emptyMetrics, w1) with
        | (Returned _, (metrics, w2)) =>
            (Returned (setPercentiles (calculatePercentiles metrics userEmail) metrics),
             w2)
        | (Thrown e, (_, w2)) => (Thrown e, w2)
        end
    end.
Proof.
  intros Hbtoa.
  unfold fetchAllMetrics. unfold bind at 1 2 3. unfold console_log at 1 2 3.
  fold (after_log ("Using organization: " +:+ organization this) w).
  cbn [fetches draws console].
  unfold bind at 1. unfold platform. rewrite Hbtoa.
  unfold bind at 1. unfold before_projects, after_log. cbn [fetches draws console].
  destruct (getProjects _ _ _ _) as [[projects|e] w1]; [|reflexivity].
  unfold bind, with_local.
  destruct (forEach _ _ _) as [[[]|e] [metrics w2]]; reflexivity.
Qed.

(** The run is made with the headers that hold the encoded token: what
    follows the three log lines is [btoa], then the project-list call. *)
Ltac run_fetchAllMetrics :=
  match goal with
  | |- context [fetchAllMetrics ?env ?this ?d ?u ?token ?w] =>
      let e := fresh "e" in
      let Hbtoa := fresh "Hbtoa" in
      destruct (btoa env (":" +:+ token)) as [encoded|e] eqn:Hbtoa;
      [rewrite (fetchAllMetrics_run env this d u token w encoded Hbtoa)
      |rewrite (fetchAllMetrics_unencoded env this d u token w e Hbtoa)]
  end.

(** C7. When the project-list call answers with a status outside 2xx, the
    whole run raises an error whose message carries the status text of the
    response, and nothing between the call and the caller catches it. It is
    the only call whose failure ends the run: once the project list has
    been fetched, the run returns a snapshot whatever the other calls do.
    The call is the one made with the headers of the encoded token. *)
Theorem project_list_failure_aborts (env : Env) (this : Analyzer) (daysBack : Z)
    (userEmail : option string) (token : string) (w : World) (encoded : string)
    (r : Response Project) :
  btoa env (":" +:+ token) = Returned encoded →
  remote_projects env (fetches w) (http_get (projectsUrl this) (requestHeaders encoded))
  = Responded r →
  (resp_ok r = false →
   ∃ w', fetchAllMetrics env this daysBack userEmail token w
         = (Thrown (MkError ("Failed to fetch projects: " +:+ resp_statusText r)), w'))
  ∧ (∀ field, resp_ok r = true → resp_body r = Parsed field →
     ∃ metrics w', fetchAllMetrics env this daysBack userEmail token w
                   = (Returned metrics, w')).
Proof.
  intros Hbtoa Hr. split.
  - intros Hok. rewrite (fetchAllMetrics_run _ _ _ _ _ _ _ Hbtoa), getProjects_run.
    change (fetches (before_projects this w)) with (fetches w).
    rewrite Hr, Hok. simpl. eauto.
  - intros field Hok Hbody.
    rewrite (fetchAllMetrics_run _ _ _ _ _ _ _ Hbtoa), getProjects_run.
    change (fetches (before_projects this w)) with (fetches w).
    rewrite Hr, Hok, Hbody. cbn [negb].
    destruct (forEach_step_returns env this daysBack userEmail (requestHeaders encoded)
                (or_empty field) emptyMetrics
                (after_fetch (after_log ("Fetching projects from: " +:+ projectsUrl this)
                                (before_projects this w))))
      as (metrics & w' & ->).
    eauto.
Qed.

Lemma project_list_failure_aborts_witness :
  (fetchAllMetrics Sample.unauthorized Sample.this 90 Sample.user "token" Sample.world0).1
  = Thrown (MkError "Failed to fetch projects: Unauthorized")
  ∧ ∃ metrics w',
      fetchAllMetrics Sample.second_repo_offline Sample.this 90 Sample.user "token"
        Sample.world0 = (Returned metrics, w').
Proof.
  split.
  - destruct (proj1 (project_list_failure_aborts Sample.unauthorized Sample.this 90
                       Sample.user "token" Sample.world0 ":token" _ eq_refl eq_refl)
                     eq_refl) as [w' ->].
    reflexivity.
  - exact (proj2 (project_list_failure_aborts Sample.second_repo_offline Sample.this 90
                    Sample.user "token" Sample.world0 ":token" _ eq_refl eq_refl)
                 (Some [Sample.proj]) eq_refl eq_refl).
Defined.

(** ** Active repositories *)

Lemma isActive_spec (stats : RepoStat) :
  isActive stats = true ↔ 0 < rs_commits stats ∨ 0 < rs_prs stats.
Proof.
  unfold isActive. rewrite orb_true_iff, !Z.ltb_lt. reflexivity.
Qed.

Lemma elem_of_repoKeys (entry : ProjectEntry) (key : string) :
  key ∈ repoKeys entry ↔ is_Some (pm_repoStats (pe_metrics entry) !! key).
Proof.
  unfold repoKeys. rewrite list_elem_of_fmap. split.
  - intros ([k st] & -> & Hin). apply elem_of_map_to_list in Hin. by exists st.
  - intros [st Hst]. exists (key, st). split; [reflexivity|].
    by apply elem_of_map_to_list.
Qed.

Lemma keys_unique_app (entries more : list ProjectEntry) :
  keys_unique (entries ++ more) →
  keys_unique entries
  ∧ ∀ key, key ∈ concat (map repoKeys entries) → key ∉ concat (map repoKeys more).
Proof.
  unfold keys_unique. rewrite map_app, concat_app. intros H.
  apply NoDup_app in H as (H1 & H2 & _). split; [exact H1 | exact H2].
Qed.

Lemma snapshot_inv_empty : snapshot_inv emptyMetrics.
Proof.
  unfold snapshot_inv, emptyMetrics. cbn [activeRepos repoStats projects].
  split; [by rewrite map_size_empty|]. split; [apply map_Forall_empty|].
  split.
  - intros key [st Hst]. by rewrite lookup_empty in Hst.
  - intros entry key st Hin. by apply elem_of_nil in Hin.
Qed.

Lemma snapshot_inv_mergeProject (project : Project) (pm : ProjectMetrics)
    (stats : OrgStats) (metrics : Metrics) :
  snapshot_inv metrics →
  keys_unique (projects (mergeProject project pm stats metrics)) →
  snapshot_inv (mergeProject project pm stats metrics).
Proof.
  intros (Hcount & Hall & Hkeys & Hkept) Huniq.
  set (entry := {| pe_name := project_name project; pe_metrics := pm |}).
  assert (Hprojects : projects (mergeProject project pm stats metrics)
                      = projects metrics ++ [entry]) by reflexivity.
  rewrite Hprojects in Huniq. apply keys_unique_app in Huniq as [_ Hdisj].
  assert (Hfresh : ∀ key, is_Some (pm_repoStats pm !! key) → repoStats metrics !! key = None).
  { intros key Hsome. destruct (repoStats metrics !! key) as [st|] eqn:E; [|reflexivity].
    exfalso. apply (Hdisj key); [apply Hkeys; by exists st|].
    cbn [map concat]. rewrite app_nil_r. by apply elem_of_repoKeys. }
  set (new := filter (λ e : string * RepoStat, isActive e.2 = true) (pm_repoStats pm)).
  assert (Hnew : ∀ key st, new !! key = Some st ↔
                           pm_repoStats pm !! key = Some st ∧ isActive st = true).
  { intros key st. unfold new. by rewrite map_lookup_filter_Some. }
  assert (Hd : new ##ₘ repoStats metrics).
  { apply map_disjoint_spec. intros key st1 st2 H1 H2.
    apply Hnew in H1 as [H1 _]. rewrite Hfresh in H2 by (by exists st1). discriminate. }
  destruct (mergeProject_repoStats project pm stats metrics) as [Ha Hr].
  unfold snapshot_inv. rewrite Ha, Hr, Hprojects. fold new.
  split; [|split; [|split]].
  - rewrite map_size_disj_union by exact Hd. lia.
  - apply map_Forall_union; [exact Hd|]. split; [|exact Hall].
    intros key st Hst. by apply Hnew in Hst as [_ Hst].
  - intros key Hsome. rewrite map_app, concat_app. apply elem_of_app.
    apply lookup_union_is_Some in Hsome as [[st Hst] | Hsome].
    + right. cbn [map concat]. rewrite app_nil_r. apply elem_of_repoKeys.
      apply Hnew in Hst as [Hst _]. by exists st.
    + left. by apply Hkeys.
  - intros entry' key st Hin Hst Hactive.
    apply elem_of_app in Hin as [Hin | Hin].
    + rewrite lookup_union_r; [by apply (Hkept entry')|].
      destruct (new !! key) as [st'|] eqn:E; [|reflexivity]. exfalso.
      apply Hnew in E as [E _].
      apply (Hdisj key).
      * apply list_elem_of_In, in_concat. exists (repoKeys entry'). split.
        -- apply in_map. by apply list_elem_of_In.
        -- apply list_elem_of_In, elem_of_repoKeys. by exists st.
      * cbn [map concat]. rewrite app_nil_r. apply elem_of_repoKeys. by exists st'.
    + apply list_elem_of_singleton in Hin as ->. cbn [pe_metrics entry] in Hst.
      apply lookup_union_Some_l. by apply Hnew.
Qed.

Lemma forEach_step_projects (env : Env) (this : Analyzer) (daysBack : Z)
    (userEmail : option string) (headers : list (string * string))
    (projs : list Project) :
  ∀ metrics w metrics' w',
    forEach projs (fetchAllMetrics_step env this daysBack userEmail headers) (metrics, w)
    = (Returned (), (metrics', w')) →
    ∃ more, projects metrics' = projects metrics ++ more.
Proof.
  induction projs as [|project projs IH]; intros metrics w metrics' w' H.
  - injection H as <- <-. exists []. by rewrite app_nil_r.
  - cbn [forEach] in H. unfold bind in H.
    destruct (fetchAllMetrics_step_run env this daysBack userEmail headers project
                metrics w) as (pm & w1 & stats & w2 & _ & _ & Hstep).
    rewrite Hstep in H. apply IH in H as [more Hmore].
    exists ({| pe_name := project_name project; pe_metrics := pm |} :: more).
    rewrite Hmore. cbn [mergeProject projects]. by rewrite <- app_assoc.
Qed.

Lemma forEach_step_inv (env : Env) (this : Analyzer) (daysBack : Z)
    (userEmail : option string) (headers : list (string * string))
    (projs : list Project) :
  ∀ metrics w metrics' w',
    forEach projs (fetchAllMetrics_step env this daysBack userEmail headers) (metrics, w)
    = (Returned (), (metrics', w')) →
    snapshot_inv metrics → keys_unique (projects metrics') → snapshot_inv metrics'.
Proof.
  induction projs as [|project projs IH]; intros metrics w metrics' w' H Hinv Huniq.
  - by injection H as <- <-.
  - cbn [forEach] in H. unfold bind in H.
    destruct (fetchAllMetrics_step_run env this daysBack userEmail headers project
                metrics w) as (pm & w1 & stats & w2 & _ & _ & Hstep).
    rewrite Hstep in H.
    destruct (forEach_step_projects _ _ _ _ _ _ _ _ _ _ H) as [more Hmore].
    apply (IH _ _ _ _ H); [|exact Huniq].
    apply snapshot_inv_mergeProject; [exact Hinv|].
    rewrite Hmore in Huniq. by apply keys_unique_app in Huniq as [Huniq _].
Qed.

(** C6, as amended. In every snapshot that [fetchAllMetrics] produces and
    in which no repository key was recorded by two projects (the keys
    [project/repo] are unique, as they are when the project names are
    pairwise distinct and hold no [/]): the count of active repositories
    is the number of entries of [repoStats] with commits > 0 or pull
    requests > 0, and a repository that a project recorded is in the
    active set with its counts exactly when its commits or its pull requests
    are positive. *)
Theorem active_repositories_counted (env : Env) (this : Analyzer) (daysBack : Z)
    (userEmail : option string) (token : string) (w : World) (metrics : Metrics)
    (w' : World) :
  fetchAllMetrics env this daysBack userEmail token w = (Returned metrics, w') →
  keys_unique (projects metrics) →
  activeRepos metrics = countActiveEntries (repoStats metrics)
  ∧ ∀ entry key stats,
      entry ∈ projects metrics →
      pm_repoStats (pe_metrics entry) !! key = Some stats →
      (repoStats metrics !! key = Some stats ↔ 0 < rs_commits stats ∨ 0 < rs_prs stats).
Proof.
  run_fetchAllMetrics; [|discriminate].
  destruct (getProjects _ _ _ _) as [[projs|e] w1]; [|discriminate].
  destruct (forEach _ _ _) as [[[]|e] [m w2]] eqn:Eloop; [|discriminate].
  intros [= <- <-]. cbn [setPercentiles projects activeRepos repoStats]. intros Huniq.
  destruct (forEach_step_inv _ _ _ _ _ _ _ _ _ _ Eloop snapshot_inv_empty Huniq)
    as (Hcount & Hall & _ & Hkept).
  split.
  - rewrite Hcount. unfold countActiveEntries. f_equal. f_equal. symmetry.
    apply map_filter_id. intros key st Hst. apply isActive_spec. by apply (Hall key).
  - intros entry key st Hin Hst. rewrite <- isActive_spec. split.
    + intros Hm. by apply (Hall key).
    + by apply (Hkept entry).
Qed.

Lemma active_repositories_counted_witness :
  fetchAllMetrics Sample.scenario Sample.this 90 Sample.user "token" Sample.world0
  = (Returned Sample.scenario_snapshot, Sample.scenario_run.2)
  ∧ keys_unique (projects Sample.scenario_snapshot)
  ∧ totalCommits Sample.scenario_snapshot = 3
  ∧ totalPRs Sample.scenario_snapshot = 1
  ∧ activeRepos Sample.scenario_snapshot = 1
  ∧ activeRepos Sample.scenario_snapshot
    = countActiveEntries (repoStats Sample.scenario_snapshot).
Proof.
  assert (E : fetchAllMetrics Sample.scenario Sample.this 90 Sample.user "token"
                Sample.world0
              = (Returned Sample.scenario_snapshot, Sample.scenario_run.2))
    by (vm_compute; reflexivity).
  assert (Hu : keys_unique (projects Sample.scenario_snapshot)).
  { unfold keys_unique. apply (bool_decide_unpack _). vm_compute. reflexivity. }
  split; [exact E|]. split; [exact Hu|].
  split; [by vm_compute|]. split; [by vm_compute|]. split; [by vm_compute|].
  exact (proj1 (active_repositories_counted Sample.scenario Sample.this 90 Sample.user
                  "token" Sample.world0 Sample.scenario_snapshot Sample.scenario_run.2 E Hu)).
Defined.

(** C6 as stated fails: two projects of one name, each with a repository
    [A] that has commits, record the same key; the table holds one entry
    and the count of active repositories is 2. *)
Lemma same_key_counted_twice :
  ∃ metrics w',
    fetchAllMetrics Sample.namesakes Sample.this 90 None "token" Sample.world0
    = (Returned metrics, w')
    ∧ activeRepos metrics = 2
    ∧ countActiveEntries (repoStats metrics) = 1
    ∧ activeRepos metrics ≠ countActiveEntries (repoStats metrics).
Proof.
  eexists _, _. split; [vm_compute; reflexivity|].
  split; [reflexivity|]. split; [by vm_compute|]. by vm_compute.
Qed.

(** ** The lookback window *)

Lemma bind_ext {St A B} (c c' : M St A) (k k' : A → M St B) (s : St) :
  c s = c' s → (∀ a s1, k a s1 = k' a s1) →
  (let* x := c in k x) s = (let* x := c' in k' x) s.
Proof.
  intros Hc Hk. unfold bind. rewrite Hc.
  destruct (c' s) as [[a|e] s1]; [apply Hk | reflexivity].
Qed.

Lemma forEach_ext {St A} (f g : A → M St ()) (l : list A) :
  (∀ x s, f x s = g x s) → ∀ s, forEach l f s = forEach l g s.
Proof.
  intros Hfg. induction l as [|x l IH]; intros s; [reflexivity|].
  cbn [forEach]. apply bind_ext; [apply Hfg | intros _ s1; apply IH].
Qed.

Lemma lift_ext {L A} (c c' : M World A) (s : L * World) :
  c s.2 = c' s.2 → lift c s = lift c' s.
Proof. intros H. unfold lift. by rewrite H. Qed.

Section Lookback.
Context (env : Env) (this : Analyzer) (d1 d2 : Z) (since1 since2 : string).
Hypothesis date1 : sinceDate_toISOString env d1 = Returned since1.
Hypothesis date2 : sinceDate_toISOString env d2 = Returned since2.
Hypothesis commits_fixed : ∀ n projectId repoId headers,
  remote_commits env n (commitsRequest this projectId repoId since1 headers)
  = remote_commits env n (commitsRequest this projectId repoId since2 headers).
Hypothesis wiql_fixed : ∀ n projectId email headers,
  remote_wiql env n (wiqlRequest env this projectId email since1 headers)
  = remote_wiql env n (wiqlRequest env this projectId email since2 headers).

Lemma getCommits_lookback (projectId repoId : string) (userEmail : option string)
    (headers : list (string * string)) (w : World) :
  getCommits env this projectId repoId userEmail d1 headers w
  = getCommits env this projectId repoId userEmail d2 headers w.
Proof. by rewrite !getCommits_run, date1, date2, commits_fixed. Qed.

Lemma getWorkItems_lookback (projectId email : string)
    (headers : list (string * string)) (w : World) :
  getWorkItems env this projectId email d1 headers w
  = getWorkItems env this projectId email d2 headers w.
Proof. by rewrite !getWorkItems_run, date1, date2, wiql_fixed. Qed.

Lemma analyzeProject_lookback (project : Project) (userEmail : option string)
    (headers : list (string * string)) (w : World) :
  analyzeProject env this project d1 userEmail headers w
  = analyzeProject env this project d2 userEmail headers w.
Proof.
  rewrite !analyzeProject_run.
  assert (H : ∀ s, analyzeProject_try env this project d1 userEmail headers s
                   = analyzeProject_try env this project d2 userEmail headers s).
  { intros s. unfold analyzeProject_try. apply bind_ext; [reflexivity|].
    intros repos s1. apply bind_ext.
    - apply forEach_ext. intros repo [pm w0]. rewrite !analyzeRepo_run.
      by rewrite getCommits_lookback.
    - intros _ s2. destruct (truthy userEmail); [|reflexivity].
      apply bind_ext; [|reflexivity]. apply lift_ext, getWorkItems_lookback. }
  by rewrite H.
Qed.

Lemma getProjectOrgStats_lookback (project : Project) (headers : list (string * string))
    (w : World) :
  getProjectOrgStats env this project d1 headers w
  = getProjectOrgStats env this project d2 headers w.
Proof.
  rewrite !getProjectOrgStats_run.
  assert (H : ∀ s, getProjectOrgStats_try env this project d1 headers s
                   = getProjectOrgStats_try env this project d2 headers s).
  { intros s. unfold getProjectOrgStats_try. apply bind_ext; [reflexivity|].
    intros repos s1. apply bind_ext; [|reflexivity].
    apply forEach_ext. intros repo s2. unfold sampleRepo.
    apply bind_ext; [|reflexivity]. apply lift_ext, getCommits_lookback. }
  by rewrite H.
Qed.

Lemma fetchAllMetrics_lookback (userEmail : option string) (token : string) (w : World) :
  fetchAllMetrics env this d1 userEmail token w
  = fetchAllMetrics env this d2 userEmail token w.
Proof.
  destruct (btoa env (":" +:+ token)) as [encoded|e] eqn:Hbtoa;
    [|by rewrite !(fetchAllMetrics_unencoded _ _ _ _ _ _ _ Hbtoa)].
  rewrite !(fetchAllMetrics_run _ _ _ _ _ _ _ Hbtoa).
  destruct (getProjects _ _ _ _) as [[projs|e] w1]; [|reflexivity].
  assert (H : ∀ s, forEach projs
                     (fetchAllMetrics_step env this d1 userEmail (requestHeaders encoded)) s
                   = forEach projs
                       (fetchAllMetrics_step env this d2 userEmail (requestHeaders encoded))
                       s).
  { apply forEach_ext. intros project s. unfold fetchAllMetrics_step.
    apply bind_ext; [apply lift_ext, analyzeProject_lookback|].
    intros pm s1. apply bind_ext; [apply lift_ext, getProjectOrgStats_lookback|].
    reflexivity. }
  by rewrite H.
Qed.

End Lookback.

(** C10, as amended. The pull-request fetch does not depend on the
    lookback window: the request it issues and what it returns are the
    same for any two windows (the request has no date criterion). Hence,
    for any two windows that both lead to a date (the text of the date is
    taken before the commits are asked for, and raises when the days lead
    out of the range of dates), when the answers to the calls whose
    requests do carry the window (commits and work items) are the same
    for the two windows, the two runs are equal, and so are their
    pull-request totals, per-repository pull-request counts, active
    repositories and pull-request distributions. *)
Theorem pull_requests_ignore_lookback (env : Env) (this : Analyzer) (d1 d2 : Z) :
  (∀ projectId repoId headers,
      getPullRequests env this projectId repoId d1 headers
      = getPullRequests env this projectId repoId d2 headers)
  ∧ (∀ since1 since2,
       sinceDate_toISOString env d1 = Returned since1 →
       sinceDate_toISOString env d2 = Returned since2 →
       (∀ n projectId repoId headers,
           remote_commits env n (commitsRequest this projectId repoId since1 headers)
           = remote_commits env n (commitsRequest this projectId repoId since2 headers)) →
       (∀ n projectId email headers,
           remote_wiql env n (wiqlRequest env this projectId email since1 headers)
           = remote_wiql env n (wiqlRequest env this projectId email since2 headers)) →
       ∀ userEmail token w m1 m2 w1 w2,
         fetchAllMetrics env this d1 userEmail token w = (Returned m1, w1) →
         fetchAllMetrics env this d2 userEmail token w = (Returned m2, w2) →
         totalPRs m1 = totalPRs m2
         ∧ activeRepos m1 = activeRepos m2
         ∧ repoStats m1 = repoStats m2
         ∧ projects m1 = projects m2
         ∧ allPRs (orgStats m1) = allPRs (orgStats m2)).
Proof.
  split; [reflexivity|].
  intros since1 since2 Hd1 Hd2 Hc Hw userEmail token w m1 m2 w1 w2 H1 H2.
  rewrite (fetchAllMetrics_lookback env this d1 d2 since1 since2 Hd1 Hd2 Hc Hw) in H1.
  rewrite H1 in H2. by injection H2 as <- <-.
Qed.

Lemma pull_requests_ignore_lookback_witness :
  commitsRequest Sample.this "p1" "r1" "2025-06-01T00:00:00.000Z" []
  ≠ commitsRequest Sample.this "p1" "r1" "2025-04-02T00:00:00.000Z" []
  ∧ totalPRs Sample.scenario_snapshot
    = totalPRs (match (fetchAllMetrics Sample.scenario Sample.this 30 Sample.user "token"
                         Sample.world0).1 with
                | Returned metrics => metrics
                | Thrown _ => emptyMetrics
                end).
Proof.
  split; [discriminate|].
  assert (E1 : fetchAllMetrics Sample.scenario Sample.this 90 Sample.user "token"
                 Sample.world0
               = (Returned Sample.scenario_snapshot, Sample.scenario_run.2))
    by (vm_compute; reflexivity).
  destruct (fetchAllMetrics Sample.scenario Sample.this 30 Sample.user "token"
              Sample.world0) as [[m2|e] w2] eqn:E2; [|by vm_compute in E2].
  exact (proj1 (proj2 (pull_requests_ignore_lookback Sample.scenario Sample.this 90 30)
                  "2025-04-02T00:00:00.000Z" "2025-06-01T00:00:00.000Z" eq_refl eq_refl
                  (λ _ _ _ _, eq_refl) (λ _ _ _ _, eq_refl)
                  Sample.user "token" Sample.world0 _ _ _ _ E1 E2)).
Defined.

(** C10 as stated fails: with the same remote answers, a lookback of 90
    days counts the pull request of repository A and a lookback of
    200000000 days, which leads out of the range of dates, counts none:
    the commit fetcher raises before the pull requests are asked for, and
    the sampler falls back to synthetic pull-request values. *)
Lemma lookback_out_of_range_drops_pull_requests :
  ∃ m1 w1 m2 w2,
    fetchAllMetrics Sample.scenario Sample.this 90 Sample.user "token" Sample.world0
    = (Returned m1, w1)
    ∧ fetchAllMetrics Sample.scenario Sample.this 200000000 Sample.user "token"
        Sample.world0
      = (Returned m2, w2)
    ∧ totalPRs m1 = 1 ∧ totalPRs m2 = 0
    ∧ activeRepos m1 = 1 ∧ activeRepos m2 = 0
    ∧ allPRs (orgStats m1) = [Num 1]
    ∧ allPRs (orgStats m2) = Num <$> synthetic_distribution Sample.scenario 10 25 150.
Proof.
  eexists _, _, _, _. split; [vm_compute; reflexivity|].
  split; [vm_compute; reflexivity|]. repeat split; by vm_compute.
Qed.

(** ** The percentiles of a snapshot *)

Lemma forEach_local_inv {L A} (P : L → Prop) (f : A → M (L * World) ()) (l : list A) :
  (∀ x s, P s.1 → P (f x s).2.1) → ∀ s, P s.1 → P (forEach l f s).2.1.
Proof.
  intros Hf. induction l as [|x l IH]; intros s Hs; [exact Hs|].
  cbn [forEach]. unfold bind. specialize (Hf x s Hs).
  destruct (f x s) as [[[]|e] s1]; simpl in *; [by apply IH | exact Hf].
Qed.

Lemma remaining_positive (values : list Z) :
  Forall (λ v, 0 < v) values → remaining values = values.
Proof.
  unfold remaining. induction 1 as [|v l Hv _ IH]; [reflexivity|]. simpl.
  rewrite IH. by destruct (Z.eqb_spec v 0); [lia|].
Qed.

Lemma omap_length_le {A B} (f : A → option B) (l : list A) :
  (length (omap f l) ≤ length l)%nat.
Proof. induction l as [|x l IH]; cbn; [lia|]. destruct (f x); cbn; lia. Qed.

(** The percentile of a distribution of counts and texts against the
    percentile rank of its positive numbers. *)
Lemma percentile_ranks (distribution : list Count) (userValue : Z) :
  Z.of_nat (length distribution) < 2 ^ 32 →
  ranks (percentile distribution userValue) (omap positiveCount distribution) userValue.
Proof.
  intros Hlen. unfold ranks, percentile, percentile_exact, rank.
  assert (Hle := omap_length_le positiveCount distribution).
  rewrite (remaining_positive _ (positive_counts_positive distribution)).
  assert (Hshort : Z.of_nat (length (omap positiveCount distribution)) < 2 ^ 32) by lia.
  destruct (getPercentile_exact _ userValue Hshort) as [H | (_ & _ & Ht & H)];
    [by left | by right].
Qed.

(** X1. The three percentiles attached to a snapshot are the percentile
    ranks, by the formula of the specification in the rationals, of the
    user's three totals among the positive numbers of the three
    organization-wide distributions of that snapshot (an entry that is not
    a positive number is left out: a zero, or the text that the counting
    makes of an author named like a function of every object), except that
    at a rank exactly halfway between two integers the percentile may be
    one less. The distributions have fewer than 2^32 entries, as any
    array. *)
Theorem snapshot_percentiles_are_spec (env : Env) (this : Analyzer) (daysBack : Z)
    (userEmail : option string) (token : string) (w : World) (metrics : Metrics)
    (w' : World) :
  fetchAllMetrics env this daysBack userEmail token w = (Returned metrics, w') →
  Z.of_nat (length (allCommits (orgStats metrics))) < 2 ^ 32 →
  Z.of_nat (length (allPRs (orgStats metrics))) < 2 ^ 32 →
  Z.of_nat (length (allWorkItems (orgStats metrics))) < 2 ^ 32 →
  ∃ p, percentiles metrics = Some p
       ∧ ranks (pc_commits p) (omap positiveCount (allCommits (orgStats metrics)))
               (totalCommits metrics)
       ∧ ranks (pc_prs p) (omap positiveCount (allPRs (orgStats metrics)))
               (totalPRs metrics)
       ∧ ranks (pc_workItems p) (omap positiveCount (allWorkItems (orgStats metrics)))
               (totalWorkItems metrics).
Proof.
  run_fetchAllMetrics; [|discriminate].
  destruct (getProjects _ _ _ _) as [[projs|e] w1]; [|discriminate].
  destruct (forEach _ _ _) as [[[]|e] [m w2]]; [|discriminate].
  intros [= <- <-]. cbn [setPercentiles percentiles orgStats totalCommits totalPRs
                         totalWorkItems].
  intros Hc Hp Hw. eexists. split; [reflexivity|].
  unfold calculatePercentiles. cbn [pc_commits pc_prs pc_workItems].
  split; [by apply percentile_ranks|]. split; by apply percentile_ranks.
Qed.

Lemma snapshot_percentiles_are_spec_witness :
  ∃ p, percentiles Sample.scenario_snapshot = Some p
       ∧ ranks (pc_commits p)
               (omap positiveCount (allCommits (orgStats Sample.scenario_snapshot)))
               (totalCommits Sample.scenario_snapshot)
       ∧ ranks (pc_prs p)
               (omap positiveCount (allPRs (orgStats Sample.scenario_snapshot)))
               (totalPRs Sample.scenario_snapshot)
       ∧ ranks (pc_workItems p)
               (omap positiveCount (allWorkItems (orgStats Sample.scenario_snapshot)))
               (totalWorkItems Sample.scenario_snapshot).
Proof.
  assert (E : fetchAllMetrics Sample.scenario Sample.this 90 Sample.user "token"
                Sample.world0
              = (Returned Sample.scenario_snapshot, Sample.scenario_run.2))
    by (vm_compute; reflexivity).
  exact (snapshot_percentiles_are_spec Sample.scenario Sample.this 90 Sample.user "token"
           Sample.world0 Sample.scenario_snapshot Sample.scenario_run.2 E
           ltac:(by vm_compute) ltac:(by vm_compute) ltac:(by vm_compute)).
Defined.

(** ** Repository keys are unique when project names are *)

Lemma key_project_unique (p1 p2 r1 r2 : string) :
  no_slash p1 = true → no_slash p2 = true →
  p1 +:+ "/" +:+ r1 = p2 +:+ "/" +:+ r2 → p1 = p2.
Proof.
  revert p2. induction p1 as [|c1 p1 IH]; intros [|c2 p2] H1 H2 Heq; simpl in *.
  - reflexivity.
  - injection Heq as <- _. apply andb_true_iff in H2 as [H2 _]. discriminate.
  - injection Heq as -> _. apply andb_true_iff in H1 as [H1 _]. discriminate.
  - injection Heq as -> Heq. apply andb_true_iff in H1 as [_ H1].
    apply andb_true_iff in H2 as [_ H2]. f_equal. by apply IH.
Qed.

Lemma analyzeRepo_keys (env : Env) (this : Analyzer) (project : Project) (daysBack : Z)
    (userEmail : option string) (headers : list (string * string)) (repo : Repository)
    (s : ProjectMetrics * World) :
  keys_of_project (project_name project) s.1 →
  keys_of_project (project_name project)
    (analyzeRepo env this project daysBack userEmail headers repo s).2.1.
Proof.
  destruct s as [pm w]. intros Hpm. rewrite analyzeRepo_run.
  destruct (getCommits _ _ _ _ _ _ _ w) as [[commits|e1] w1]; [|exact Hpm].
  destruct (getPullRequests _ _ _ _ _ _ w1) as [[prs|e2] w2]; [|exact Hpm].
  intros key st. cbn [snd fst recordRepo pm_repoStats]. rewrite lookup_insert.
  case_decide as Hk; [|apply Hpm]. intros _. exists (repo_name repo). by rewrite <- Hk.
Qed.

Lemma analyzeProject_keys (env : Env) (this : Analyzer) (project : Project)
    (daysBack : Z) (userEmail : option string) (headers : list (string * string))
    (w : World) (pm : ProjectMetrics) (w' : World) :
  analyzeProject env this project daysBack userEmail headers w = (Returned pm, w') →
  keys_of_project (project_name project) pm.
Proof.
  rewrite analyzeProject_run.
  assert (Hempty : keys_of_project (project_name project) emptyProjectMetrics).
  { intros key st H. cbn [emptyProjectMetrics pm_repoStats] in H.
    by rewrite lookup_empty in H. }
  assert (Htry : keys_of_project (project_name project)
                   (analyzeProject_try env this project daysBack userEmail headers
                      (emptyProjectMetrics, w)).2.1).
  { unfold analyzeProject_try. rewrite bind_lift_run.
    destruct (getRepositories _ _ _ _ w) as [[repos|e] w1]; [|exact Hempty].
    unfold bind at 1.
    assert (Hloop := forEach_local_inv (keys_of_project (project_name project))
                       (analyzeRepo env this project daysBack userEmail headers) repos
                       (analyzeRepo_keys env this project daysBack userEmail headers)
                       (emptyProjectMetrics, w1) Hempty).
    destruct (forEach repos _ _) as [[[]|e] [pm2 w2]]; [|exact Hloop].
    destruct (truthy userEmail); [|exact Hloop].
    rewrite bind_lift_run.
    destruct (getWorkItems _ _ _ _ _ _ w2) as [[items|e] w3]; exact Hloop. }
  destruct (analyzeProject_try _ _ _ _ _ _ _) as [[[]|e] s]; by intros [= <- <-].
Qed.

Lemma forEach_step_entries (env : Env) (this : Analyzer) (daysBack : Z)
    (userEmail : option string) (headers : list (string * string))
    (projs : list Project) :
  ∀ metrics w metrics' w',
    forEach projs (fetchAllMetrics_step env this daysBack userEmail headers) (metrics, w)
    = (Returned (), (metrics', w')) →
    ∃ entries,
      projects metrics' = projects metrics ++ entries
      ∧ Forall2 (λ project entry,
                   pe_name entry = project_name project
                   ∧ keys_of_project (project_name project) (pe_metrics entry))
                projs entries.
Proof.
  induction projs as [|project projs IH]; intros metrics w metrics' w' H.
  - injection H as <- <-. exists []. rewrite app_nil_r. split; [reflexivity | constructor].
  - cbn [forEach] in H. unfold bind in H.
    destruct (fetchAllMetrics_step_run env this daysBack userEmail headers project
                metrics w) as (pm & w1 & stats & w2 & Hpm & _ & Hstep).
    rewrite Hstep in H. apply IH in H as (entries & Hentries & Hall).
    exists ({| pe_name := project_name project; pe_metrics := pm |} :: entries).
    split.
    + rewrite Hentries. cbn [mergeProject projects]. by rewrite <- app_assoc.
    + constructor; [|exact Hall]. split; [reflexivity|].
      by apply (analyzeProject_keys _ _ _ _ _ _ _ _ _ Hpm).
Qed.

Lemma keys_unique_entries (projs : list Project) (entries : list ProjectEntry) :
  NoDup (project_name <$> projs) →
  Forall (λ project, no_slash (project_name project) = true) projs →
  Forall2 (λ project entry,
             pe_name entry = project_name project
             ∧ keys_of_project (project_name project) (pe_metrics entry))
          projs entries →
  keys_unique entries.
Proof.
  intros Hnodup Hslash Hall. unfold keys_unique.
  induction Hall as [|project entry projs entries [_ Hkeys] Hall IH]; [constructor|].
  cbn [map concat]. apply NoDup_cons in Hnodup as [Hfresh Hnodup].
  apply Forall_cons in Hslash as [Hp Hslash].
  apply NoDup_app. split; [apply NoDup_fst_map_to_list|]. split; [|by apply IH].
  intros key Hkey Hin.
  apply elem_of_repoKeys in Hkey as [st Hst]. apply Hkeys in Hst as [repo ->].
  apply Hfresh. clear IH Hnodup Hfresh.
  induction Hall as [|project' entry' projs entries [_ Hkeys'] Hall IH];
    [by apply elem_of_nil in Hin|].
  cbn [map concat] in Hin. apply Forall_cons in Hslash as [Hp' Hslash].
  apply elem_of_app in Hin as [Hin | Hin].
  - apply elem_of_repoKeys in Hin as [st' Hst']. apply Hkeys' in Hst' as [repo' Heq].
    apply key_project_unique in Heq as ->; [|assumption..]. simpl. apply list_elem_of_here.
  - simpl. apply list_elem_of_further. by apply IH.
Qed.

(** X2. When the project list of the organization (fetched with the
    headers of the encoded token) has pairwise distinct names without the
    separator, no repository key of the snapshot is recorded by two
    projects. *)
Lemma keys_unique_of_distinct_projects (env : Env) (this : Analyzer) (daysBack : Z)
    (userEmail : option string) (token : string) (w : World) (metrics : Metrics)
    (w' : World) (encoded : string) (projs : list Project) (w1 : World) :
  btoa env (":" +:+ token) = Returned encoded →
  getProjects env this (requestHeaders encoded) (before_projects this w)
  = (Returned projs, w1) →
  NoDup (project_name <$> projs) →
  Forall (λ project, no_slash (project_name project) = true) projs →
  fetchAllMetrics env this daysBack userEmail token w = (Returned metrics, w') →
  keys_unique (projects metrics).
Proof.
  intros Hbtoa Hprojs Hnodup Hslash.
  rewrite (fetchAllMetrics_run _ _ _ _ _ _ _ Hbtoa), Hprojs.
  destruct (forEach _ _ _) as [[[]|e] [m w2]] eqn:Eloop; [|discriminate].
  intros [= <- <-]. cbn [setPercentiles projects].
  apply forEach_step_entries in Eloop as (entries & Hentries & Hall).
  rewrite Hentries. cbn [emptyMetrics projects app].
  by apply (keys_unique_entries projs).
Qed.

Lemma keys_unique_of_distinct_projects_witness :
  keys_unique (projects Sample.scenario_snapshot).
Proof.
  assert (E0 : getProjects Sample.scenario Sample.this (requestHeaders ":token")
                 (before_projects Sample.this Sample.world0)
               = (Returned [Sample.proj],
                  (getProjects Sample.scenario Sample.this (requestHeaders ":token")
                     (before_projects Sample.this Sample.world0)).2))
    by (vm_compute; reflexivity).
  assert (E : fetchAllMetrics Sample.scenario Sample.this 90 Sample.user "token"
                Sample.world0
              = (Returned Sample.scenario_snapshot, Sample.scenario_run.2))
    by (vm_compute; reflexivity).
  assert (Hnames : NoDup (project_name <$> [Sample.proj]))
    by (apply NoDup_singleton).
  assert (Hslash : Forall (λ project, no_slash (project_name project) = true)
                          [Sample.proj])
    by (constructor; [reflexivity | constructor]).
  exact (keys_unique_of_distinct_projects Sample.scenario Sample.this 90 Sample.user
           "token" Sample.world0 Sample.scenario_snapshot Sample.scenario_run.2
           ":token" [Sample.proj] _ eq_refl E0 Hnames Hslash E).
Defined.

(** * Further properties of the code *)

(** ** The percentile engine: order, zero entries, extremes *)

Lemma filter_Permutation_list {A} (f : A → bool) (l1 l2 : list A) :
  l1 ≡ₚ l2 → List.filter f l1 ≡ₚ List.filter f l2.
Proof.
  induction 1 as [|x l1 l2 _ IH|x y l|l1 l2 l3 _ IH1 _ IH2]; simpl.
  - reflexivity.
  - destruct (f x); [by constructor | exact IH].
  - destruct (f x), (f y); try reflexivity. apply perm_swap.
  - by etrans.
Qed.

Lemma getPercentile_Permutation (values1 values2 : list Z) (userValue : Z) :
  values1 ≡ₚ values2 → getPercentile values1 userValue = getPercentile values2 userValue.
Proof.
  intros Hp. destruct values1 as [|v1 vs1].
  { apply Permutation_nil_l in Hp as ->. reflexivity. }
  destruct values2 as [|v2 vs2]; [by apply Permutation_nil_r in Hp|].
  destruct (Z.eq_dec userValue 0) as [->|Hu].
  { by rewrite !getPercentile_zero_cases by (by right). }
  rewrite !getPercentile_unfold by done.
  rewrite (filter_length_Permutation _ _ _ Hp), (Permutation_length Hp). reflexivity.
Qed.

(** X3. The percentile depends only on which positive values the distribution
    holds and how often: reordering the distribution, or adding and
    removing entries that are not positive numbers, does not change it. *)
Theorem percentile_of_positive_multiset (d1 d2 : list Count) (userValue : Z) :
  omap positiveCount d1 ≡ₚ omap positiveCount d2 →
  percentile d1 userValue = percentile d2 userValue.
Proof. intros Hp. unfold percentile. by apply getPercentile_Permutation. Qed.

Lemma percentile_of_positive_multiset_witness :
  percentile [Num 0; Num 3; Num 1] 2
  = percentile [Num 1; Num 0; NativeText "Object" 1; Num 3] 2.
Proof.
  apply percentile_of_positive_multiset. cbn. apply perm_swap.
Defined.

Section Extremes.
Local Open Scope Q_scope.

Lemma round64_Qeq (x y : Q) : 0 <= x → x == y → round64 x == round64 y.
Proof.
  intros Hx Hxy. apply Qle_antisym; apply round64_mono; lra.
Qed.

Lemma percentage_full (len : Z) :
  (0 < len)%Z → Math_round (num_mul (num_div (inject_Z len) (inject_Z len)) 100) = 100%Z.
Proof.
  intros Hl.
  assert (Hl' : 0 < inject_Z len) by (change 0 with (inject_Z 0); rewrite <- Zlt_Qlt; lia).
  assert (H1 : inject_Z len / inject_Z len == 1) by (field; lra).
  assert (Hd : num_div (inject_Z len) (inject_Z len) == 1).
  { unfold num_div. rewrite <- round64_1. apply round64_Qeq; lra. }
  assert (Hm : num_mul (num_div (inject_Z len) (inject_Z len)) 100 == 100).
  { unfold num_mul. rewrite <- round64_100 at 2. apply round64_Qeq; lra. }
  unfold Math_round. rewrite Hm. reflexivity.
Qed.

Lemma percentage_none (len : Z) :
  (0 < len)%Z → Math_round (num_mul (num_div (inject_Z 0) (inject_Z len)) 100) = 0%Z.
Proof.
  intros Hl.
  assert (Hl' : 0 < inject_Z len) by (change 0 with (inject_Z 0); rewrite <- Zlt_Qlt; lia).
  assert (H0 : inject_Z 0 / inject_Z len == 0) by (field; lra).
  assert (Hd : num_div (inject_Z 0) (inject_Z len) == 0).
  { unfold num_div. rewrite <- round64_0. apply round64_Qeq; lra. }
  assert (Hm : num_mul (num_div (inject_Z 0) (inject_Z len)) 100 == 0).
  { unfold num_mul. rewrite <- round64_0. apply round64_Qeq; lra. }
  unfold Math_round. rewrite Hm. reflexivity.
Qed.

End Extremes.

(** X4. The extremes of the rank: when every value is strictly below the user
    value (and there is a value), [getPercentile] is 100; when no value is
    strictly below it, [getPercentile] is 0, so equal values do not count
    as lower. *)
Theorem getPercentile_extremes (values : list Z) (userValue : Z) :
  (values ≠ [] → userValue ≠ 0 → Forall (λ v, v < userValue) values →
   getPercentile values userValue = 100)
  ∧ (Forall (λ v, userValue ≤ v) values → getPercentile values userValue = 0).
Proof.
  split.
  - intros Hv Hu Hall. rewrite getPercentile_unfold by done.
    assert (Hf : List.filter (λ v, v <? userValue) values = values).
    { clear Hv. induction Hall as [|v l Hlt _ IH]; [reflexivity|].
      simpl. rewrite IH. by apply Z.ltb_lt in Hlt as ->. }
    rewrite Hf. apply percentage_full. destruct values; [done | simpl; lia].
  - intros Hall. destruct values as [|v vs].
    { by apply getPercentile_zero_cases; left. }
    destruct (Z.eq_dec userValue 0) as [->|Hu].
    { by apply getPercentile_zero_cases; right. }
    rewrite getPercentile_unfold by done.
    assert (Hf : List.filter (λ x, x <? userValue) (v :: vs) = []).
    { induction Hall as [|x l Hle _ IH]; [reflexivity|].
      simpl. rewrite IH. destruct (Z.ltb_spec x userValue); [lia | reflexivity]. }
    rewrite Hf. apply percentage_none. simpl. lia.
Qed.

Lemma getPercentile_extremes_witness :
  getPercentile [2; 5; 3] 6 = 100 ∧ getPercentile [2; 5; 3] 2 = 0.
Proof.
  split.
  - apply (proj1 (getPercentile_extremes [2; 5; 3] 6)); [done | lia |].
    repeat constructor; lia.
  - apply (proj2 (getPercentile_extremes [2; 5; 3] 2)). repeat constructor; lia.
Defined.

(** ** Grouping by author *)

Lemma plain_key_prototype (key : string) : plain_key key → Object_prototype key = None.
Proof.
  unfold plain_key, inherited_property_names, Object_prototype. intros Hplain.
  destruct (String.eqb_spec key "__proto__") as [->|Hproto].
  { exfalso. apply Hplain, list_elem_of_here. }
  case_bool_decide as Hin; [|reflexivity].
  exfalso. by apply Hplain, list_elem_of_further.
Qed.

Lemma countOf_increment (key email : string) (userCounts : list (string * Count)) :
  Object_prototype key = None →
  countOf email (increment key userCounts)
  = if String.eqb key email
    then Some (match countOf key userCounts with
               | Some value => plus_one value
               | None => Num 1
               end)
    else countOf email userCounts.
Proof.
  intros Hplain. induction userCounts as [|[k v] rest IH]; cbn [increment countOf].
  - rewrite Hplain. cbn [countOf]. destruct (String.eqb_spec key email); reflexivity.
  - destruct (String.eqb_spec k key) as [->|Hk]; cbn [countOf].
    + destruct (String.eqb_spec key email); reflexivity.
    + rewrite IH. destruct (String.eqb_spec k email) as [->|Hke].
      * destruct (String.eqb_spec key email); [congruence | reflexivity].
      * reflexivity.
Qed.

Lemma increment_keys (key : string) (userCounts : list (string * Count)) :
  Object_prototype key = None →
  (increment key userCounts).*1
  = if decide (key ∈ userCounts.*1) then userCounts.*1 else userCounts.*1 ++ [key].
Proof.
  intros Hplain. induction userCounts as [|[k v] rest IH].
  - cbn [increment]. rewrite Hplain.
    destruct (decide (key ∈ ([] : list (string * Count)).*1)) as [Hin|Hin]; [|reflexivity].
    by apply elem_of_nil in Hin.
  - cbn [increment]. rewrite fmap_cons. cbn [fst].
    destruct (String.eqb_spec k key) as [->|Hk].
    + rewrite fmap_cons. cbn [fst].
      destruct (decide (key ∈ key :: rest.*1)) as [Hin|Hin]; [reflexivity|].
      exfalso. apply Hin, list_elem_of_here.
    + rewrite fmap_cons, IH. cbn [fst].
      destruct (decide (key ∈ rest.*1)) as [Hin|Hin];
        destruct (decide (key ∈ k :: rest.*1)) as [Hin'|Hin']; try reflexivity.
      * exfalso. by apply Hin', list_elem_of_further.
      * apply elem_of_cons in Hin' as [?|?]; congruence.
Qed.

Lemma increment_NoDup (key : string) (userCounts : list (string * Count)) :
  Object_prototype key = None →
  NoDup userCounts.*1 → NoDup (increment key userCounts).*1.
Proof.
  intros Hplain H. rewrite increment_keys by exact Hplain. case_decide as Hin; [exact H|].
  apply NoDup_app. split; [exact H|]. split; [|apply NoDup_singleton].
  intros x Hx ->%list_elem_of_singleton. contradiction.
Qed.

(** Under a key that is not inherited, an object of numbers stays an
    object of numbers, and their sum grows by one. *)
Lemma increment_numbers (key : string) (userCounts : list (string * Count))
    (counts : list Z) :
  Object_prototype key = None →
  userCounts.*2 = Num <$> counts →
  ∃ counts', (increment key userCounts).*2 = Num <$> counts'
             ∧ sum_counts counts' = sum_counts counts + 1
             ∧ (Forall (λ n, 1 ≤ n) counts → Forall (λ n, 1 ≤ n) counts').
Proof.
  intros Hplain. revert counts.
  induction userCounts as [|[k v] rest IH]; intros counts Hcounts.
  - destruct counts; [|discriminate]. exists [1]. cbn [increment]. rewrite Hplain.
    split; [reflexivity|]. split; [reflexivity|]. intros _. repeat constructor. lia.
  - destruct counts as [|n counts]; [discriminate|].
    rewrite !fmap_cons in Hcounts. cbn [snd] in Hcounts. injection Hcounts as -> Hrest.
    cbn [increment]. destruct (String.eqb k key).
    + exists (n + 1 :: counts). rewrite !fmap_cons. cbn [snd plus_one].
      split; [by rewrite Hrest|]. unfold sum_counts. cbn [foldr]. split; [lia|].
      intros [Hn Hall]%Forall_cons. constructor; [lia | exact Hall].
    + destruct (IH counts Hrest) as (counts' & Hvalues & Hsum & Hpos).
      exists (n :: counts'). rewrite !fmap_cons. cbn [snd].
      split; [by rewrite Hvalues|]. unfold sum_counts in *. cbn [foldr]. split; [lia|].
      intros [Hn Hall]%Forall_cons. constructor; [exact Hn | by apply Hpos].
Qed.

Lemma occurrences_snoc (email key : string) (keys : list string) :
  occurrences email (keys ++ [key])
  = occurrences email keys + (if String.eqb key email then 1 else 0).
Proof.
  unfold occurrences. rewrite List.filter_app, length_app. simpl.
  rewrite (String.eqb_sym email key). destruct (String.eqb key email); simpl; lia.
Qed.

Lemma occurrences_nonneg (email : string) (keys : list string) : 0 ≤ occurrences email keys.
Proof. unfold occurrences. lia. Qed.

(** [Object.values] lists every value once. *)
Lemma Object_values_Permutation (userCounts : list (string * Count)) :
  Object_values userCounts ≡ₚ userCounts.*2.
Proof.
  unfold Object_values. rewrite merge_sort_Permutation.
  induction userCounts as [|[key value] rest IH]; [reflexivity|].
  cbn [omap list_omap List.filter fst snd].
  destruct (arrayIndex key) as [index|]; cbn [fmap option_fmap option_map].
  - rewrite !fmap_cons. cbn [snd app]. by apply perm_skip.
  - rewrite !fmap_cons. cbn [snd]. rewrite <- Permutation_middle. by apply perm_skip.
Qed.

Lemma Permutation_numbers (values : list Count) (counts : list Z) :
  values ≡ₚ Num <$> counts → ∃ counts', values = Num <$> counts' ∧ counts' ≡ₚ counts.
Proof.
  intros Hp. symmetry in Hp. revert values Hp.
  induction counts as [|n counts IH]; intros values Hp.
  - rewrite fmap_nil in Hp. apply Permutation_nil_l in Hp. subst values. by exists [].
  - rewrite fmap_cons in Hp.
    assert (Hin : Num n ∈ values) by (rewrite <- Hp; apply list_elem_of_here).
    apply list_elem_of_split in Hin as (before & after & ->).
    rewrite <- Permutation_middle in Hp. apply Permutation_cons_inv in Hp.
    destruct (IH _ Hp) as (counts' & Hvalues & Hperm).
    symmetry in Hvalues. apply fmap_app_inv in Hvalues as (c1 & c2 & Hc1 & Hc2 & ->).
    exists (c1 ++ n :: c2). split.
    + rewrite fmap_app, fmap_cons. by rewrite Hc1, Hc2.
    + rewrite <- Permutation_middle. by apply perm_skip.
Qed.

Lemma sum_counts_Permutation (counts1 counts2 : list Z) :
  counts1 ≡ₚ counts2 → sum_counts counts1 = sum_counts counts2.
Proof.
  unfold sum_counts.
  induction 1 as [|x l1 l2 _ IH|x y l|l1 l2 l3 _ IH1 _ IH2]; cbn [foldr]; lia.
Qed.

(** What counting a list of keys one by one gives, when no key is a name
    that the object inherits: every key once, under it the number of its
    occurrences, no key that does not occur, and as values numbers from 1
    on that add up to the number of keys. *)
Lemma tally_spec (keys : list string) :
  Forall plain_key keys →
  let userCounts := fold_left (λ counts key, increment key counts) keys [] in
  NoDup userCounts.*1
  ∧ (∀ email, countOf email userCounts
              = if occurrences email keys =? 0 then None
                else Some (Num (occurrences email keys)))
  ∧ ∃ counts, Object_values userCounts = Num <$> counts
              ∧ sum_counts counts = Z.of_nat (length keys)
              ∧ Forall (λ n, 1 ≤ n) counts.
Proof.
  intros Hplain. cbv zeta.
  assert (H : NoDup (fold_left (λ counts key, increment key counts) keys []).*1
              ∧ (∀ email, countOf email
                            (fold_left (λ counts key, increment key counts) keys [])
                          = if occurrences email keys =? 0 then None
                            else Some (Num (occurrences email keys)))
              ∧ ∃ counts, (fold_left (λ counts key, increment key counts) keys []).*2
                          = Num <$> counts
                          ∧ sum_counts counts = Z.of_nat (length keys)
                          ∧ Forall (λ n, 1 ≤ n) counts).
  { induction keys as [|key keys IH] using rev_ind.
    - split; [constructor|]. split; [reflexivity|]. exists [].
      split; [reflexivity|]. split; [reflexivity | constructor].
    - apply Forall_app in Hplain as [Hkeys [Hkey%plain_key_prototype _]%Forall_cons].
      rewrite fold_left_app. cbn [fold_left].
      set (uc := fold_left (λ counts key, increment key counts) keys []) in *.
      destruct (IH Hkeys) as (Hnd & Hcount & counts & Hvalues & Hsum & Hpos).
      split; [by apply increment_NoDup|]. split.
      + intros email. rewrite countOf_increment by exact Hkey. rewrite occurrences_snoc.
        assert (H0 := occurrences_nonneg email keys).
        destruct (String.eqb_spec key email) as [->|Hne].
        * rewrite Hcount. destruct (Z.eqb_spec (occurrences email keys) 0) as [E|E].
          -- rewrite E. reflexivity.
          -- cbn [plus_one].
             destruct (Z.eqb_spec (occurrences email keys + 1) 0); [lia|reflexivity].
        * rewrite Hcount, Z.add_0_r. reflexivity.
      + destruct (increment_numbers key uc counts Hkey Hvalues)
          as (counts' & Hvalues' & Hsum' & Hpos').
        exists counts'. split; [exact Hvalues'|]. split; [|by apply Hpos'].
        rewrite Hsum', Hsum, length_app. simpl. lia. }
  destruct H as (Hnd & Hcount & counts & Hvalues & Hsum & Hpos).
  split; [exact Hnd|]. split; [exact Hcount|].
  destruct (Permutation_numbers (Object_values
              (fold_left (λ counts key, increment key counts) keys [])) counts)
    as (counts' & Hobject & Hperm).
  { rewrite Object_values_Permutation. by rewrite Hvalues. }
  exists counts'. split; [exact Hobject|]. split.
  - by rewrite (sum_counts_Permutation _ _ Hperm).
  - by rewrite Hperm.
Qed.

Lemma groupCommitsByUser_tally (commits : list Commit) :
  groupCommitsByUser commits
  = fold_left (λ counts key, increment key counts) (map authorKey commits) [].
Proof.
  unfold groupCommitsByUser. generalize (@nil (string * Count)).
  induction commits as [|c commits IH]; intros acc; [reflexivity|]. simpl. apply IH.
Qed.

Lemma groupPRsByUser_tally (prs : list PullRequest) :
  groupPRsByUser prs
  = fold_left (λ counts key, increment key counts) (map creatorKey prs) [].
Proof.
  unfold groupPRsByUser. generalize (@nil (string * Count)).
  induction prs as [|pr prs IH]; intros acc; [reflexivity|]. simpl. apply IH.
Qed.

(** X5. [groupCommitsByUser] partitions the commits by author email, a commit
    without a (non-empty) email going to ['unknown']: each author has one
    entry, its count is the number of the author's commits, authors without
    commits have no entry, every value is a number, at least 1, and the
    values add up to the number of commits. Emails are taken not to be
    names that every object inherits (such as [constructor]), under which
    the counting object of the program does not count. *)
Theorem groupCommitsByUser_partitions (commits : list Commit) :
  Forall (λ commit, plain_key (authorKey commit)) commits →
  NoDup (groupCommitsByUser commits).*1
  ∧ (∀ email, countOf email (groupCommitsByUser commits)
              = if occurrences email (map authorKey commits) =? 0 then None
                else Some (Num (occurrences email (map authorKey commits))))
  ∧ ∃ counts, Object_values (groupCommitsByUser commits) = Num <$> counts
              ∧ sum_counts counts = Z.of_nat (length commits)
              ∧ Forall (λ n, 1 ≤ n) counts.
Proof.
  intros Hplain. rewrite groupCommitsByUser_tally.
  destruct (tally_spec (map authorKey commits)) as (H1 & H2 & counts & H3 & H4 & H5).
  { by apply Forall_fmap. }
  rewrite length_map in H4. split; [exact H1|]. split; [exact H2|]. by exists counts.
Qed.

Lemma groupCommitsByUser_partitions_witness :
  countOf "a@x.com" (groupCommitsByUser
     [Sample.commit_by "a@x.com"; {| commit_author := None |}; Sample.commit_by "a@x.com"])
  = Some (Num 2)
  ∧ countOf "unknown" (groupCommitsByUser
     [Sample.commit_by "a@x.com"; {| commit_author := None |}; Sample.commit_by "a@x.com"])
    = Some (Num 1).
Proof.
  assert (H : Forall (λ commit, plain_key (authorKey commit))
                [Sample.commit_by "a@x.com"; {| commit_author := None |};
                 Sample.commit_by "a@x.com"]).
  { repeat constructor; unfold plain_key; by apply (bool_decide_unpack _). }
  destruct (groupCommitsByUser_partitions _ H) as (_ & Hc & _).
  split; rewrite Hc; reflexivity.
Defined.

(** X6. [groupPRsByUser] partitions the pull requests by creator in the same
    way, a pull request without a creator name going to ['unknown']. *)
Theorem groupPRsByUser_partitions (prs : list PullRequest) :
  Forall (λ pr, plain_key (creatorKey pr)) prs →
  NoDup (groupPRsByUser prs).*1
  ∧ (∀ name, countOf name (groupPRsByUser prs)
             = if occurrences name (map creatorKey prs) =? 0 then None
               else Some (Num (occurrences name (map creatorKey prs))))
  ∧ ∃ counts, Object_values (groupPRsByUser prs) = Num <$> counts
              ∧ sum_counts counts = Z.of_nat (length prs)
              ∧ Forall (λ n, 1 ≤ n) counts.
Proof.
  intros Hplain. rewrite groupPRsByUser_tally.
  destruct (tally_spec (map creatorKey prs)) as (H1 & H2 & counts & H3 & H4 & H5).
  { by apply Forall_fmap. }
  rewrite length_map in H4. split; [exact H1|]. split; [exact H2|]. by exists counts.
Qed.

Lemma groupPRsByUser_partitions_witness :
  countOf "a@x.com" (groupPRsByUser
     [Sample.pr_by "a@x.com"; Sample.pr_by "b@x.com"; Sample.pr_by "a@x.com"])
  = Some (Num 2)
  ∧ countOf "b@x.com" (groupPRsByUser
     [Sample.pr_by "a@x.com"; Sample.pr_by "b@x.com"; Sample.pr_by "a@x.com"])
    = Some (Num 1).
Proof.
  assert (H : Forall (λ pr, plain_key (creatorKey pr))
                [Sample.pr_by "a@x.com"; Sample.pr_by "b@x.com"; Sample.pr_by "a@x.com"]).
  { repeat constructor; unfold plain_key; by apply (bool_decide_unpack _). }
  destruct (groupPRsByUser_partitions _ H) as (_ & Hc & _).
  split; rewrite Hc; reflexivity.
Defined.

(** Under the names that every object inherits the program does not
    count: an author named [constructor] leaves a text, one named
    [__proto__] leaves nothing, and an author whose name is a numeral is
    listed first. *)
Example groupCommitsByUser_inherited_names :
  Object_values (groupCommitsByUser
    [Sample.commit_by "constructor"; Sample.commit_by "a@x.com";
     Sample.commit_by "__proto__"; Sample.commit_by "a@x.com";
     Sample.commit_by "7"; Sample.commit_by "a@x.com"])
  = [Num 1; NativeText "Object" 1; Num 3]
  ∧ percentile [NativeText "Object" 1; Num 3] 3 = 0.
Proof. split; by vm_compute. Qed.

(** ** The user filter: composition *)

Lemma filter_idempotent {A} (f : A → bool) (l : list A) :
  List.filter f (List.filter f l) = List.filter f l.
Proof.
  induction l as [|x l IH]; [reflexivity|]. simpl.
  destruct (f x) eqn:E; simpl; rewrite ?E, IH; reflexivity.
Qed.

(** X7. Filtering is idempotent and works commit by commit: filtering a
    filtered list changes nothing, and filtering two lists put end to end
    gives the two filtered lists put end to end (so the count of a user's
    commits adds up over pages or repositories). *)
Theorem filterCommitsByUser_composes (env : Env) (commits1 commits2 : list Commit)
    (userEmail : option string) :
  filterCommitsByUser env (filterCommitsByUser env commits1 userEmail) userEmail
  = filterCommitsByUser env commits1 userEmail
  ∧ filterCommitsByUser env (commits1 ++ commits2) userEmail
    = filterCommitsByUser env commits1 userEmail
      ++ filterCommitsByUser env commits2 userEmail.
Proof.
  unfold filterCommitsByUser. destruct (truthy userEmail); simpl.
  - split; [apply filter_idempotent | apply List.filter_app].
  - by split.
Qed.

(** X8. Matching ignores case on both sides: two non-empty identities with the
    same lower-casing select the same commits. *)
Theorem filterCommitsByUser_case_insensitive (env : Env) (commits : list Commit)
    (identity1 identity2 : string) :
  identity1 ≠ EmptyString → identity2 ≠ EmptyString →
  toLowerCase env identity1 = toLowerCase env identity2 →
  filterCommitsByUser env commits (Some identity1)
  = filterCommitsByUser env commits (Some identity2).
Proof.
  intros H1 H2 Hlower. unfold filterCommitsByUser.
  rewrite (proj2 (truthy_Some identity1) H1), (proj2 (truthy_Some identity2) H2).
  simpl. apply filter_ext. intros c. unfold authoredBy. by rewrite Hlower.
Qed.

Lemma filterCommitsByUser_case_insensitive_witness :
  filterCommitsByUser Sample.quiet Sample.three_commits (Some "USER@X.COM")
  = filterCommitsByUser Sample.quiet Sample.three_commits (Some "user@x.com").
Proof.
  apply filterCommitsByUser_case_insensitive; [discriminate | discriminate | reflexivity].
Defined.

(** ** Request addresses *)

Lemma endsWithSlash_snoc (s : string) : endsWithSlash (s +:+ "/") = true.
Proof.
  induction s as [|c s IH]; [reflexivity|].
  change (String c s +:+ "/") with (String c (s +:+ "/")). cbn [endsWithSlash].
  destruct (s +:+ "/") eqn:E; [|exact IH].
  destruct s; discriminate.
Qed.

Lemma slice_0_minus1_snoc (s : string) : slice_0_minus1 (s +:+ "/") = s.
Proof.
  induction s as [|c s IH]; [reflexivity|].
  change (String c s +:+ "/") with (String c (s +:+ "/")). cbn [slice_0_minus1].
  destruct (s +:+ "/") eqn:E; [destruct s; discriminate|].
  by rewrite IH.
Qed.

(** X9. [getProjects] asks the same address whether or not the base address of
    the organization ends with a slash: one trailing slash is dropped
    before the path is appended, so the address has no doubled slash at the
    join. *)
Theorem projectsUrl_trailing_slash (organizationName base : string) :
  endsWithSlash base = false →
  projectsUrl {| organization := organizationName; baseUrl := base |}
  = base +:+ "/_apis/projects?api-version=6.0"
  ∧ projectsUrl {| organization := organizationName; baseUrl := base +:+ "/" |}
    = base +:+ "/_apis/projects?api-version=6.0".
Proof.
  intros H. unfold projectsUrl. cbn [baseUrl]. rewrite H, endsWithSlash_snoc.
  by rewrite slice_0_minus1_snoc.
Qed.

Lemma projectsUrl_trailing_slash_witness :
  projectsUrl {| organization := "org"; baseUrl := "https://dev.azure.com/org" |}
  = projectsUrl Sample.this.
Proof.
  destruct (projectsUrl_trailing_slash "org" "https://dev.azure.com/org" eq_refl)
    as [H1 H2].
  rewrite H1. symmetry. exact H2.
Defined.

Lemma split_T_0_date (date rest : string) :
  no_T date = true → split_T_0 (date +:+ "T" +:+ rest) = date.
Proof.
  induction date as [|c date IH]; intros H; [reflexivity|].
  simpl in H. apply andb_true_iff in H as [Hc H].
  change (String c date +:+ "T" +:+ rest) with (String c (date +:+ "T" +:+ rest)).
  cbn [split_T_0]. apply negb_true_iff in Hc. rewrite Hc. by rewrite IH.
Qed.

(** X10. The work-item query is by calendar day: asked at two moments whose
    lookback timestamps share the date part (the text before the [T]), the
    program issues the same work-item request, whatever the times of day,
    and so gets the same work items from the same remote. *)
Theorem wiqlRequest_by_day (env1 env2 : Env) (this : Analyzer)
    (projectId userEmail : string) (daysBack : Z) (headers : list (string * string))
    (date time1 time2 : string) :
  JSON_stringify_query env1 = JSON_stringify_query env2 →
  no_T date = true →
  sinceDate_toISOString env1 daysBack = Returned (date +:+ "T" +:+ time1) →
  sinceDate_toISOString env2 daysBack = Returned (date +:+ "T" +:+ time2) →
  wiqlRequest env1 this projectId userEmail (date +:+ "T" +:+ time1) headers
  = wiqlRequest env2 this projectId userEmail (date +:+ "T" +:+ time2) headers
  ∧ (remote_wiql env1 = remote_wiql env2 →
     ∀ w, getWorkItems env1 this projectId userEmail daysBack headers w
          = getWorkItems env2 this projectId userEmail daysBack headers w).
Proof.
  intros Hj Hd H1 H2.
  assert (Hrequest : wiqlRequest env1 this projectId userEmail (date +:+ "T" +:+ time1)
                       headers
                     = wiqlRequest env2 this projectId userEmail (date +:+ "T" +:+ time2)
                         headers).
  { unfold wiqlRequest. by rewrite Hj, !split_T_0_date. }
  split; [exact Hrequest|].
  intros Hremote w. by rewrite !getWorkItems_run, H1, H2, Hrequest, Hremote.
Qed.

Lemma wiqlRequest_by_day_witness :
  wiqlRequest Sample.quiet Sample.this "p1" "user@x.com" "2025-06-01T00:00:00.000Z" []
  = wiqlRequest Sample.evening Sample.this "p1" "user@x.com" "2025-06-01T17:30:00.000Z" [].
Proof.
  exact (proj1 (wiqlRequest_by_day Sample.quiet Sample.evening Sample.this "p1"
                  "user@x.com" 30 [] "2025-06-01" "00:00:00.000Z" "17:30:00.000Z"
                  eq_refl eq_refl eq_refl eq_refl)).
Defined.

(** ** The whole run: failures of the first call, empty organizations *)

(** X11. When the project-list call (made with the headers of the encoded
    token) ends in a network error, or its body cannot be parsed, the run
    raises that very error: nothing is caught, no snapshot is produced,
    and no other call is made. *)
Theorem project_list_rejection_propagates (env : Env) (this : Analyzer) (daysBack : Z)
    (userEmail : option string) (token : string) (w : World) (encoded : string)
    (e : Error) :
  btoa env (":" +:+ token) = Returned encoded →
  rejects (remote_projects env (fetches w)
             (http_get (projectsUrl this) (requestHeaders encoded))) e →
  fetchAllMetrics env this daysBack userEmail token w
  = (Thrown e,
     after_fetch (after_log ("Fetching projects from: " +:+ projectsUrl this)
                    (before_projects this w))).
Proof.
  intros Hbtoa H. rewrite (fetchAllMetrics_run _ _ _ _ _ _ _ Hbtoa), getProjects_run.
  change (fetches (before_projects this w)) with (fetches w).
  destruct H as [-> | (r & -> & Hok & Hbody)]; [reflexivity|].
  by rewrite Hok, Hbody.
Qed.

Lemma project_list_rejection_propagates_witness :
  fetchAllMetrics Sample.no_network Sample.this 90 Sample.user "token" Sample.world0
  = (Thrown (MkError "Failed to fetch"),
     after_fetch (after_log ("Fetching projects from: " +:+ projectsUrl Sample.this)
                    (before_projects Sample.this Sample.world0))).
Proof.
  apply (project_list_rejection_propagates Sample.no_network Sample.this 90 Sample.user
           "token" Sample.world0 ":token"); [reflexivity|]. left. reflexivity.
Defined.

(** X12. An organization without projects (the project-list call, made with
    the headers of the encoded token, gives an empty list or a body
    without the [value] field) gives the empty snapshot: all totals 0, no
    repository, empty distributions and the three percentiles 0, after
    exactly one remote call and no random draw. *)
Theorem empty_organization_snapshot (env : Env) (this : Analyzer) (daysBack : Z)
    (userEmail : option string) (token : string) (w : World) (encoded : string)
    (r : Response Project) (field : option (list Project)) :
  btoa env (":" +:+ token) = Returned encoded →
  remote_projects env (fetches w) (http_get (projectsUrl this) (requestHeaders encoded))
  = Responded r →
  resp_ok r = true → resp_body r = Parsed field → or_empty field = [] →
  fetchAllMetrics env this daysBack userEmail token w
  = (Returned (setPercentiles {| pc_commits := 0; pc_prs := 0; pc_workItems := 0 |}
                 emptyMetrics),
     after_fetch (after_log ("Fetching projects from: " +:+ projectsUrl this)
                    (before_projects this w))).
Proof.
  intros Hbtoa Hr Hok Hbody Hempty.
  rewrite (fetchAllMetrics_run _ _ _ _ _ _ _ Hbtoa), getProjects_run.
  change (fetches (before_projects this w)) with (fetches w).
  rewrite Hr, Hok, Hbody, Hempty. reflexivity.
Qed.

Lemma empty_organization_snapshot_witness :
  fetchAllMetrics Sample.no_value Sample.this 90 Sample.user "token" Sample.world0
  = (Returned (setPercentiles {| pc_commits := 0; pc_prs := 0; pc_workItems := 0 |}
                 emptyMetrics),
     after_fetch (after_log ("Fetching projects from: " +:+ projectsUrl Sample.this)
                    (before_projects Sample.this Sample.world0))).
Proof.
  apply (empty_organization_snapshot Sample.no_value Sample.this 90 Sample.user "token"
           Sample.world0 ":token" _ None eq_refl eq_refl eq_refl eq_refl eq_refl).
Defined.

(** ** The whole run: totals and the list of projects *)

Lemma sum_counts_app (l1 l2 : list Z) :
  sum_counts (l1 ++ l2) = sum_counts l1 + sum_counts l2.
Proof. unfold sum_counts. induction l1 as [|x l1 IH]; simpl; lia. Qed.

Lemma forEach_step_totals (env : Env) (this : Analyzer) (daysBack : Z)
    (userEmail : option string) (headers : list (string * string))
    (projs : list Project) (s : Metrics * World) :
  let P := λ m : Metrics,
    totalCommits m = sum_counts (map (λ entry, pm_commits (pe_metrics entry)) (projects m))
    ∧ totalPRs m = sum_counts (map (λ entry, pm_prs (pe_metrics entry)) (projects m))
    ∧ totalWorkItems m
      = sum_counts (map (λ entry, pm_workItems (pe_metrics entry)) (projects m)) in
  P s.1 →
  P (forEach projs (fetchAllMetrics_step env this daysBack userEmail headers) s).2.1.
Proof.
  intros P. apply forEach_local_inv. clear s. intros project [m w] HP.
  unfold P in HP. cbn [fst] in HP. destruct HP as (Hc & Hp & Hw).
  destruct (fetchAllMetrics_step_run env this daysBack userEmail headers project m w)
    as (pm & w1 & stats & w2 & _ & _ & ->).
  unfold P. cbn [snd fst mergeProject totalCommits totalPRs totalWorkItems projects].
  rewrite !map_app, !sum_counts_app, <- Hc, <- Hp, <- Hw. cbn. lia.
Qed.

(** X13. In every snapshot, the list of projects has one entry per project of
    the organization (as fetched with the headers of the encoded token),
    in the order of the project list and under the project names, and the
    three totals are the sums of the per-project numbers of that list. *)
Theorem snapshot_totals_are_sums (env : Env) (this : Analyzer) (daysBack : Z)
    (userEmail : option string) (token : string) (w : World) (encoded : string)
    (projs : list Project) (w1 : World) (metrics : Metrics) (w' : World) :
  btoa env (":" +:+ token) = Returned encoded →
  getProjects env this (requestHeaders encoded) (before_projects this w)
  = (Returned projs, w1) →
  fetchAllMetrics env this daysBack userEmail token w = (Returned metrics, w') →
  pe_name <$> projects metrics = project_name <$> projs
  ∧ totalCommits metrics
    = sum_counts (map (λ entry, pm_commits (pe_metrics entry)) (projects metrics))
  ∧ totalPRs metrics
    = sum_counts (map (λ entry, pm_prs (pe_metrics entry)) (projects metrics))
  ∧ totalWorkItems metrics
    = sum_counts (map (λ entry, pm_workItems (pe_metrics entry)) (projects metrics)).
Proof.
  intros Hbtoa Hprojs. rewrite (fetchAllMetrics_run _ _ _ _ _ _ _ Hbtoa), Hprojs.
  assert (Htot := forEach_step_totals env this daysBack userEmail
                    (requestHeaders encoded) projs (emptyMetrics, w1)
                    ltac:(by repeat split)).
  destruct (forEach _ _ _) as [[[]|e] [m w2]] eqn:Eloop; [|discriminate].
  intros [= <- <-]. cbn [setPercentiles projects totalCommits totalPRs totalWorkItems].
  split; [|exact Htot].
  apply forEach_step_entries in Eloop as (entries & -> & Hall).
  cbn [emptyMetrics projects app]. clear -Hall.
  induction Hall as [|project entry projs entries [Hn _] _ IH]; [reflexivity|].
  rewrite !fmap_cons. by rewrite Hn, IH.
Qed.

Lemma snapshot_totals_are_sums_witness :
  pe_name <$> projects Sample.scenario_snapshot = ["Proj"]
  ∧ totalCommits Sample.scenario_snapshot
    = sum_counts (map (λ entry, pm_commits (pe_metrics entry))
                      (projects Sample.scenario_snapshot)).
Proof.
  assert (E : fetchAllMetrics Sample.scenario Sample.this 90 Sample.user "token"
                Sample.world0
              = (Returned Sample.scenario_snapshot, Sample.scenario_run.2))
    by (vm_compute; reflexivity).
  destruct (snapshot_totals_are_sums Sample.scenario Sample.this 90 Sample.user "token"
              Sample.world0 ":token" [Sample.proj]
              (after_fetch (after_log ("Fetching projects from: " +:+ projectsUrl Sample.this)
                              (before_projects Sample.this Sample.world0)))
              _ _ eq_refl eq_refl E) as (Hn & Hc & _).
  split; [exact Hn | exact Hc].
Defined.

(** ** The sampler: work items, calls and draws *)

Lemma sampleRepo_workItems (env : Env) (this : Analyzer) (project : Project)
    (daysBack : Z) (headers : list (string * string)) (repo : Repository)
    (s : OrgStats * World) :
  os_workItems s.1 = [] →
  os_workItems (sampleRepo env this project daysBack headers repo s).2.1 = [].
Proof.
  destruct s as [o w]. intros Ho. unfold sampleRepo. rewrite bind_lift_run.
  destruct (getCommits _ _ _ _ _ _ _ w) as [[commits|e] w1]; [|exact Ho].
  rewrite bind_update_run, bind_lift_run.
  destruct (getPullRequests _ _ _ _ _ _ w1) as [[prs|e] w2]; exact Ho.
Qed.

Lemma sampleRepo_fetches (env : Env) (this : Analyzer) (project : Project)
    (daysBack : Z) (headers : list (string * string)) (repo : Repository)
    (s : OrgStats * World) :
  (fetches s.2 ≤ fetches (sampleRepo env this project daysBack headers repo s).2.2
   ≤ fetches s.2 + 2)%nat.
Proof.
  destruct s as [o w]. unfold sampleRepo. rewrite bind_lift_run, getCommits_run.
  destruct (sinceDate_toISOString env daysBack) as [since|e]; [|simpl; lia].
  destruct (fetched (remote_commits _ _ _)) as [commits|e]; [|simpl; lia].
  rewrite bind_update_run, bind_lift_run, getPullRequests_run.
  destruct (fetched (remote_pullrequests _ _ _)) as [prs|e]; simpl; lia.
Qed.

Lemma forEach_fetches {L A} (f : A → M (L * World) ()) (k : nat) (l : list A) :
  (∀ x s, (fetches s.2 ≤ fetches (f x s).2.2 ≤ fetches s.2 + k)%nat) →
  ∀ s, (fetches s.2 ≤ fetches (forEach l f s).2.2 ≤ fetches s.2 + k * length l)%nat.
Proof.
  intros Hf. induction l as [|x l IH]; intros s; [simpl; lia|].
  cbn [forEach]. unfold bind. specialize (Hf x s).
  destruct (f x s) as [[[]|e] s1]; simpl in *; [|lia].
  specialize (IH s1). lia.
Qed.

Lemma sampler_counts (env : Env) (this : Analyzer) (project : Project)
    (daysBack : Z) (headers : list (string * string)) (w : World) :
  ∃ stats w',
    getProjectOrgStats env this project daysBack headers w = (Returned stats, w')
    ∧ (fetches w + 1 ≤ fetches w' ≤ fetches w + 11)%nat
    ∧ (∃ start, os_workItems stats = Num <$> synthetic_distribution env 15 30 start)
    ∧ length (os_workItems stats) = 50%nat
    ∧ (draws w' = draws w + 150 ∨ draws w' = draws w + 450)%nat.
Proof.
  rewrite getProjectOrgStats_run.
  assert (Hdraws := getProjectOrgStats_try_thrown_draws env this project daysBack
                      headers w).
  unfold getProjectOrgStats_try in *. rewrite bind_lift_run in *.
  rewrite getRepositories_run in *.
  destruct (fetched (remote_repositories _ _ _)) as [repos|e].
  2: { eexists _, _. split; [reflexivity|]. cbn [fst snd after_draws after_warn fetches draws
         after_fetch os_workItems].
       split; [lia|]. split; [eauto|]. split; [reflexivity | right; lia]. }
  unfold bind at 1 in Hdraws. unfold bind at 1.
  assert (Hf := forEach_fetches (sampleRepo env this project daysBack headers) 2
                  (take 5 repos)
                  (sampleRepo_fetches env this project daysBack headers)
                  (emptyOrgStats, after_fetch w)).
  assert (Hwi := forEach_local_inv (λ o, os_workItems o = [])
                   (sampleRepo env this project daysBack headers) (take 5 repos)
                   (sampleRepo_workItems env this project daysBack headers)
                   (emptyOrgStats, after_fetch w) eq_refl).
  assert (Hd := forEach_draws (sampleRepo env this project daysBack headers)
                  (take 5 repos) (sampleRepo_draws env this project daysBack headers)
                  (emptyOrgStats, after_fetch w)).
  assert (Hlen : (length (take 5 repos) ≤ 5)%nat) by (rewrite length_take; lia).
  destruct (forEach _ _ _) as [[[]|e] [o2 w2]]; cbn [fst snd] in *.
  - rewrite bind_lift_run. destruct (generators_run env w2) as (_ & _ & ->).
    eexists _, _. split; [reflexivity|].
    cbn [fst snd update pushWorkItems os_workItems after_draws fetches draws after_fetch] in *.
    rewrite Hwi. cbn [app].
    split; [lia|]. split; [eauto|]. split; [reflexivity | left; lia].
  - eexists _, _. split; [reflexivity|].
    cbn [fst snd after_draws after_warn fetches draws after_fetch os_workItems] in *.
    split; [lia|]. split; [eauto|]. split; [reflexivity | right; lia].
Qed.

(** X14. The sampler bounds its traffic and always synthesizes the work items:
    for any project, [getProjectOrgStats] returns after at least 1 and at
    most 11 remote calls (the repository list and two calls for each of the
    first five repositories), however many repositories the project has;
    the work-item values it returns are always 50 synthetic ones (no
    work-item call is made); and it makes 150 random draws, or 450 when it
    falls back. *)
Theorem sampler_is_bounded (env : Env) (this : Analyzer) (project : Project)
    (daysBack : Z) (headers : list (string * string)) (w : World) :
  ∃ stats w',
    getProjectOrgStats env this project daysBack headers w = (Returned stats, w')
    ∧ (fetches w + 1 ≤ fetches w' ≤ fetches w + 11)%nat
    ∧ (∃ start, os_workItems stats = Num <$> synthetic_distribution env 15 30 start)
    ∧ length (os_workItems stats) = 50%nat
    ∧ (draws w' = draws w + 150 ∨ draws w' = draws w + 450)%nat.
Proof.
  destruct (sampler_counts env this project daysBack headers w)
    as (stats & w' & Hrun & Hcalls & Hsynthetic & Hlength & Hdraws).
  exists stats, w'. split; [exact Hrun|]. split; [exact Hcalls|].
  split; [exact Hsynthetic|]. split; [exact Hlength | exact Hdraws].
Qed.

(** X15. The organization-wide work-item distribution of a snapshot has exactly
    50 values for each project of the snapshot, whatever the remote calls
    did. *)
Theorem snapshot_workItem_distribution_size (env : Env) (this : Analyzer) (daysBack : Z)
    (userEmail : option string) (token : string) (w : World) (metrics : Metrics)
    (w' : World) :
  fetchAllMetrics env this daysBack userEmail token w = (Returned metrics, w') →
  length (allWorkItems (orgStats metrics)) = (50 * length (projects metrics))%nat.
Proof.
  run_fetchAllMetrics; [|discriminate].
  destruct (getProjects _ _ _ _) as [[projs|e] w1]; [|discriminate].
  assert (Hloop := forEach_local_inv
            (λ m : Metrics, length (allWorkItems (orgStats m))
                            = (50 * length (projects m))%nat)
            (fetchAllMetrics_step env this daysBack userEmail (requestHeaders encoded))
            projs).
  destruct (forEach _ _ _) as [[[]|e] [m w2]] eqn:Eloop; [|discriminate].
  intros [= <- <-]. cbn [setPercentiles orgStats projects].
  assert (H : length (allWorkItems (orgStats
                (forEach projs (fetchAllMetrics_step env this daysBack userEmail
                                  (requestHeaders encoded)) (emptyMetrics, w1)).2.1))
              = (50 * length (projects
                (forEach projs (fetchAllMetrics_step env this daysBack userEmail
                                  (requestHeaders encoded)) (emptyMetrics, w1)).2.1))%nat).
  { apply Hloop; [|reflexivity]. intros project [m0 w0] Hm0. cbn [fst] in Hm0.
    destruct (fetchAllMetrics_step_run env this daysBack userEmail
                (requestHeaders encoded) project m0 w0)
      as (pm & w3 & stats & w4 & _ & Hstats & ->).
    destruct (sampler_counts env this project daysBack (requestHeaders encoded) w3)
      as (stats' & w4' & Hrun & _ & _ & Hlen & _).
    rewrite Hstats in Hrun. injection Hrun as <- <-.
    cbn [snd fst mergeProject orgStats allWorkItems projects].
    rewrite !length_app, Hm0, Hlen. simpl. lia. }
  rewrite Eloop in H. exact H.
Qed.

Lemma snapshot_workItem_distribution_size_witness :
  length (allWorkItems (orgStats Sample.scenario_snapshot)) = 50%nat.
Proof.
  assert (E : fetchAllMetrics Sample.scenario Sample.this 90 Sample.user "token"
                Sample.world0
              = (Returned Sample.scenario_snapshot, Sample.scenario_run.2))
    by (vm_compute; reflexivity).
  rewrite (snapshot_workItem_distribution_size _ _ _ _ _ _ _ _ E). by vm_compute.
Defined.

(** ** Without an identity *)

Lemma analyzeProject_without_identity (env : Env) (this : Analyzer) (project : Project)
    (daysBack : Z) (userEmail : option string) (headers : list (string * string))
    (wiql : nat → Request → FetchOutcome WorkItem) (w : World) :
  truthy userEmail = false →
  analyzeProject (with_wiql env wiql) this project daysBack userEmail headers w
  = analyzeProject env this project daysBack userEmail headers w
  ∧ ∀ pm w', analyzeProject env this project daysBack userEmail headers w
             = (Returned pm, w') → pm_workItems pm = 0.
Proof.
  intros Hu. split.
  - unfold analyzeProject, analyzeProject_try. rewrite Hu. reflexivity.
  - intros pm w'. rewrite analyzeProject_run.
    assert (Hwi : pm_workItems
                    (analyzeProject_try env this project daysBack userEmail headers
                       (emptyProjectMetrics, w)).2.1 = 0).
    { unfold analyzeProject_try. rewrite bind_lift_run.
      destruct (getRepositories _ _ _ _ w) as [[repos|e] w1]; [|reflexivity].
      unfold bind at 1.
      assert (H := forEach_analyzeRepo_workItems env this project daysBack userEmail
                     headers repos (emptyProjectMetrics, w1)).
      destruct (forEach repos _ _) as [[[]|e] [pm2 w2]]; [|exact H].
      rewrite Hu. exact H. }
    destruct (analyzeProject_try _ _ _ _ _ _ _) as [[[]|e] s]; by intros [= <- <-].
Qed.

Lemma generateMockWorkItemStats_with_wiql (env : Env)
    (wiql : nat → Request → FetchOutcome WorkItem) (w : World) :
  generateMockWorkItemStats (with_wiql env wiql) w = generateMockWorkItemStats env w.
Proof.
  destruct (generators_run (with_wiql env wiql) w) as (_ & _ & ->).
  destruct (generators_run env w) as (_ & _ & ->). reflexivity.
Qed.

Lemma getProjectOrgStats_with_wiql (env : Env) (this : Analyzer) (project : Project)
    (daysBack : Z) (headers : list (string * string))
    (wiql : nat → Request → FetchOutcome WorkItem) (w : World) :
  getProjectOrgStats (with_wiql env wiql) this project daysBack headers w
  = getProjectOrgStats env this project daysBack headers w.
Proof.
  rewrite (getProjectOrgStats_run (with_wiql env wiql)), (getProjectOrgStats_run env).
  assert (H : getProjectOrgStats_try (with_wiql env wiql) this project daysBack headers
                (emptyOrgStats, w)
              = getProjectOrgStats_try env this project daysBack headers (emptyOrgStats, w)).
  { unfold getProjectOrgStats_try. apply bind_ext; [reflexivity|].
    intros repos s1. apply bind_ext; [reflexivity|].
    intros _ s2. apply bind_ext; [|reflexivity].
    apply lift_ext, generateMockWorkItemStats_with_wiql. }
  rewrite H. reflexivity.
Qed.

(** X16. Without an identity (absent or empty), the run never uses the work-item
    endpoint and counts no work item: replacing the endpoint by any other
    leaves the run the same, and the work-item total of the snapshot is 0. *)
Theorem no_identity_no_work_items (env : Env) (this : Analyzer) (daysBack : Z)
    (userEmail : option string) (token : string)
    (wiql : nat → Request → FetchOutcome WorkItem) (w : World) :
  truthy userEmail = false →
  fetchAllMetrics (with_wiql env wiql) this daysBack userEmail token w
  = fetchAllMetrics env this daysBack userEmail token w
  ∧ ∀ metrics w', fetchAllMetrics env this daysBack userEmail token w
                  = (Returned metrics, w') → totalWorkItems metrics = 0.
Proof.
  intros Hu. split.
  - destruct (btoa env (":" +:+ token)) as [encoded|e] eqn:Hbtoa.
    2: { rewrite (fetchAllMetrics_unencoded (with_wiql env wiql) _ _ _ _ _ e Hbtoa),
           (fetchAllMetrics_unencoded env _ _ _ _ _ e Hbtoa). reflexivity. }
    rewrite (fetchAllMetrics_run (with_wiql env wiql) _ _ _ _ _ encoded Hbtoa),
      (fetchAllMetrics_run env _ _ _ _ _ encoded Hbtoa).
    change (getProjects (with_wiql env wiql) this (requestHeaders encoded)
              (before_projects this w))
      with (getProjects env this (requestHeaders encoded) (before_projects this w)).
    destruct (getProjects _ _ _ _) as [[projs|e] w1]; [|reflexivity].
    assert (H : ∀ s, forEach projs
                       (fetchAllMetrics_step (with_wiql env wiql) this daysBack userEmail
                          (requestHeaders encoded)) s
                     = forEach projs
                         (fetchAllMetrics_step env this daysBack userEmail
                            (requestHeaders encoded)) s).
    { apply forEach_ext. intros project s. unfold fetchAllMetrics_step.
      apply bind_ext.
      - apply lift_ext.
        exact (proj1 (analyzeProject_without_identity env this project daysBack userEmail
                        (requestHeaders encoded) wiql s.2 Hu)).
      - intros pm s1. apply bind_ext; [|reflexivity].
        apply lift_ext, getProjectOrgStats_with_wiql. }
    by rewrite H.
  - intros metrics w'. run_fetchAllMetrics; [|discriminate].
    destruct (getProjects _ _ _ _) as [[projs|e] w1]; [|discriminate].
    assert (Hloop := forEach_local_inv (λ m : Metrics, totalWorkItems m = 0)
              (fetchAllMetrics_step env this daysBack userEmail (requestHeaders encoded))
              projs).
    destruct (forEach _ _ _) as [[[]|e] [m w2]] eqn:Eloop; [|discriminate].
    intros [= <- <-]. cbn [setPercentiles totalWorkItems].
    assert (H : totalWorkItems
                  (forEach projs (fetchAllMetrics_step env this daysBack userEmail
                                    (requestHeaders encoded)) (emptyMetrics, w1)).2.1 = 0).
    { apply Hloop; [|reflexivity]. intros project [m0 w0] Hm0. cbn [fst] in Hm0.
      destruct (fetchAllMetrics_step_run env this daysBack userEmail
                  (requestHeaders encoded) project m0 w0)
        as (pm & w3 & stats & w4 & Hpm & _ & ->).
      apply (proj2 (analyzeProject_without_identity env this project daysBack userEmail
                      (requestHeaders encoded) (remote_wiql env) w0 Hu)) in Hpm.
      cbn [snd fst mergeProject totalWorkItems]. lia. }
    rewrite Eloop in H. exact H.
Qed.

Lemma no_identity_no_work_items_witness :
  fetchAllMetrics (with_wiql Sample.scenario (λ _ _, Sample.offline)) Sample.this 90 None
    "token" Sample.world0
  = fetchAllMetrics Sample.scenario Sample.this 90 None "token" Sample.world0.
Proof.
  exact (proj1 (no_identity_no_work_items Sample.scenario Sample.this 90 None "token"
                  (λ _ _, Sample.offline) Sample.world0 eq_refl)).
Defined.

(** ** Pull requests are everybody's *)

Lemma analyzeRepo_same_prs (env : Env) (this : Analyzer) (project : Project)
    (daysBack : Z) (u1 u2 : option string) (headers : list (string * string))
    (repo : Repository) (pm1 pm2 : ProjectMetrics) (w : World) :
  same_prs pm1 pm2 →
  let r1 := analyzeRepo env this project daysBack u1 headers repo (pm1, w) in
  let r2 := analyzeRepo env this project daysBack u2 headers repo (pm2, w) in
  r1.1 = r2.1 ∧ r1.2.2 = r2.2.2 ∧ same_prs r1.2.1 r2.2.1.
Proof.
  intros [Ht Hm]. cbv zeta. rewrite !analyzeRepo_run.
  change (getCommits env this (project_id project) (repo_id repo) u2 daysBack headers w)
    with (getCommits env this (project_id project) (repo_id repo) u1 daysBack headers w).
  destruct (getCommits _ _ _ _ _ _ _ w) as [[commits|e] w1];
    [|split; [reflexivity|]; split; [reflexivity | by split]].
  destruct (getPullRequests _ _ _ _ _ _ w1) as [[prs|e] w2];
    [|split; [reflexivity|]; split; [reflexivity | by split]].
  split; [reflexivity|]. split; [reflexivity|]. cbn [fst snd]. split.
  - cbn [recordRepo pm_prs]. lia.
  - cbn [recordRepo pm_repoStats]. rewrite !fmap_insert. cbn [rs_prs]. by rewrite Hm.
Qed.

Lemma forEach_analyzeRepo_same_prs (env : Env) (this : Analyzer) (project : Project)
    (daysBack : Z) (u1 u2 : option string) (headers : list (string * string))
    (repos : list Repository) :
  ∀ pm1 pm2 w,
    same_prs pm1 pm2 →
    let r1 := forEach repos (analyzeRepo env this project daysBack u1 headers) (pm1, w) in
    let r2 := forEach repos (analyzeRepo env this project daysBack u2 headers) (pm2, w) in
    r1.1 = r2.1 ∧ r1.2.2 = r2.2.2 ∧ same_prs r1.2.1 r2.2.1.
Proof.
  induction repos as [|repo repos IH]; intros pm1 pm2 w H.
  { cbv zeta. cbn. split; [reflexivity|]. split; [reflexivity | exact H]. }
  cbv zeta. cbn [forEach]. unfold bind.
  destruct (analyzeRepo_same_prs env this project daysBack u1 u2 headers repo pm1 pm2 w H)
    as (Hr & Hw & Hs).
  destruct (analyzeRepo env this project daysBack u1 headers repo (pm1, w))
    as [[[]|e1] [pm1' w1]];
    destruct (analyzeRepo env this project daysBack u2 headers repo (pm2, w))
      as [[[]|e2] [pm2' w2]]; cbn [fst snd] in *; try discriminate; subst.
  - by apply IH.
  - split; [exact Hr|]. split; [reflexivity | exact Hs].
Qed.

Lemma analyzeProject_try_same_prs (env : Env) (this : Analyzer) (project : Project)
    (daysBack : Z) (u1 u2 : option string) (headers : list (string * string))
    (w : World) :
  same_prs
    (analyzeProject_try env this project daysBack u1 headers (emptyProjectMetrics, w)).2.1
    (analyzeProject_try env this project daysBack u2 headers (emptyProjectMetrics, w)).2.1.
Proof.
  unfold analyzeProject_try. rewrite !bind_lift_run.
  destruct (getRepositories _ _ _ _ w) as [[repos|e] w1]; [|by split].
  unfold bind at 1 3.
  destruct (forEach_analyzeRepo_same_prs env this project daysBack u1 u2 headers repos
              emptyProjectMetrics emptyProjectMetrics w1 ltac:(by split))
    as (Hr & Hw & Hs).
  destruct (forEach repos (analyzeRepo env this project daysBack u1 headers) _)
    as [[[]|e1] [pm1 w1']];
    destruct (forEach repos (analyzeRepo env this project daysBack u2 headers) _)
      as [[[]|e2] [pm2 w2']]; cbn [fst snd] in *; try discriminate; [|exact Hs].
  assert (Hwi : ∀ u (pm : ProjectMetrics) w0,
            same_prs pm
              ((if truthy u
                then let* workItems := lift (getWorkItems env this (project_id project)
                                               (default EmptyString u) daysBack headers) in
                     update (setWorkItems (Z.of_nat (length workItems)))
                else ret ()) (pm, w0)).2.1).
  { intros u pm w0. destruct (truthy u); [|by split]. rewrite bind_lift_run.
    destruct (getWorkItems _ _ _ _ _ _ w0) as [[items|e] w3]; by split. }
  destruct Hs as [Ht Hm]. destruct (Hwi u1 pm1 w1') as [Ht1 Hm1].
  destruct (Hwi u2 pm2 w2') as [Ht2 Hm2]. split; congruence.
Qed.

(** X17. Pull requests are counted for all users: whatever the identity the
    commits are filtered by, [analyzeProject] returns the same pull-request
    total and the same pull-request count for every repository. *)
Theorem pull_request_counts_ignore_identity (env : Env) (this : Analyzer)
    (project : Project) (daysBack : Z) (u1 u2 : option string)
    (headers : list (string * string)) (w : World) :
  ∃ pm1 w1 pm2 w2,
    analyzeProject env this project daysBack u1 headers w = (Returned pm1, w1)
    ∧ analyzeProject env this project daysBack u2 headers w = (Returned pm2, w2)
    ∧ pm_prs pm1 = pm_prs pm2
    ∧ rs_prs <$> pm_repoStats pm1 = rs_prs <$> pm_repoStats pm2.
Proof.
  assert (H := analyzeProject_try_same_prs env this project daysBack u1 u2 headers w).
  rewrite !analyzeProject_run.
  destruct (analyzeProject_try env this project daysBack u1 headers _) as [[[]|e1] s1];
    destruct (analyzeProject_try env this project daysBack u2 headers _) as [[[]|e2] s2];
    destruct H as [Ht Hm]; eexists _, _, _, _; by repeat split.
Qed.

(** ** Only active repositories enter the table *)

Lemma map_fold_mergeRepo_size (stats : gmap string RepoStat) (n : Z)
    (table : gmap string RepoStat) :
  Z.of_nat (size table) ≤ n →
  Z.of_nat (size (map_fold mergeRepo (n, table) stats).2)
  ≤ (map_fold mergeRepo (n, table) stats).1
  ∧ n ≤ (map_fold mergeRepo (n, table) stats).1.
Proof.
  intros Hn.
  apply (map_fold_weak_ind (λ r (_ : gmap string RepoStat),
                              Z.of_nat (size r.2) ≤ r.1 ∧ n ≤ r.1)); [by split|].
  intros key st m r _ [Hr Hle]. unfold mergeRepo.
  destruct (isActive st); [|by split]. cbn [fst snd].
  rewrite map_size_insert. destruct (r.2 !! key); cbn [id]; lia.
Qed.

Lemma snapshot_table_entries (env : Env) (this : Analyzer) (daysBack : Z)
    (userEmail : option string) (token : string) (w : World) (metrics : Metrics)
    (w' : World) :
  fetchAllMetrics env this daysBack userEmail token w = (Returned metrics, w') →
  (∀ key stats, repoStats metrics !! key = Some stats →
                0 < rs_commits stats ∨ 0 < rs_prs stats)
  ∧ 0 ≤ Z.of_nat (size (repoStats metrics)) ≤ activeRepos metrics.
Proof.
  run_fetchAllMetrics; [|discriminate].
  destruct (getProjects _ _ _ _) as [[projs|e] w1]; [|discriminate].
  set (P := λ m : Metrics,
         map_Forall (λ _ st, isActive st = true) (repoStats m)
         ∧ Z.of_nat (size (repoStats m)) ≤ activeRepos m).
  assert (Hloop := forEach_local_inv P
            (fetchAllMetrics_step env this daysBack userEmail (requestHeaders encoded))
            projs).
  destruct (forEach _ _ _) as [[[]|e] [m w2]] eqn:Eloop; [|discriminate].
  intros [= <- <-]. cbn [setPercentiles repoStats activeRepos].
  assert (H : P (forEach projs (fetchAllMetrics_step env this daysBack userEmail
                                  (requestHeaders encoded)) (emptyMetrics, w1)).2.1).
  { apply Hloop.
    - intros project [m0 w0] [Hall Hsize]. cbn [fst] in *.
      destruct (fetchAllMetrics_step_run env this daysBack userEmail
                  (requestHeaders encoded) project m0 w0)
        as (pm & w3 & stats & w4 & _ & _ & ->).
      unfold P. cbn [snd fst]. split.
      + destruct (mergeProject_repoStats project pm stats m0) as [_ ->].
        intros key st Hst. apply lookup_union_Some_raw in Hst as [Hst | [_ Hst]].
        * by apply map_lookup_filter_Some in Hst as [_ Hst].
        * by apply (Hall key).
      + cbn [mergeProject repoStats activeRepos].
        by apply map_fold_mergeRepo_size.
    - split; [apply map_Forall_empty|]. cbn [fst emptyMetrics repoStats activeRepos].
      by rewrite map_size_empty. }
  rewrite Eloop in H. destruct H as [Hall Hsize]. cbn [snd fst] in *. split.
  - intros key st Hst. apply isActive_spec. by apply (Hall key).
  - lia.
Qed.


(** X18. Whatever the repository keys, the table of a snapshot holds only
    repositories with commits or pull requests, and the count of active
    repositories is never below the size of the table (it exceeds it when
    two projects recorded the same key) and never negative. *)
Theorem snapshot_table_is_active (env : Env) (this : Analyzer) (daysBack : Z)
    (userEmail : option string) (token : string) (w : World) (metrics : Metrics)
    (w' : World) :
  fetchAllMetrics env this daysBack userEmail token w = (Returned metrics, w') →
  (∀ key stats, repoStats metrics !! key = Some stats →
                0 < rs_commits stats ∨ 0 < rs_prs stats)
  ∧ 0 ≤ Z.of_nat (size (repoStats metrics)) ≤ activeRepos metrics.
Proof.
  intros Hrun.
  destruct (snapshot_table_entries env this daysBack userEmail token w metrics w' Hrun)
    as [Hactive Hsize].
  split; [exact Hactive | exact Hsize].
Qed.

Lemma snapshot_table_is_active_witness :
  0 ≤ Z.of_nat (size (repoStats Sample.scenario_snapshot))
  ≤ activeRepos Sample.scenario_snapshot.
Proof.
  assert (E : fetchAllMetrics Sample.scenario Sample.this 90 Sample.user "token"
                Sample.world0
              = (Returned Sample.scenario_snapshot, Sample.scenario_run.2))
    by (vm_compute; reflexivity).
  exact (proj2 (snapshot_table_is_active _ _ _ _ _ _ _ _ E)).
Defined.

(** ** The synthetic values are bounded *)

Section SyntheticBounds.
Local Open Scope Q_scope.

Lemma floor_below (x : Q) (a : Z) : x < inject_Z a → (Qfloor x ≤ a - 1)%Z.
Proof.
  intros H. assert (Hf := Qfloor_le x).
  assert (Hlt : inject_Z (Qfloor x) < inject_Z a) by lra.
  rewrite <- Zlt_Qlt in Hlt. lia.
Qed.

Lemma floor_nonneg (x : Q) : 0 <= x → (0 ≤ Qfloor x)%Z.
Proof. intros Hx. rewrite <- (Qfloor_Z 0). by apply Qfloor_resp_le. Qed.

(** One term of a synthetic value, [floor(u * a)], for a draw [u] below 1,
    given that the largest draw times [a] rounds below [a]. *)
Lemma scaled_draw_bounds (u : Q) (a : Z) :
  (0 ≤ a)%Z → 0 <= u <= below_one →
  round64 (below_one * inject_Z a) < inject_Z a →
  (0 ≤ Math_floor (num_mul u (inject_Z a)) ≤ a - 1)%Z.
Proof.
  intros Ha [Hu0 Hu1] Htop. unfold Math_floor, num_mul.
  assert (Ha' : 0 <= inject_Z a) by (change 0 with (inject_Z 0); by rewrite <- Zle_Qle).
  assert (H0 : 0 <= u * inject_Z a) by (by apply Qmult_le_0_compat).
  split; [by apply floor_nonneg, round64_nonneg|].
  apply floor_below. apply Qle_lt_trans with (round64 (below_one * inject_Z a)); [|exact Htop].
  apply round64_mono; [exact H0|]. by apply Qmult_le_compat_r.
Qed.

Lemma product_draw_bounds (u2 u3 : Q) (b : Z) :
  (0 ≤ b)%Z → 0 <= u2 <= below_one → 0 <= u3 <= below_one →
  round64 (round64 (below_one * below_one) * inject_Z b) < inject_Z b →
  (0 ≤ Math_floor (num_mul (num_mul u2 u3) (inject_Z b)) ≤ b - 1)%Z.
Proof.
  intros Hb [H20 H21] [H30 H31] Htop. unfold Math_floor, num_mul.
  assert (Hb' : 0 <= inject_Z b) by (change 0 with (inject_Z 0); by rewrite <- Zle_Qle).
  assert (Hp0 : 0 <= u2 * u3) by (by apply Qmult_le_0_compat).
  assert (Hone : 0 <= below_one) by lra.
  assert (Hp1 : u2 * u3 <= below_one * below_one) by nra.
  assert (Hr0 := round64_nonneg _ Hp0).
  assert (Hr1 := round64_mono _ _ Hp0 Hp1).
  assert (H0 : 0 <= round64 (u2 * u3) * inject_Z b) by (by apply Qmult_le_0_compat).
  split; [by apply floor_nonneg, round64_nonneg|].
  apply floor_below.
  apply Qle_lt_trans with (round64 (round64 (below_one * below_one) * inject_Z b));
    [|exact Htop].
  apply round64_mono; [exact H0|]. by apply Qmult_le_compat_r.
Qed.

Lemma synthetic_value_bounds (a b : Z) (u1 u2 u3 : Q) :
  (0 ≤ a)%Z → (0 ≤ b)%Z →
  0 <= u1 <= below_one → 0 <= u2 <= below_one → 0 <= u3 <= below_one →
  round64 (below_one * inject_Z a) < inject_Z a →
  round64 (round64 (below_one * below_one) * inject_Z b) < inject_Z b →
  (0 ≤ synthetic_value a b u1 u2 u3 ≤ a + b - 2)%Z.
Proof.
  intros Ha Hb H1 H2 H3 Ta Tb. unfold synthetic_value.
  assert (Hx := scaled_draw_bounds u1 a Ha H1 Ta).
  assert (Hy := product_draw_bounds u2 u3 b Hb H2 H3 Tb). lia.
Qed.

End SyntheticBounds.

(** X19. With a random source that gives binary64 numbers in [0,1) (at most
    1 - 2^-53), every synthetic value is a count within the range of its
    generator: 0..68 for commits, 0..33 for pull requests and 0..43 for work
    items; the rounding of the products never lifts a term to its bound. *)
Theorem synthetic_values_in_range (env : Env) (start : nat) :
  (∀ n, (0 <= Math_random env n <= below_one)%Q) →
  Forall (λ v, 0 ≤ v ≤ 68) (synthetic_distribution env 20 50 start)
  ∧ Forall (λ v, 0 ≤ v ≤ 33) (synthetic_distribution env 10 25 start)
  ∧ Forall (λ v, 0 ≤ v ≤ 43) (synthetic_distribution env 15 30 start).
Proof.
  intros Hrandom. unfold synthetic_distribution.
  repeat split; apply Forall_fmap, Forall_forall; intros i _; simpl.
  - apply (synthetic_value_bounds 20 50); try apply Hrandom; try lia; by vm_compute.
  - apply (synthetic_value_bounds 10 25); try apply Hrandom; try lia; by vm_compute.
  - apply (synthetic_value_bounds 15 30); try apply Hrandom; try lia; by vm_compute.
Qed.

Lemma quiet_draws_in_range (n : nat) :
  (0 <= Math_random Sample.quiet n <= below_one)%Q.
Proof.
  unfold Sample.quiet. cbn [Math_random].
  destruct (n mod 3)%nat as [|[|k]]; split; by vm_compute.
Qed.

Lemma synthetic_values_in_range_witness :
  Forall (λ v, 0 ≤ v ≤ 43) (synthetic_distribution Sample.quiet 15 30 0).
Proof.
  exact (proj2 (proj2 (synthetic_values_in_range Sample.quiet 0 quiet_draws_in_range))).
Defined.

(** ** The repository breakdown *)

Lemma insertByActivity_Permutation (entry : string * RepoStat)
    (sorted : list (string * RepoStat)) :
  insertByActivity entry sorted ≡ₚ entry :: sorted.
Proof.
  induction sorted as [|other rest IH]; [reflexivity|]. cbn [insertByActivity].
  destruct (activity entry.2 <? activity other.2); [|reflexivity].
  rewrite IH. apply perm_swap.
Qed.

Lemma sortByActivity_Permutation (entries : list (string * RepoStat)) :
  sortByActivity entries ≡ₚ entries.
Proof.
  induction entries as [|entry entries IH]; [reflexivity|].
  cbn [sortByActivity foldr]. rewrite insertByActivity_Permutation.
  by apply perm_skip.
Qed.

Lemma insertByActivity_sorted (entry : string * RepoStat)
    (sorted : list (string * RepoStat)) :
  StronglySorted descending sorted →
  StronglySorted descending (insertByActivity entry sorted).
Proof.
  induction 1 as [|other rest Hrest IH Hall]; cbn [insertByActivity].
  - repeat constructor.
  - destruct (activity entry.2 <? activity other.2) eqn:Hlt.
    + apply Z.ltb_lt in Hlt. constructor; [exact IH|].
      rewrite insertByActivity_Permutation. constructor; [|exact Hall].
      unfold descending. lia.
    + apply Z.ltb_ge in Hlt. constructor; [by constructor|].
      constructor; [exact Hlt|].
      eapply Forall_impl; [exact Hall|]. unfold descending. intros later H. simpl in H.
      lia.
Qed.

Lemma sortByActivity_sorted (entries : list (string * RepoStat)) :
  StronglySorted descending (sortByActivity entries).
Proof.
  induction entries as [|entry entries IH]; [constructor|].
  cbn [sortByActivity foldr]. by apply insertByActivity_sorted.
Qed.

Lemma StronglySorted_sublist {A} (R : relation A) (l1 l2 : list A) :
  l1 `sublist_of` l2 → StronglySorted R l2 → StronglySorted R l1.
Proof.
  induction 1 as [|x l1 l2 Hsub IH|x l1 l2 Hsub IH]; intros Hs; [constructor|..].
  - apply StronglySorted_inv in Hs as [Hs Hall]. constructor; [by apply IH|].
    apply Forall_forall. intros y Hy. apply (proj1 (Forall_forall _ _) Hall).
    exact (elem_of_sublist _ _ _ Hy Hsub).
  - apply StronglySorted_inv in Hs as [Hs _]. by apply IH.
Qed.

Lemma filter_all_false {A} (f : A → bool) (l : list A) :
  Forall (λ x, f x = false) l → List.filter f l = [].
Proof.
  induction 1 as [|x l Hx _ IH]; [reflexivity|]. simpl. by rewrite Hx.
Qed.

Lemma filter_all_true {A} (f : A → bool) (l : list A) :
  Forall (λ x, f x = true) l → List.filter f l = l.
Proof.
  induction 1 as [|x l Hx _ IH]; [reflexivity|]. simpl. by rewrite Hx, IH.
Qed.

Lemma filter_Forall {A} (f : A → bool) (l : list A) :
  Forall (λ x, f x = true) (List.filter f l).
Proof.
  induction l as [|x l IH]; [constructor|]. simpl.
  destruct (f x) eqn:Hx; [by constructor | exact IH].
Qed.

(** On a list in the order of the breakdown whose counts are not negative,
    the inactive entries come last: cutting and then filtering is
    filtering and then cutting. *)
Lemma filter_take_descending (entries : list (string * RepoStat)) :
  StronglySorted descending entries → counts_nonneg entries →
  ∀ n, List.filter (λ entry, isActive entry.2) (take n entries)
       = take n (List.filter (λ entry, isActive entry.2) entries).
Proof.
  induction 1 as [|entry rest Hrest IH Hall]; intros Hcounts n.
  - by destruct n.
  - apply Forall_cons in Hcounts as [[Hc Hp] Hcounts].
    destruct n as [|n]; [reflexivity|]. cbn [take List.filter].
    destruct (isActive entry.2) eqn:Hactive.
    + cbn [take]. f_equal. by apply IH.
    + assert (Hinactive : Forall (λ later, isActive later.2 = false) rest).
      { unfold isActive in Hactive. apply orb_false_iff in Hactive as [H1 H2].
        apply Z.ltb_ge in H1, H2.
        apply Forall_forall. intros later Hin.
        pose proof (proj1 (Forall_forall _ _) Hall later Hin) as Hle.
        pose proof (proj1 (Forall_forall _ _) Hcounts later Hin) as [Hc' Hp'].
        unfold descending, activity in Hle. unfold isActive.
        apply orb_false_iff. split; apply Z.ltb_ge; lia. }
      rewrite (filter_all_false _ rest Hinactive).
      rewrite (filter_all_false _ (take n rest)); [by destruct n|].
      apply Forall_forall. intros later Hin.
      apply (proj1 (Forall_forall _ _) Hinactive).
      exact (elem_of_sublist _ _ _ Hin (sublist_take rest n)).
Qed.

(** X20. The breakdown shows the most active repositories. For a table
    whose counts are not negative, the repositories listed are the first
    twenty active ones in order of decreasing activity (commits plus pull
    requests): as many as there are active entries, up to twenty; each
    listed entry is an active entry of the table, listed no more often
    than it occurs; no entry is followed by a more active one; and an
    active entry that is not listed is at most as active as every listed
    one, twenty entries being listed then. *)
Theorem breakdown_shows_most_active (entries : list (string * RepoStat)) :
  counts_nonneg entries →
  length (shownRepos entries)
  = (length (List.filter (λ entry, isActive entry.2) entries) `min` 20)%nat
  ∧ shownRepos entries ⊆+ entries
  ∧ Forall (λ entry, isActive entry.2 = true) (shownRepos entries)
  ∧ StronglySorted descending (shownRepos entries)
  ∧ ∀ entry, entry ∈ entries → isActive entry.2 = true → entry ∉ shownRepos entries →
             length (shownRepos entries) = 20%nat
             ∧ Forall (λ listed, activity entry.2 ≤ activity listed.2)
                      (shownRepos entries).
Proof.
  intros Hcounts.
  assert (Hperm := sortByActivity_Permutation entries).
  assert (Hsorted := sortByActivity_sorted entries).
  assert (Hshown : shownRepos entries
                   = take 20 (List.filter (λ entry, isActive entry.2)
                                          (sortByActivity entries))).
  { unfold shownRepos. apply (filter_take_descending _ Hsorted).
    unfold counts_nonneg. by rewrite Hperm. }
  set (F := List.filter (λ entry, isActive entry.2) (sortByActivity entries)) in *.
  assert (HF : F ≡ₚ List.filter (λ entry, isActive entry.2) entries)
    by (by apply filter_Permutation_list).
  assert (HFsorted : StronglySorted descending F).
  { apply (StronglySorted_sublist _ _ (sortByActivity entries));
      [apply filter_sublist | exact Hsorted]. }
  rewrite Hshown. split; [|split; [|split; [|split]]].
  - rewrite length_take, (Permutation_length HF). lia.
  - rewrite <- Hperm. apply sublist_submseteq.
    transitivity F; [apply sublist_take | apply filter_sublist].
  - apply Forall_forall. intros entry Hin.
    apply (λ H, elem_of_sublist _ _ _ H (sublist_take F 20)) in Hin.
    exact (proj1 (Forall_forall _ _)
             (filter_Forall (λ e, isActive e.2) (sortByActivity entries)) entry Hin).
  - by apply (StronglySorted_sublist _ _ F); [apply sublist_take|].
  - intros entry Hin Hactive Hout.
    assert (HinF : entry ∈ F).
    { rewrite HF. apply list_elem_of_In, filter_In. split; [|exact Hactive].
      by apply list_elem_of_In. }
    rewrite <- (take_drop 20 F) in HinF, HFsorted.
    apply elem_of_app in HinF as [HinF | HinF]; [done|].
    split.
    + rewrite length_take. destruct (decide (20 ≤ length F)%nat) as [|Hshort]; [lia|].
      rewrite drop_ge in HinF by lia. by apply elem_of_nil in HinF.
    + apply Forall_forall. intros listed Hlisted.
      exact (StronglySorted_app_1_elem_of _ _ _ _ _ HFsorted Hlisted HinF).
Qed.

Lemma breakdown_shows_most_active_witness :
  shownRepos SamplePage.three_repos ⊆+ SamplePage.three_repos.
Proof.
  assert (H : counts_nonneg SamplePage.three_repos)
    by (repeat constructor; by vm_compute).
  exact (proj1 (proj2 (breakdown_shows_most_active SamplePage.three_repos H))).
Defined.

(** X21. The breakdown of a snapshot drops nothing but the overflow: every
    repository of the table of a snapshot is active, so the list shown is
    the first twenty entries in order of decreasing activity, and when the
    table has at most twenty repositories each of them is listed exactly
    once. *)
Theorem breakdown_of_snapshot (browser : Browser) (env : Env) (this : Analyzer)
    (daysBack : Z) (userEmail : option string) (token : string) (w : World)
    (metrics : Metrics) (w' : World) :
  enumerates browser (repoStats metrics) →
  fetchAllMetrics env this daysBack userEmail token w = (Returned metrics, w') →
  shownRepos (Object_entries browser (repoStats metrics))
  = take 20 (sortByActivity (Object_entries browser (repoStats metrics)))
  ∧ StronglySorted descending (shownRepos (Object_entries browser (repoStats metrics)))
  ∧ ((size (repoStats metrics) ≤ 20)%nat →
     shownRepos (Object_entries browser (repoStats metrics))
     ≡ₚ map_to_list (repoStats metrics)).
Proof.
  intros Henum Hrun.
  destruct (snapshot_table_entries env this daysBack userEmail token w metrics w' Hrun)
    as [Hactive _].
  set (entries := Object_entries browser (repoStats metrics)) in *.
  assert (Hshown : shownRepos entries = take 20 (sortByActivity entries)).
  { unfold shownRepos. apply filter_all_true, Forall_forall. intros [key stats] Hin.
    apply (λ H, elem_of_sublist _ _ _ H (sublist_take _ 20)) in Hin.
    rewrite sortByActivity_Permutation in Hin. unfold entries in Hin.
    rewrite Henum in Hin. apply elem_of_map_to_list in Hin.
    destruct (Hactive key stats Hin) as [H | H]; unfold isActive; simpl;
      apply orb_true_iff; [left | right]; by apply Z.ltb_lt. }
  split; [exact Hshown|]. split.
  - rewrite Hshown.
    apply (StronglySorted_sublist _ _ (sortByActivity entries));
      [apply sublist_take | apply sortByActivity_sorted].
  - intros Hsize. rewrite Hshown, take_ge.
    + rewrite sortByActivity_Permutation. exact Henum.
    + rewrite (Permutation_length (sortByActivity_Permutation entries)).
      unfold entries. rewrite (Permutation_length Henum), length_map_to_list. exact Hsize.
Qed.

Lemma breakdown_of_snapshot_witness :
  shownRepos (Object_entries SamplePage.browser (repoStats Sample.scenario_snapshot))
  ≡ₚ map_to_list (repoStats Sample.scenario_snapshot).
Proof.
  assert (E : fetchAllMetrics Sample.scenario Sample.this 90 Sample.user "token"
                Sample.world0
              = (Returned Sample.scenario_snapshot, Sample.scenario_run.2))
    by (vm_compute; reflexivity).
  assert (Henum : enumerates SamplePage.browser (repoStats Sample.scenario_snapshot))
    by (unfold enumerates; reflexivity).
  assert (Hsize : (size (repoStats Sample.scenario_snapshot) ≤ 20)%nat)
    by (vm_compute; lia).
  exact (proj2 (proj2 (breakdown_of_snapshot SamplePage.browser Sample.scenario
                         Sample.this 90 Sample.user "token" Sample.world0
                         Sample.scenario_snapshot Sample.scenario_run.2 Henum E))
               Hsize).
Defined.

(** ** The analysis entry point *)

Lemma forEach_fetches_mono {L A} (f : A → M (L * World) ()) (l : list A) :
  (∀ x s, (fetches s.2 ≤ fetches (f x s).2.2)%nat) →
  ∀ s, (fetches s.2 ≤ fetches (forEach l f s).2.2)%nat.
Proof.
  intros Hf. induction l as [|x l IH]; intros s; [simpl; lia|].
  cbn [forEach]. unfold bind. specialize (Hf x s).
  destruct (f x s) as [[[]|e] s1]; simpl in *; [|lia].
  specialize (IH s1). lia.
Qed.

Lemma analyzeRepo_fetches (env : Env) (this : Analyzer) (project : Project)
    (daysBack : Z) (userEmail : option string) (headers : list (string * string))
    (repo : Repository) (s : ProjectMetrics * World) :
  (fetches s.2
   ≤ fetches (analyzeRepo env this project daysBack userEmail headers repo s).2.2)%nat.
Proof.
  destruct s as [pm w]. rewrite analyzeRepo_run, getCommits_run.
  destruct (sinceDate_toISOString env daysBack) as [since|e]; [|simpl; lia].
  destruct (fetched (remote_commits _ _ _)) as [commits|e]; [|simpl; lia].
  rewrite getPullRequests_run.
  destruct (fetched (remote_pullrequests _ _ _)) as [prs|e]; simpl; lia.
Qed.

Lemma analyzeProject_fetches (env : Env) (this : Analyzer) (project : Project)
    (daysBack : Z) (userEmail : option string) (headers : list (string * string))
    (w : World) :
  (fetches w
   ≤ fetches (analyzeProject env this project daysBack userEmail headers w).2)%nat.
Proof.
  rewrite analyzeProject_run.
  assert (Htry : (fetches w
                  ≤ fetches (analyzeProject_try env this project daysBack userEmail
                               headers (emptyProjectMetrics, w)).2.2)%nat).
  { unfold analyzeProject_try. rewrite bind_lift_run, getRepositories_run.
    destruct (fetched (remote_repositories _ _ _)) as [repos|e]; [|simpl; lia].
    unfold bind at 1.
    assert (Hloop := forEach_fetches_mono
                       (analyzeRepo env this project daysBack userEmail headers) repos
                       (analyzeRepo_fetches env this project daysBack userEmail headers)
                       (emptyProjectMetrics, after_fetch w)).
    destruct (forEach repos _ _) as [[[]|e] [pm2 w2]]; simpl in Hloop; [|simpl; lia].
    destruct (truthy userEmail); [|simpl; lia].
    rewrite bind_lift_run, getWorkItems_run.
    destruct (sinceDate_toISOString env daysBack) as [since|e]; [|simpl; lia].
    destruct (fetched (remote_wiql _ _ _)) as [items|e]; simpl; lia. }
  destruct (analyzeProject_try _ _ _ _ _ _ _) as [[[]|e] [pm1 w1]]; simpl in *; lia.
Qed.

Lemma fetchAllMetrics_step_fetches (env : Env) (this : Analyzer) (daysBack : Z)
    (userEmail : option string) (headers : list (string * string)) (project : Project)
    (s : Metrics * World) :
  (fetches s.2
   ≤ fetches (fetchAllMetrics_step env this daysBack userEmail headers project s).2.2)%nat.
Proof.
  destruct s as [metrics w].
  destruct (fetchAllMetrics_step_run env this daysBack userEmail headers project
              metrics w) as (pm & w1 & stats & w2 & Hpm & Hstats & ->).
  assert (H1 := analyzeProject_fetches env this project daysBack userEmail headers w).
  rewrite Hpm in H1.
  destruct (sampler_counts env this project daysBack headers w1)
    as (stats' & w2' & Hrun & Hcalls & _).
  rewrite Hstats in Hrun. injection Hrun as _ <-. simpl in *. lia.
Qed.

(** A run of [fetchAllMetrics] that could encode the token sends at least one
    request; one that could not sends none. *)
Lemma fetchAllMetrics_fetches (env : Env) (this : Analyzer) (daysBack : Z)
    (userEmail : option string) (token : string) (w : World) (encoded : string) :
  btoa env (":" +:+ token) = Returned encoded →
  (fetches w < fetches (fetchAllMetrics env this daysBack userEmail token w).2)%nat.
Proof.
  intros Hbtoa. rewrite (fetchAllMetrics_run _ _ _ _ _ _ encoded Hbtoa).
  destruct (getProjects _ _ _ _) as [[projs|e] w1] eqn:Eprojects;
    rewrite getProjects_run in Eprojects; apply (f_equal snd) in Eprojects;
    simpl in Eprojects; subst w1; [|simpl; lia].
  match goal with
  | |- context [forEach projs ?f ?s] =>
      assert (Hloop := forEach_fetches_mono f projs
                         (fetchAllMetrics_step_fetches env this daysBack userEmail
                            (requestHeaders encoded)) s)
  end.
  destruct (forEach projs _ _) as [[[]|e] [metrics w2]]; simpl in *; lia.
Qed.

Lemma analyzeMetrics_run (browser : Browser) (env : Env) (this : Analyzer)
    (s : Session * World) :
  analyzeMetrics browser env this s
  = if truthy (Some (form_token browser (page s.1)))
    then
      match fetchAllMetrics env this (form_daysBack browser (page s.1))
              (form_userEmail browser (page s.1)) (form_token browser (page s.1)) s.2 with
      | (Returned metrics, w') =>
          (Returned (),
           (setMetricsData metrics
              (setPage (displayResults browser metrics (form_daysBack browser (page s.1))
                          (form_userEmail browser (page s.1)) (clock s.1))
                 (tick (setPage showLoading s.1))), w'))
      | (Thrown error, w') =>
          (Returned (),
           (setPage (showError (Error_message error))
              (console_error "Error analyzing metrics:" error
                 (setPage showLoading s.1)), w'))
      end
    else
      (Returned (),
       (setPage (showError
          "Personal Access Token is required for API access. Please enter your PAT.")
          s.1, s.2)).
Proof.
  destruct s as [session w]. unfold analyzeMetrics, form_token, form_daysBack,
    form_userEmail. cbn [fst snd].
  destruct (truthy (Some (trim browser (patToken_value (page session))))); [|reflexivity].
  cbn [negb]. unfold bind at 1. unfold update at 1. cbn [fst snd].
  unfold try_catch. rewrite bind_lift_run.
  destruct (fetchAllMetrics _ _ _ _ _ w) as [[metrics|error] w']; reflexivity.
Qed.

(** X22. A request needs a token that can be encoded. [analyzeMetrics] sends
    no request exactly when the token field is blank after trimming or the
    encoding of the token ([btoa] of a colon and the token) raises. When
    the field is blank, the world is left as it was: the error section
    shows the message asking for a token, and the stored snapshot and the
    export button stay as they were. When the encoding raises, the error
    section shows the message of that error and the stored snapshot stays
    as it was. With any other token at least one request is sent. *)
Theorem requests_need_a_token (browser : Browser) (env : Env) (this : Analyzer)
    (s : Session * World) :
  (fetches (analyzeMetrics browser env this s).2.2 = fetches s.2
   ↔ form_token browser (page s.1) = EmptyString
     ∨ ∃ e, btoa env (":" +:+ form_token browser (page s.1)) = Thrown e)
  ∧ (fetches s.2 ≤ fetches (analyzeMetrics browser env this s).2.2)%nat
  ∧ (form_token browser (page s.1) = EmptyString →
     (analyzeMetrics browser env this s).2.2 = s.2
     ∧ metricsData (analyzeMetrics browser env this s).2.1 = metricsData s.1
     ∧ exportBtn_display (page (analyzeMetrics browser env this s).2.1)
       = exportBtn_display (page s.1)
     ∧ errorSection_display (page (analyzeMetrics browser env this s).2.1) = "block"
     ∧ resultsSection_display (page (analyzeMetrics browser env this s).2.1) = "none"
     ∧ errorMessage_text (page (analyzeMetrics browser env this s).2.1)
       = "Personal Access Token is required for API access. Please enter your PAT.")
  ∧ (∀ e, form_token browser (page s.1) ≠ EmptyString →
          btoa env (":" +:+ form_token browser (page s.1)) = Thrown e →
     metricsData (analyzeMetrics browser env this s).2.1 = metricsData s.1
     ∧ errorSection_display (page (analyzeMetrics browser env this s).2.1) = "block"
     ∧ resultsSection_display (page (analyzeMetrics browser env this s).2.1) = "none"
     ∧ errorMessage_text (page (analyzeMetrics browser env this s).2.1)
       = Error_message e).
Proof.
  rewrite analyzeMetrics_run.
  destruct (truthy (Some (form_token browser (page s.1)))) eqn:Htoken.
  - apply truthy_Some in Htoken.
    destruct (btoa env (":" +:+ form_token browser (page s.1))) as [encoded|e] eqn:Hbtoa.
    + assert (Hsent := fetchAllMetrics_fetches env this
                         (form_daysBack browser (page s.1))
                         (form_userEmail browser (page s.1))
                         (form_token browser (page s.1)) s.2 encoded Hbtoa).
      destruct (fetchAllMetrics _ _ _ _ _ _) as [[metrics|error] w']; simpl in *.
      * split; [split; [lia | intros [H | [e H]]; [contradiction | discriminate]]|].
        split; [lia|]. split; [intros H; contradiction | intros e _ H; discriminate].
      * split; [split; [lia | intros [H | [e H]]; [contradiction | discriminate]]|].
        split; [lia|]. split; [intros H; contradiction | intros e _ H; discriminate].
    + rewrite (fetchAllMetrics_unencoded env this _ _ _ _ e Hbtoa). simpl.
      split; [split; [intros _; right; by exists e | reflexivity]|].
      split; [lia|]. split; [intros H; contradiction|].
      intros e' _ [= <-]. by repeat split.
  - assert (Hblank : form_token browser (page s.1) = EmptyString).
    { destruct (decide (form_token browser (page s.1) = EmptyString)) as [|Hne]; [done|].
      apply truthy_Some in Hne. congruence. }
    simpl. split; [split; [intros _; by left | reflexivity]|].
    split; [lia|]. split; [intros _; by repeat split|].
    intros e Hne. contradiction.
Qed.

(** X23. An analysis ends on the results or on the error, never on both
    and never on the loading section. [analyzeMetrics] always returns
    normally. Either the run of [fetchAllMetrics] returned a snapshot: the
    results and the export button are shown, the error is hidden, and the
    snapshot stored is the one returned by this run. Or the error section
    is shown and the results are hidden: the stored snapshot is the one
    from before (an earlier snapshot is kept, nothing is stored after a
    failure), and the message shown is that of the error raised or the
    request for a token. *)
Theorem analysis_ends_on_results_or_error (browser : Browser) (env : Env)
    (this : Analyzer) (s : Session * World) :
  ∃ s', analyzeMetrics browser env this s = (Returned (), s')
    ∧ loadingSection_display (page s'.1) = "none"
    ∧ ((resultsSection_display (page s'.1) = "block"
        ∧ errorSection_display (page s'.1) = "none"
        ∧ exportBtn_display (page s'.1) = "inline-block"
        ∧ ∃ metrics,
            fetchAllMetrics env this (form_daysBack browser (page s.1))
              (form_userEmail browser (page s.1)) (form_token browser (page s.1)) s.2
            = (Returned metrics, s'.2)
            ∧ metricsData s'.1 = Some metrics)
       ∨ (resultsSection_display (page s'.1) = "none"
          ∧ errorSection_display (page s'.1) = "block"
          ∧ metricsData s'.1 = metricsData s.1
          ∧ (errorMessage_text (page s'.1)
             = "Personal Access Token is required for API access. Please enter your PAT."
             ∨ ∃ error,
                 (fetchAllMetrics env this (form_daysBack browser (page s.1))
                    (form_userEmail browser (page s.1)) (form_token browser (page s.1))
                    s.2).1 = Thrown error
                 ∧ errorMessage_text (page s'.1) = Error_message error
                 ∧ exportBtn_display (page s'.1) = "none"))).
Proof.
  rewrite analyzeMetrics_run.
  destruct (truthy (Some (form_token browser (page s.1)))).
  - destruct (fetchAllMetrics _ _ _ _ _ _) as [[metrics|error] w'];
      eexists; (split; [reflexivity|]); (split; [reflexivity|]).
    + left. split; [reflexivity|]. split; [reflexivity|]. split; [reflexivity|].
      by exists metrics.
    + right. split; [reflexivity|]. split; [reflexivity|]. split; [reflexivity|].
      right. by exists error.
  - eexists. split; [reflexivity|]. split; [reflexivity|]. right.
    split; [reflexivity|]. split; [reflexivity|]. split; [reflexivity|]. by left.
Qed.

(** ** The export *)

(** X24. While the export button is shown there is a snapshot to export.
    Both handlers keep this true of the session: [analyzeMetrics] shows the
    button only together with a stored snapshot and hides it when the run
    fails; [exportData] changes neither the page nor the snapshot.
    Without a stored snapshot [exportData] does nothing; with the button
    shown it hands over exactly one file, which carries the stored
    snapshot and, as summary, its four totals. *)
Theorem export_button_has_data (browser : Browser) (env : Env) (this : Analyzer)
    (s : Session * World) :
  export_ready s.1 →
  export_ready (analyzeMetrics browser env this s).2.1
  ∧ export_ready (exportData browser this s.1)
  ∧ page (exportData browser this s.1) = page s.1
  ∧ metricsData (exportData browser this s.1) = metricsData s.1
  ∧ (metricsData s.1 = None → exportData browser this s.1 = s.1)
  ∧ (exportBtn_display (page s.1) ≠ "none" →
     ∃ metrics file,
       metricsData s.1 = Some metrics
       ∧ downloads (exportData browser this s.1) = downloads s.1 ++ [file]
       ∧ download_text file
         = JSON_stringify_export browser
             {| export_generatedOn := Date_toISOString browser (clock s.1);
                export_organization := organization this;
                export_metrics := metrics;
                export_summary :=
                  {| summary_totalCommits := totalCommits metrics;
                     summary_totalPRs := totalPRs metrics;
                     summary_totalWorkItems := totalWorkItems metrics;
                     summary_activeRepos := activeRepos metrics |} |}).
Proof.
  intros Hready.
  assert (Hpage : page (exportData browser this s.1) = page s.1)
    by (unfold exportData; by destruct (metricsData s.1)).
  assert (Hdata : metricsData (exportData browser this s.1) = metricsData s.1).
  { unfold exportData. by destruct (metricsData s.1) eqn:E. }
  split; [|split; [|split; [exact Hpage|split; [exact Hdata|split]]]].
  - rewrite analyzeMetrics_run.
    destruct (truthy (Some (form_token browser (page s.1)))).
    + destruct (fetchAllMetrics _ _ _ _ _ _) as [[metrics|error] w'];
        intros Hshown; simpl in *; [by eexists | done].
    + exact Hready.
  - unfold export_ready. by rewrite Hpage, Hdata.
  - intros Hnone. unfold exportData. by rewrite Hnone.
  - intros Hshown. destruct (Hready Hshown) as [metrics Hmetrics].
    unfold exportData. rewrite Hmetrics. by eexists metrics, _.
Qed.

Lemma export_button_has_data_witness :
  export_ready (SamplePage.session0 "token")
  ∧ export_ready
      (analyzeMetrics SamplePage.browser Sample.scenario Sample.this
         (SamplePage.session0 "token", Sample.world0)).2.1.
Proof.
  assert (Hready : export_ready (SamplePage.session0 "token", Sample.world0).1)
    by (intros Hshown; by destruct Hshown).
  split; [exact Hready|].
  exact (proj1 (export_button_has_data SamplePage.browser Sample.scenario Sample.this
                  (SamplePage.session0 "token", Sample.world0) Hready)).
Defined.
